(** * Transit telemetry platform: collection and metrics pipeline

    A shallow embedding of the backend of the MBTA telemetry platform
    (backend/services/mbta_client.py, backend/database.py,
    backend/collector.py, backend/services/delay_calculator.py,
    backend/services/alert_detector.py and the endpoints of
    backend/main.py), with the properties of its specification.

    Modelling conventions.
    - A naive [datetime] is the number of microseconds since
      1970-01-01T00:00:00 (an integer, as in CPython); a [timedelta] is
      a difference of two.  A [timedelta] or a [datetime] computed
      from a caller's number of hours can leave the range of its type:
      that is the [OverflowError] of the source.
    - A Python float is an exact rational ([Q]).  Every float the
      modelled code computes is a quotient or a difference of small
      integers; rounding is not modelled.
    - A table is the list of its rows in rowid order.  The surrogate
      [id] column is the position in the list: rows are never deleted.
    - A SQLAlchemy session (autocommit off, autoflush off) is a working
      copy of the tables; [commit] publishes it, [rollback] drops it.
    - Storage failures are chosen by an oracle over the storage
      operations; the operations attempted and the log are recorded.
      Log messages are recorded without their interpolated numbers.
    - The clock is read once per call: every [datetime.utcnow()] of a
      cycle or a request is the one value [collection_time] or [now].
    - The upstream document has the shape of the agency's JSON:API
      (members, where present, have the types the client reads); HTTP
      statuses other than 2xx make [raise_for_status] raise.
    - Only exceptions derived from [Exception] are modelled (no task
      cancellation, no interpreter exit). *)

From Stdlib Require Import ZArith QArith Lia.
From stdpp Require Import gmap strings list.

Close Scope Q_scope.
Open Scope Z_scope.

(** ** Time *)

Module Time.

(** [datetime] and [timedelta], in microseconds. *)
Definition datetime := Z.
Definition timedelta := Z.

Definition seconds (n : Z) : timedelta := n * 1000000.
Definition minutes (n : Z) : timedelta := n * 60000000.
Definition hours (n : Z) : timedelta := n * 3600000000.

(** [timedelta.total_seconds()] *)
Definition total_seconds (d : timedelta) : Q := Qmake d 1000000.

(** [datetime.hour] *)
Definition hour (t : datetime) : Z := (t / 3600000000) mod 24.

(** [datetime.min] (0001-01-01T00:00:00) and [datetime.max]
    (9999-12-31T23:59:59.999999). *)
Definition MIN : datetime := -62135596800000000.
Definition MAX : datetime := 253402300799999999.

(** [timedelta(hours=n)]: [None] is the [OverflowError] of a number
    of days of magnitude above 999999999. *)
Definition timedelta_hours (n : Z) : option timedelta :=
  if (-999999999 <=? n / 24) && (n / 24 <=? 999999999)
  then Some (hours n) else None.

(** [t - d] on a [datetime]: [None] is the [OverflowError] of a date
    out of range. *)
Definition minus (t : datetime) (d : timedelta) : option datetime :=
  if (MIN <=? t - d) && (t - d <=? MAX) then Some (t - d) else None.

End Time.

(** ** Python values *)

(** Truth value of a float: [0.0] is false. *)
Definition float_truthy (x : Q) : bool := negb (Qeq_bool x 0).

(** Truth value of an optional float ([None] is false). *)
Definition opt_float_truthy (x : option Q) : bool :=
  match x with
  | Some q => float_truthy q
  | None => false
  end.

(** Truth value of a string: the empty string is false. *)
Definition str_truthy (s : string) : bool :=
  match s with
  | EmptyString => false
  | _ => true
  end.

(** [sum(xs)] over floats, left to right from 0. *)
Definition py_sum (xs : list Q) : Q := fold_left Qplus xs 0%Q.

(** [x < y] on floats. *)
Definition float_lt (x y : Q) : bool :=
  match Qcompare x y with Lt => true | _ => false end.

(** [min(xs)] and [max(xs)]: the first extreme element; [xs] non-empty. *)
Definition py_min (x : Q) (xs : list Q) : Q :=
  fold_left (fun m y => if float_lt y m then y else m) xs x.
Definition py_max (x : Q) (xs : list Q) : Q :=
  fold_left (fun m y => if float_lt m y then y else m) xs x.

(** ** Python dicts, in insertion order *)

Module PyDict.

Section Dict.

Context {K V : Type} `{EqDecision K}.

Definition dict : Type := list (K * V).

(** [d.get(k)] *)
Fixpoint get (k : K) (d : dict) : option V :=
  match d with
  | [] => None
  | (k', v) :: d' => if decide (k = k') then Some v else get k d'
  end.

(** [k in d] *)
Definition mem (k : K) (d : dict) : bool :=
  match get k d with Some _ => true | None => false end.

(** [d[k] = v]: a present key keeps its place, a new key goes last. *)
Fixpoint set (k : K) (v : V) (d : dict) : dict :=
  match d with
  | [] => [(k, v)]
  | (k', v') :: d' =>
      if decide (k = k') then (k', v) :: d' else (k', v') :: set k v d'
  end.

Definition keys (d : dict) : list K := map fst d.

End Dict.

Arguments dict : clear implicits.

Section Grouping.

Context {E K : Type} `{EqDecision K} (key : E -> K).

(** One step of grouping: append the element under its key. *)
Definition group1 (d : dict K (list E)) (e : E) : dict K (list E) :=
  set (key e) (default [] (get (key e) d) ++ [e]) d.

End Grouping.

End PyDict.

(** ** Upstream client (services/mbta_client.py) *)

Module MBTAClient.

(** *** The response document *)

Record route_attributes := {
  long_name : option string;    (* absent or null: None *)
  short_name : option string    (* absent: None *)
}.

Record included_item := {
  inc_type : option string;
  inc_id : string;
  inc_attributes : route_attributes
}.

Record vehicle_attributes := {
  attr_latitude : option Q;
  attr_longitude : option Q;
  attr_bearing : option Z;
  attr_speed : option Q;
  attr_current_status : option string;
  attr_updated_at : option string
}.

(** [relationships.route.data.id], every level optional. *)
Record resource_ref := { ref_id : option string }.
Record relationship := { rel_data : option resource_ref }.
Record relationships := { rel_route : option relationship }.

Record vehicle_item := {
  item_id : string;
  item_attributes : option vehicle_attributes;
  item_relationships : option relationships
}.

(** The decoded JSON object: the members the client reads, and the
    names of the other top-level members. *)
Record api_response := {
  resp_data : option (list vehicle_item);
  resp_included : option (list included_item);
  resp_other_members : list string
}.

(** Truth value of the decoded object: a dict is false when empty. *)
Definition response_truthy (r : api_response) : bool :=
  match resp_data r, resp_included r, resp_other_members r with
  | None, None, [] => false
  | _, _, _ => true
  end.

(** *** get_vehicles *)

(** What one request does. *)
Inductive http_outcome :=
| Response (status_code : Z) (json : option api_response)
    (* [json = None]: the body does not decode *)
| Timeout
| Failure.   (* any other exception of the transport *)

Inductive exn :=
| HTTPStatusError (status_code : Z)
| TimeoutException
| OtherException.

(** How the body of the loop ends. *)
Inductive loop_action :=
| SleepContinue (wait_time : Z)
| Return (r : option api_response).

(** [response.raise_for_status()] passes on 2xx only. *)
Definition is_success (status_code : Z) : bool :=
  (200 <=? status_code) && (status_code <? 300).

(** The [try] block of one attempt. *)
Definition attempt_try (o : http_outcome) (attempt : nat) : exn + loop_action :=
  match o with
  | Response status_code json =>
      if status_code =? 429 then
        inr (SleepContinue (2 ^ Z.of_nat attempt * 5))
      else if is_success status_code then
        match json with
        | Some j => inr (Return (Some j))
        | None => inl OtherException
        end
      else inl (HTTPStatusError status_code)
  | Timeout => inl TimeoutException
  | Failure => inl OtherException
  end.

(** The [except] clauses. *)
Definition attempt_except (e : exn) (attempt retries : nat) : loop_action :=
  let retries_remain := Z.of_nat attempt <? Z.of_nat retries - 1 in
  match e with
  | HTTPStatusError status_code =>
      if (500 <=? status_code) && retries_remain
      then SleepContinue (2 ^ Z.of_nat attempt * 2)
      else Return None
  | TimeoutException =>
      if retries_remain
      then SleepContinue (2 ^ Z.of_nat attempt * 2)
      else Return None
  | OtherException =>
      if retries_remain
      then SleepContinue (2 ^ Z.of_nat attempt)
      else Return None
  end.

Definition one_attempt (o : http_outcome) (attempt retries : nat) : loop_action :=
  match attempt_try o attempt with
  | inr a => a
  | inl e => attempt_except e attempt retries
  end.

(** What the client does to the outside, in order. *)
Inductive client_event :=
| Request (attempt : nat)
| Sleep (seconds : Z).

(** [for attempt in range(retries)], over the attempts still to run;
    the fall-through after the loop returns [None]. *)
Fixpoint attempts_loop (net : nat -> http_outcome) (retries : nat)
    (attempts : list nat) : option api_response * list client_event :=
  match attempts with
  | [] => (None, [])
  | attempt :: rest =>
      match one_attempt (net attempt) attempt retries with
      | SleepContinue w =>
          let '(r, tr) := attempts_loop net retries rest in
          (r, Request attempt :: Sleep w :: tr)
      | Return r => (r, [Request attempt])
      end
  end.

Definition get_vehicles (net : nat -> http_outcome) (retries : nat)
    : option api_response * list client_event :=
  attempts_loop net retries (seq 0 retries).

Definition requests (tr : list client_event) : list nat :=
  omap (fun e => match e with Request a => Some a | _ => None end) tr.

Definition sleeps (tr : list client_event) : list Z :=
  omap (fun e => match e with Sleep w => Some w | _ => None end) tr.

(** *** parse_vehicle_data *)

(** A parsed vehicle (the dict built per vehicle). *)
Record vehicle_data := {
  vd_vehicle_id : string;
  vd_route_id : option string;
  vd_route_name : option string;
  vd_latitude : option Q;
  vd_longitude : option Q;
  vd_bearing : option Z;
  vd_speed : option Q;
  vd_current_status : option string;
  vd_updated_at : option string
}.

(** [long_name or short_name (default: id)] *)
Definition display_name (item : included_item) : string :=
  let a := inc_attributes item in
  match long_name a with
  | Some s => if str_truthy s then s else default (inc_id item) (short_name a)
  | None => default (inc_id item) (short_name a)
  end.

(** The [included_routes] lookup, filled in document order. *)
Definition build_included_routes (included : list included_item)
    : gmap string string :=
  fold_left
    (fun m item =>
       if bool_decide (inc_type item = Some "route"%string)
       then <[inc_id item := display_name item]> m
       else m)
    included ∅.

Definition empty_attributes : vehicle_attributes :=
  {| attr_latitude := None; attr_longitude := None; attr_bearing := None;
     attr_speed := None; attr_current_status := None;
     attr_updated_at := None |}.

Definition parse_vehicle (included_routes : gmap string string)
    (vehicle_item : vehicle_item) : vehicle_data :=
  let attrs := default empty_attributes (item_attributes vehicle_item) in
  let rels := default {| rel_route := None |} (item_relationships vehicle_item) in
  let '(route_id, route_name) :=
    match rel_route rels with
    | Some {| rel_data := Some d |} =>
        let route_id := ref_id d in
        (route_id,
         match route_id with
         | Some r => Some (default r (included_routes !! r))
         | None => None
         end)
    | _ => (None, None)
    end in
  {| vd_vehicle_id := item_id vehicle_item;
     vd_route_id := route_id;
     vd_route_name := route_name;
     vd_latitude := attr_latitude attrs;
     vd_longitude := attr_longitude attrs;
     vd_bearing := attr_bearing attrs;
     vd_speed := attr_speed attrs;
     vd_current_status := attr_current_status attrs;
     vd_updated_at := attr_updated_at attrs |}.

Definition parse_vehicle_data (r : api_response) : list vehicle_data :=
  match resp_data r with
  | None => []
  | Some data =>
      let included_routes :=
        match resp_included r with
        | Some included => build_included_routes included
        | None => ∅
        end in
      map (parse_vehicle included_routes) data
  end.

End MBTAClient.

(** ** State store (database.py) *)

Module Database.

(** Table [vehicles]; [vehicle_id] is declared unique and not null. *)
Record Vehicle := {
  vehicle_id : string;
  route_id : option string;
  route_name : option string;
  latitude : option Q;
  longitude : option Q;
  bearing : option Z;
  speed : option Q;
  current_status : option string;
  last_updated : Time.datetime
}.

(** Table [telemetry_events]: no uniqueness constraint. *)
Record TelemetryEvent := {
  ev_vehicle_id : string;
  ev_route_id : option string;
  ev_latitude : option Q;
  ev_longitude : option Q;
  ev_speed : option Q;
  ev_current_status : option string;
  ev_timestamp : Time.datetime
}.

(** Table [route_delays]: (route_id, hour_of_day) is indexed, not
    declared unique. *)
Record RouteDelay := {
  rd_route_id : string;
  rd_route_name : option string;
  rd_hour_of_day : Z;
  rd_avg_delay_minutes : Q;
  rd_sample_count : nat;
  rd_calculated_at : Time.datetime
}.

Record database := {
  vehicles : list Vehicle;
  telemetry_events : list TelemetryEvent;
  route_delays : list RouteDelay
}.

Definition empty : database :=
  {| vehicles := []; telemetry_events := []; route_delays := [] |}.

Definition vehicle_ids (rows : list Vehicle) : list string :=
  map vehicle_id rows.

(** The unique constraint on [vehicles.vehicle_id]. *)
Definition unique_vehicle_ids (rows : list Vehicle) : Prop :=
  NoDup (vehicle_ids rows).

(** INSERT of rows one at a time under the unique constraint:
    [None] when some INSERT is refused. *)
Fixpoint insert_vehicles (rows new : list Vehicle) : option (list Vehicle) :=
  match new with
  | [] => Some rows
  | v :: new' =>
      if bool_decide (vehicle_id v ∈ vehicle_ids rows) then None
      else insert_vehicles (rows ++ [v]) new'
  end.

(** [ORDER BY key]: rows with equal keys stay in rowid order. *)
Fixpoint insert_by {A} (key : A -> Z) (x : A) (l : list A) : list A :=
  match l with
  | [] => [x]
  | y :: l' => if key x <? key y then x :: l else y :: insert_by key x l'
  end.

Definition order_by {A} (key : A -> Z) (l : list A) : list A :=
  fold_left (fun acc x => insert_by key x acc) l [].

(** *** The session *)

Inductive db_op :=
| QueryVehicles
| BulkSaveVehicles
| BulkSaveEvents
| QueryEvents
| QueryRouteDelay (hour : Z)
| QueryDelayHistory
| Commit.

Inductive db_exn :=
| OperationalError (op : db_op)   (* the storage refused the operation *)
| IntegrityError                  (* a constraint of the schema is violated *)
| OverflowError.                  (* a date or a duration out of range *)

Inductive log_entry :=
| Info (msg : string)
| Warning (msg : string)
| Error (msg : string) (e : db_exn).

Definition is_error (l : log_entry) : bool :=
  match l with Error _ _ => true | _ => false end.

(** The world of a request or a cycle: the stored tables, the tables
    as the open transaction sees them, the storage operations
    attempted so far, and the log. *)
Record world := {
  db : database;
  txn : database;
  ops : list db_op;
  log : list log_entry
}.

Definition open_session (d : database) (l : list log_entry) : world :=
  {| db := d; txn := d; ops := []; log := l |}.

(** Computations over the world that may raise. *)
Definition M (A : Type) : Type := world -> (db_exn + A) * world.

Definition ret {A} (a : A) : M A := fun w => (inr a, w).

Definition bind {A B} (m : M A) (k : A -> M B) : M B :=
  fun w =>
    match m w with
    | (inr a, w') => k a w'
    | (inl e, w') => (inl e, w')
    end.

Definition raise {A} (e : db_exn) : M A := fun w => (inl e, w).

(** [try: m  except Exception as e: h e] *)
Definition try_except {A} (m : M A) (h : db_exn -> M A) : M A :=
  fun w =>
    match m w with
    | (inr a, w') => (inr a, w')
    | (inl e, w') => h e w'
    end.

Definition modify (f : world -> world) : M unit := fun w => (inr tt, f w).
Definition get : M world := fun w => (inr w, w).

(** [try: m  finally: f] *)
Definition finally {A} (m : M A) (f : M unit) : M A :=
  fun w =>
    match m w with
    | (r, w') =>
        match f w' with
        | (inr _, w'') => (r, w'')
        | (inl e, w'') => (inl e, w'')
        end
    end.

Definition when (b : bool) (m : M unit) : M unit := if b then m else ret tt.

Declare Scope session_scope.
Delimit Scope session_scope with session.
Notation "x <- m ;; k" := (bind m (fun x => k))
  (at level 100, m at next level, right associativity) : session_scope.
Notation "m ;;; k" := (bind m (fun _ => k))
  (at level 100, right associativity) : session_scope.

Definition logger (l : log_entry) : M unit :=
  modify (fun w => {| db := db w; txn := txn w; ops := ops w; log := log w ++ [l] |}).

Definition set_txn (t : database) : M unit :=
  modify (fun w => {| db := db w; txn := t; ops := ops w; log := log w |}).

Section Storage.

(** Which storage operations fail. *)
Variable fault : db_op -> bool.

(** Every storage operation is recorded, then fails if the oracle
    says so. *)
Definition storage (op : db_op) : M unit :=
  fun w =>
    let w' := {| db := db w; txn := txn w; ops := ops w ++ [op]; log := log w |} in
    if fault op then (inl (OperationalError op), w') else (inr tt, w').

(** [db.query(Vehicle).all()]: the rows, as session objects. *)
Definition query_vehicles : M (list Vehicle) :=
  (storage QueryVehicles ;;;
   w <- get ;;
   ret (vehicles (txn w)))%session.

(** [db.bulk_save_objects(new_vehicles)]: one INSERT per object
    inside the transaction; an INSERT whose [vehicle_id] is already
    in the table violates the unique constraint. *)
Definition bulk_save_vehicles (new : list Vehicle) : M unit :=
  (storage BulkSaveVehicles ;;;
   w <- get ;;
   match insert_vehicles (vehicles (txn w)) new with
   | Some rows =>
       set_txn {| vehicles := rows;
                  telemetry_events := telemetry_events (txn w);
                  route_delays := route_delays (txn w) |}
   | None => raise IntegrityError
   end)%session.

Definition bulk_save_events (new : list TelemetryEvent) : M unit :=
  (storage BulkSaveEvents ;;;
   w <- get ;;
   set_txn {| vehicles := vehicles (txn w);
              telemetry_events := telemetry_events (txn w) ++ new;
              route_delays := route_delays (txn w) |})%session.

(** [db.commit()]: flush the changed objects and publish. *)
Definition commit : M unit :=
  (storage Commit ;;;
   modify (fun w => {| db := txn w; txn := txn w; ops := ops w; log := log w |}))%session.

(** [db.rollback()]: drop everything since the last commit. *)
Definition rollback : M unit :=
  modify (fun w => {| db := db w; txn := db w; ops := ops w; log := log w |}).

(** [db.close()]: the session releases its connection; whatever
    is not committed is dropped. *)
Definition close : M unit := rollback.

End Storage.

End Database.

(** ** Collector (collector.py) *)

Module Collector.

Import Database MBTAClient.

Definition MAJOR_ROUTES : string := "Red,Orange,Green,Blue".

(** [{v.vehicle_id: v for v in rows}]: the dict holds the session's
    objects themselves, here the position of each in [rows]; a later
    row replaces an earlier one with the same key. *)
Fixpoint index_from (i : nat) (rows : list Vehicle) (m : gmap string nat)
    : gmap string nat :=
  match rows with
  | [] => m
  | v :: rows' => index_from (S i) rows' (<[vehicle_id v := i]> m)
  end.

Definition index_vehicles (rows : list Vehicle) : gmap string nat :=
  index_from 0 rows ∅.

(** The attribute assignments on an existing object. *)
Definition update_existing (vehicle_data : vehicle_data)
    (collection_time : Time.datetime) (existing : Vehicle) : Vehicle :=
  {| vehicle_id := vehicle_id existing;
     route_id := vd_route_id vehicle_data;
     route_name := vd_route_name vehicle_data;
     latitude := vd_latitude vehicle_data;
     longitude := vd_longitude vehicle_data;
     bearing := vd_bearing vehicle_data;
     speed := vd_speed vehicle_data;
     current_status := vd_current_status vehicle_data;
     last_updated := collection_time |}.

Definition new_vehicle (vehicle_data : vehicle_data)
    (collection_time : Time.datetime) : Vehicle :=
  {| vehicle_id := vd_vehicle_id vehicle_data;
     route_id := vd_route_id vehicle_data;
     route_name := vd_route_name vehicle_data;
     latitude := vd_latitude vehicle_data;
     longitude := vd_longitude vehicle_data;
     bearing := vd_bearing vehicle_data;
     speed := vd_speed vehicle_data;
     current_status := vd_current_status vehicle_data;
     last_updated := collection_time |}.

Definition new_event (vehicle_data : vehicle_data)
    (collection_time : Time.datetime) : TelemetryEvent :=
  {| ev_vehicle_id := vd_vehicle_id vehicle_data;
     ev_route_id := vd_route_id vehicle_data;
     ev_latitude := vd_latitude vehicle_data;
     ev_longitude := vd_longitude vehicle_data;
     ev_speed := vd_speed vehicle_data;
     ev_current_status := vd_current_status vehicle_data;
     ev_timestamp := collection_time |}.

(** The state of the staging loop. *)
Record staging := {
  objects : list Vehicle;            (* the session's Vehicle objects *)
  vehicles_to_update : list nat;     (* references into [objects] *)
  vehicles_to_insert : list Vehicle;
  staged_events : list TelemetryEvent
}.

Definition staging_init (rows : list Vehicle) : staging :=
  {| objects := rows; vehicles_to_update := [];
     vehicles_to_insert := []; staged_events := [] |}.

(** One iteration of [for vehicle_data in vehicles_data]. *)
Definition stage (collection_time : Time.datetime)
    (existing_vehicle_ids : gmap string nat)
    (st : staging) (vehicle_data : vehicle_data) : staging :=
  let event := new_event vehicle_data collection_time in
  match existing_vehicle_ids !! vd_vehicle_id vehicle_data with
  | Some existing =>
      {| objects := alter (update_existing vehicle_data collection_time)
                          existing (objects st);
         vehicles_to_update := vehicles_to_update st ++ [existing];
         vehicles_to_insert := vehicles_to_insert st;
         staged_events := staged_events st ++ [event] |}
  | None =>
      {| objects := objects st;
         vehicles_to_update := vehicles_to_update st;
         vehicles_to_insert :=
           vehicles_to_insert st ++ [new_vehicle vehicle_data collection_time];
         staged_events := staged_events st ++ [event] |}
  end.

Definition stage_all (collection_time : Time.datetime) (rows : list Vehicle)
    (vehicles_data : list vehicle_data) : staging :=
  fold_left (stage collection_time (index_vehicles rows)) vehicles_data
    (staging_init rows).

Definition nonempty {A} (l : list A) : bool :=
  match l with [] => false | _ => true end.

Definition stored_msg : log_entry :=
  Info "Successfully stored vehicles and telemetry events".

Section Cycle.

Variable fault : db_op -> bool.
Variable net : nat -> http_outcome.
Variable collection_time : Time.datetime.

(** The inner [try] block: stage, bulk insert, commit. *)
Definition store_telemetry (vehicles_data : list vehicle_data) : M unit :=
  (rows <- query_vehicles fault ;;
   let st := stage_all collection_time rows vehicles_data in
   w <- get ;;
   set_txn {| vehicles := objects st;
              telemetry_events := telemetry_events (txn w);
              route_delays := route_delays (txn w) |} ;;;
   when (nonempty (vehicles_to_insert st))
     (bulk_save_vehicles fault (vehicles_to_insert st)) ;;;
   when (nonempty (staged_events st))
     (bulk_save_events fault (staged_events st)) ;;;
   commit fault ;;;
   logger stored_msg)%session.

Definition collect_telemetry : M unit :=
  try_except
    (logger (Info "Starting telemetry collection...") ;;;
     match fst (get_vehicles net 3) with
     | Some api_response =>
         if response_truthy api_response then
           let vehicles_data := parse_vehicle_data api_response in
           if nonempty vehicles_data then
             logger (Info "Collected vehicles") ;;;
             finally
               (try_except
                  (store_telemetry vehicles_data)
                  (fun e =>
                     logger (Error "Error storing telemetry data" e) ;;;
                     rollback))
               close
           else logger (Warning "No vehicles parsed from API response")
         else logger (Warning "No data received from MBTA API")
     | None => logger (Warning "No data received from MBTA API")
     end)%session
    (fun e => logger (Error "Error during telemetry collection" e)).

End Cycle.

(** One scheduler tick, and a run of ticks, on the stored tables. *)
Record cycle := {
  cy_fault : db_op -> bool;
  cy_net : nat -> http_outcome;
  cy_time : Time.datetime
}.

Definition run_cycle (d : database) (c : cycle) : database :=
  db (snd (collect_telemetry (cy_fault c) (cy_net c) (cy_time c)
             (open_session d []))).

Definition run_cycles (d : database) (cs : list cycle) : database :=
  fold_left run_cycle cs d.

(** The snapshots a cycle parses from its upstream response. *)
Definition parsed (net : nat -> http_outcome) : list vehicle_data :=
  match fst (get_vehicles net 3) with
  | Some api_response =>
      if response_truthy api_response
      then parse_vehicle_data api_response else []
  | None => []
  end.

(** The store after all the staged writes of a cycle. *)
Definition staged_writes (d : database) (collection_time : Time.datetime)
    (vehicles_data : list vehicle_data) : database :=
  let st := stage_all collection_time (vehicles d) vehicles_data in
  {| vehicles := objects st ++ vehicles_to_insert st;
     telemetry_events := telemetry_events d ++ staged_events st;
     route_delays := route_delays d |}.

(** *** Vocabulary of the properties *)

(** The rows of the table that carry vehicle id [k]. *)
Definition rows_of (k : string) (rows : list Vehicle) : list Vehicle :=
  filter (fun v => vehicle_id v = k) rows.

(** The table a staging state stands for. *)
Definition all_rows (st : staging) : list Vehicle :=
  objects st ++ vehicles_to_insert st.

(** What the staging loop has established after the snapshots [vds]
    over the stored rows [rows], at collection time [t]. *)
Record staged_ok (t : Time.datetime) (rows : list Vehicle)
    (vds : list vehicle_data) (st : staging) : Prop := {
  ok_ids : vehicle_ids (objects st) = vehicle_ids rows;
  ok_new : forall v, v ∈ vehicles_to_insert st ->
           vehicle_id v ∈ map vd_vehicle_id vds
           /\ (vehicle_id v ∉ vehicle_ids rows);
  ok_nodup : NoDup (vehicle_ids (vehicles_to_insert st));
  ok_rows : forall s, s ∈ vds ->
            rows_of (vd_vehicle_id s) (all_rows st) = [new_vehicle s t]
}.

End Collector.

(** ** Delay calculator (services/delay_calculator.py) *)

Module DelayCalculator.

Import Database.

(** Scheduled headways in minutes. *)
Definition SCHEDULED_HEADWAYS : gmap string Z :=
  list_to_map
    [("Red"%string, 6); ("Orange"%string, 6); ("Green"%string, 5);
     ("Blue"%string, 7); ("1"%string, 10); ("39"%string, 8)].

(** [SCHEDULED_HEADWAYS.get(route_id, 10)] *)
Definition scheduled_headway_of (route_id : string) : Z :=
  default 10 (SCHEDULED_HEADWAYS !! route_id).

Definition by_vehicle : Type := PyDict.dict string (list TelemetryEvent).
Definition by_hour : Type := PyDict.dict Z by_vehicle.

(** One iteration of the grouping loop. *)
Definition group_event (vehicles_by_hour : by_hour) (event : TelemetryEvent)
    : by_hour :=
  let hour := Time.hour (ev_timestamp event) in
  let vehicle_id := ev_vehicle_id event in
  let d1 :=
    if PyDict.mem hour vehicles_by_hour then vehicles_by_hour
    else PyDict.set hour [] vehicles_by_hour in
  let vehicles := default [] (PyDict.get hour d1) in
  let vehicles1 :=
    if PyDict.mem vehicle_id vehicles then vehicles
    else PyDict.set vehicle_id [] vehicles in
  let vehicle_events := default [] (PyDict.get vehicle_id vehicles1) in
  PyDict.set hour
    (PyDict.set vehicle_id (vehicle_events ++ [event]) vehicles1) d1.

Definition group_events (events : list TelemetryEvent) : by_hour :=
  fold_left group_event events [].

(** [(b.timestamp - a.timestamp).total_seconds() / 60 - scheduled_headway] *)
Definition delay_between (scheduled_headway : Z) (a b : TelemetryEvent) : Q :=
  (Time.total_seconds (ev_timestamp b - ev_timestamp a)%Z / 60
   - inject_Z scheduled_headway)%Q.

(** [for i in range(1, len(vehicle_events))] *)
Fixpoint consecutive_delays (scheduled_headway : Z)
    (vehicle_events : list TelemetryEvent) : list Q :=
  match vehicle_events with
  | a :: (b :: _) as rest =>
      delay_between scheduled_headway a b
      :: consecutive_delays scheduled_headway rest
  | _ => []
  end.

Definition vehicle_delays (scheduled_headway : Z)
    (vehicle_events : list TelemetryEvent) : list Q :=
  if (length vehicle_events <? 2)%nat then []
  else consecutive_delays scheduled_headway vehicle_events.

(** The [delays] list of one hour. *)
Definition hour_delays (scheduled_headway : Z) (vehicles : by_vehicle) : list Q :=
  flat_map (fun kv => vehicle_delays scheduled_headway (snd kv)) vehicles.

(** [sum(delays) / len(delays)] *)
Definition average (delays : list Q) : Q :=
  (py_sum delays / inject_Z (Z.of_nat (length delays)))%Q.

Definition matches (route_id : string) (hour : Z) (r : RouteDelay) : bool :=
  bool_decide (rd_route_id r = route_id) && (rd_hour_of_day r =? hour).

(** Position of the first row satisfying [p]. *)
Fixpoint find_index {A} (p : A -> bool) (l : list A) : option nat :=
  match l with
  | [] => None
  | x :: l' => if p x then Some 0%nat else S <$> find_index p l'
  end.

(** The assignments on an existing [RouteDelay] object. *)
Definition overwrite (avg_delay : Q) (n : nat) (now : Time.datetime)
    (existing : RouteDelay) : RouteDelay :=
  {| rd_route_id := rd_route_id existing;
     rd_route_name := rd_route_name existing;
     rd_hour_of_day := rd_hour_of_day existing;
     rd_avg_delay_minutes := avg_delay;
     rd_sample_count := n;
     rd_calculated_at := now |}.

Definition set_route_delays (rows : list RouteDelay) : M unit :=
  (w <- get ;;
   set_txn {| vehicles := vehicles (txn w);
              telemetry_events := telemetry_events (txn w);
              route_delays := rows |})%session.

(** [datetime.utcnow() - timedelta(hours=hours_back)] *)
Definition cutoff_before (now : Time.datetime) (hours_back : Z)
    : M Time.datetime :=
  match Time.timedelta_hours hours_back ≫= Time.minus now with
  | Some cutoff_time => ret cutoff_time
  | None => raise OverflowError
  end.

Fixpoint for_each {A} (l : list A) (body : A -> M unit) : M unit :=
  match l with
  | [] => ret tt
  | x :: l' => (body x ;;; for_each l' body)%session
  end.

Section Request.

Variable fault : db_op -> bool.
Variable now : Time.datetime.

(** The events of the route since [cutoff_time], by timestamp. *)
Definition select_events (route_id : string) (cutoff_time : Time.datetime)
    (rows : list TelemetryEvent) : list TelemetryEvent :=
  order_by ev_timestamp
    (filter (fun e => ev_route_id e = Some route_id
                      ∧ cutoff_time <= ev_timestamp e) rows).

Definition query_events (route_id : string) (cutoff_time : Time.datetime)
    : M (list TelemetryEvent) :=
  (storage fault QueryEvents ;;;
   w <- get ;;
   ret (select_events route_id cutoff_time (telemetry_events (txn w))))%session.

(** [db.query(RouteDelay).filter(...).first()]: runs on the stored
    rows (nothing is flushed before the commit) and returns the
    session's object for the row found. *)
Definition query_route_delay (route_id : string) (hour : Z)
    : M (option nat) :=
  (storage fault (QueryRouteDelay hour) ;;;
   w <- get ;;
   ret (find_index (matches route_id hour) (route_delays (db w))))%session.

(** The body of [for hour, vehicles in vehicles_by_hour.items()]. *)
Definition update_hour (route_id : string) (route_name : option string)
    (scheduled_headway : Z) (item : Z * by_vehicle) : M unit :=
  let hour := fst item in
  let delays := hour_delays scheduled_headway (snd item) in
  match delays with
  | [] => ret tt
  | _ =>
      let avg_delay := average delays in
      (existing <- query_route_delay route_id hour ;;
       w <- get ;;
       match existing with
       | Some ref =>
           set_route_delays
             (alter (overwrite avg_delay (length delays) now) ref
                (route_delays (txn w)))
       | None =>
           set_route_delays
             (route_delays (txn w) ++
              [{| rd_route_id := route_id;
                  rd_route_name := route_name;
                  rd_hour_of_day := hour;
                  rd_avg_delay_minutes := avg_delay;
                  rd_sample_count := length delays;
                  rd_calculated_at := now |}])
       end)%session
  end.

Definition calculate_route_delays (route_id : string) (hours_back : Z)
    : M unit :=
  try_except
    (cutoff_time <- cutoff_before now hours_back ;;
     events <- query_events route_id cutoff_time ;;
     match events with
     | [] => logger (Info "No events found for route")
     | first :: _ =>
         let route_name := ev_route_id first in
         let scheduled_headway := scheduled_headway_of route_id in
         let vehicles_by_hour := group_events events in
         for_each vehicles_by_hour
           (update_hour route_id route_name scheduled_headway) ;;;
         commit fault ;;;
         logger (Info "Calculated delays for route")
     end)%session
    (fun e =>
       logger (Error "Error calculating delays for route" e) ;;;
       rollback ;;;
       raise e)%session.

End Request.

(** *** The calculation as the specification words it *)

(** The distinct elements of a list, in order of first appearance. *)
Definition first_occurrences {A} `{EqDecision A} (l : list A) : list A :=
  fold_left (fun acc x => if decide (x ∈ acc) then acc else acc ++ [x]) l [].

Definition events_in_hour (hour : Z) (events : list TelemetryEvent)
    : list TelemetryEvent :=
  filter (fun e => Time.hour (ev_timestamp e) = hour) events.

Definition events_of_vehicle (vehicle_id : string)
    (events : list TelemetryEvent) : list TelemetryEvent :=
  filter (fun e => ev_vehicle_id e = vehicle_id) events.

(** One delay per consecutive pair of events of a vehicle: the gap in
    minutes minus the expected headway. *)
Definition vehicle_samples (scheduled_headway : Z)
    (vehicle_events : list TelemetryEvent) : list Q :=
  map (fun p => delay_between scheduled_headway (fst p) (snd p))
    (zip vehicle_events (tail vehicle_events)).

(** The per-gap delays of an hour of day, vehicle by vehicle. *)
Definition hour_samples (scheduled_headway : Z) (hour : Z)
    (events : list TelemetryEvent) : list Q :=
  flat_map
    (fun v => vehicle_samples scheduled_headway
                (events_of_vehicle v (events_in_hour hour events)))
    (first_occurrences (map ev_vehicle_id (events_in_hour hour events))).

(** The groups of a list by a key, in order of first appearance. *)
Definition table {E K : Type} `{EqDecision K} (key : E -> K) (es : list E)
    : PyDict.dict K (list E) :=
  map (fun k => (k, filter (fun e => key e = k) es))
    (first_occurrences (map key es)).

Definition hour_of (e : TelemetryEvent) : Z := Time.hour (ev_timestamp e).

(** The events by hour of day and, within the hour, by vehicle. *)
Definition grouped (events : list TelemetryEvent) : by_hour :=
  map (fun h => (h, table ev_vehicle_id (events_in_hour h events)))
    (first_occurrences (map hour_of events)).

(** The effect of one iteration of the update loop on the session's
    rows, the lookup running on the stored rows. *)
Definition hour_update (route_id : string) (route_name : option string)
    (now : Time.datetime) (scheduled_headway : Z)
    (stored_rows working : list RouteDelay) (item : Z * by_vehicle)
    : list RouteDelay :=
  match hour_delays scheduled_headway (snd item) with
  | [] => working
  | delays =>
      match find_index (matches route_id (fst item)) stored_rows with
      | Some ref =>
          alter (overwrite (average delays) (length delays) now) ref working
      | None =>
          working ++
          [{| rd_route_id := route_id;
              rd_route_name := route_name;
              rd_hour_of_day := fst item;
              rd_avg_delay_minutes := average delays;
              rd_sample_count := length delays;
              rd_calculated_at := now |}]
      end
  end.

(** The session's rows agree with the stored rows on route and hour,
    position by position. *)
Definition agrees (stored_rows working : list RouteDelay) : Prop :=
  forall i x0, stored_rows !! i = Some x0 ->
    exists x, working !! i = Some x
              /\ forall route_id hour,
                   matches route_id hour x = matches route_id hour x0.

(** The row a lookup by route and hour returns. *)
Definition stored (route_id : string) (hour : Z) (rows : list RouteDelay)
    : option RouteDelay :=
  match find_index (matches route_id hour) rows with
  | Some i => rows !! i
  | None => None
  end.

(** The rows of a route and hour. *)
Definition rows_for (route_id : string) (hour : Z) (rows : list RouteDelay)
    : list RouteDelay :=
  filter (fun r => matches route_id hour r = true) rows.

End DelayCalculator.

(** ** Alert detector (services/alert_detector.py) *)

Module AlertDetector.

Import Database.

Definition BUNCHING_THRESHOLD_SECONDS : Q := 180%Q.

(** The dict appended by [detect_bunching]. *)
Record alert := {
  alert_type : string;
  alert_route_id : string;
  vehicle_1 : string;
  vehicle_2 : string;
  time_between_seconds : Q;
  severity : string;
  alert_timestamp : Time.datetime
}.

(** The query of [detect_bunching]: the route's rows updated since
    the cutoff that have a latitude and a longitude, by update time. *)
Definition recent_positioned (now : Time.datetime) (route_id : string)
    (rows : list Vehicle) : list Vehicle :=
  let cutoff := now - Time.minutes 5 in
  order_by last_updated
    (filter (fun v => Database.route_id v = Some route_id
                      ∧ cutoff <= last_updated v
                      ∧ latitude v ≠ None
                      ∧ longitude v ≠ None) rows).

(** [if v1.latitude and v2.latitude and v1.longitude and v2.longitude] *)
Definition positions_truthy (v1 v2 : Vehicle) : bool :=
  opt_float_truthy (latitude v1) && opt_float_truthy (latitude v2)
  && opt_float_truthy (longitude v1) && opt_float_truthy (longitude v2).

Definition time_diff (v1 v2 : Vehicle) : Q :=
  Time.total_seconds (last_updated v2 - last_updated v1).

(** [0 < time_diff < BUNCHING_THRESHOLD_SECONDS] *)
Definition bunched (v1 v2 : Vehicle) : bool :=
  float_lt 0 (time_diff v1 v2)
  && float_lt (time_diff v1 v2) BUNCHING_THRESHOLD_SECONDS.

Definition bunching_alert (now : Time.datetime) (route_id : string)
    (v1 v2 : Vehicle) : alert :=
  {| alert_type := "bunching";
     alert_route_id := route_id;
     vehicle_1 := vehicle_id v1;
     vehicle_2 := vehicle_id v2;
     time_between_seconds := time_diff v1 v2;
     severity := "warning";
     alert_timestamp := now |}.

(** [for i in range(len(vehicles) - 1)] over [vehicles[i]] and
    [vehicles[i + 1]]. *)
Fixpoint scan_pairs (now : Time.datetime) (route_id : string)
    (vehicles : list Vehicle) : list alert :=
  match vehicles with
  | v1 :: (v2 :: _) as rest =>
      (if positions_truthy v1 v2 && bunched v1 v2
       then [bunching_alert now route_id v1 v2] else [])
      ++ scan_pairs now route_id rest
  | _ => []
  end.

Definition detect_bunching (now : Time.datetime) (route_id : string)
    (rows : list Vehicle) : list alert :=
  scan_pairs now route_id (recent_positioned now route_id rows).

(** *** The detector as the specification words it *)

(** The adjacent pairs of a list, in order. *)
Definition adjacent_pairs {A} (l : list A) : list (A * A) := zip l (tail l).

(** The gap between the updates of a pair is strictly between 0 and
    180 seconds (in microseconds, as the timestamps are). *)
Definition in_bunching_range (p : Vehicle * Vehicle) : bool :=
  let gap := last_updated (snd p) - last_updated (fst p) in
  (0 <? gap) && (gap <? Time.seconds 180).

(** One alert per adjacent pair in range. *)
Definition alerts_of_pairs (now : Time.datetime) (route_id : string)
    (vehicles : list Vehicle) : list alert :=
  map (fun p => bunching_alert now route_id (fst p) (snd p))
    (filter (fun p => in_bunching_range p = true) (adjacent_pairs vehicles)).

(** The route's rows updated in the trailing 5 minutes, by update time. *)
Definition recent (now : Time.datetime) (route_id : string)
    (rows : list Vehicle) : list Vehicle :=
  let cutoff := now - Time.minutes 5 in
  order_by last_updated
    (filter (fun v => Database.route_id v = Some route_id
                      ∧ cutoff <= last_updated v) rows).

(** The detector of the specification: over every recently updated
    vehicle of the route. *)
Definition specified_bunching (now : Time.datetime) (route_id : string)
    (rows : list Vehicle) : list alert :=
  alerts_of_pairs now route_id (recent now route_id rows).

(** No recorded coordinate of the table is [0.0]. *)
Definition coordinates_nonzero (rows : list Vehicle) : Prop :=
  forall v q, v ∈ rows ->
    latitude v = Some q \/ longitude v = Some q -> float_truthy q = true.

(** A row the query of the detector selects, with truthy coordinates. *)
Definition eligible (now : Time.datetime) (route_id : string) (v : Vehicle)
    : Prop :=
  Database.route_id v = Some route_id
  /\ now - Time.minutes 5 <= last_updated v
  /\ opt_float_truthy (latitude v) = true
  /\ opt_float_truthy (longitude v) = true.

End AlertDetector.

(** ** Headway analyzer (get_headway_analysis in main.py) *)

Module HeadwayAnalyzer.

Import Database.

(** The loop variables.  A route id is nullable, and [current_route]
    starts as [None], so both are [option string]. *)
Record walk := {
  headways_by_route : PyDict.dict (option string) (list Q);
  current_route : option string;
  current_vehicle : option string;
  last_timestamp : option Time.datetime
}.

Definition walk_init : walk :=
  {| headways_by_route := []; current_route := None;
     current_vehicle := None; last_timestamp := None |}.

(** One iteration of [for event in events]; [None] is the [KeyError]
    of appending under a key that was never entered. *)
Definition step (w : walk) (event : TelemetryEvent) : option walk :=
  let w1 :=
    if bool_decide (ev_route_id event ≠ current_route w) then
      {| headways_by_route :=
           if PyDict.mem (ev_route_id event) (headways_by_route w)
           then headways_by_route w
           else PyDict.set (ev_route_id event) [] (headways_by_route w);
         current_route := ev_route_id event;
         current_vehicle := None;
         last_timestamp := None |}
    else w in
  if bool_decide (Some (ev_vehicle_id event) ≠ current_vehicle w1) then
    Some {| headways_by_route := headways_by_route w1;
            current_route := current_route w1;
            current_vehicle := Some (ev_vehicle_id event);
            last_timestamp := Some (ev_timestamp event) |}
  else
    match last_timestamp w1 with
    | Some last =>
        let headway_seconds := Time.total_seconds (ev_timestamp event - last) in
        match PyDict.get (current_route w1) (headways_by_route w1) with
        | Some headways =>
            Some {| headways_by_route :=
                      PyDict.set (current_route w1)
                        (headways ++ [(headway_seconds / 60)%Q])
                        (headways_by_route w1);
                    current_route := current_route w1;
                    current_vehicle := current_vehicle w1;
                    last_timestamp := Some (ev_timestamp event) |}
        | None => None
        end
    | None => Some w1
    end.

Fixpoint walk_events (w : walk) (events : list TelemetryEvent) : option walk :=
  match events with
  | [] => Some w
  | event :: rest =>
      match step w event with
      | Some w' => walk_events w' rest
      | None => None
      end
  end.

(** [ORDER BY route_id, timestamp]: NULL route ids first. *)
Definition route_le (a b : option string) : bool :=
  match a, b with
  | None, _ => true
  | Some _, None => false
  | Some x, Some y => bool_decide (String.leb x y = true)
  end.

Fixpoint insert_event (x : TelemetryEvent) (l : list TelemetryEvent)
    : list TelemetryEvent :=
  match l with
  | [] => [x]
  | y :: l' =>
      if bool_decide (ev_route_id x = ev_route_id y)
      then if ev_timestamp x <? ev_timestamp y then x :: l
           else y :: insert_event x l'
      else if route_le (ev_route_id x) (ev_route_id y) then x :: l
           else y :: insert_event x l'
  end.

(** The query: the optional route filter, the trailing hour. *)
Definition select_events (now : Time.datetime) (route_id : option string)
    (rows : list TelemetryEvent) : list TelemetryEvent :=
  let filtered :=
    match route_id with
    | Some r =>
        if str_truthy r
        then filter (fun e => ev_route_id e = Some r) rows
        else rows
    | None => rows
    end in
  let cutoff := now - Time.hours 1 in
  fold_left (fun acc e => insert_event e acc)
    (filter (fun e => cutoff <= ev_timestamp e) filtered) [].

(** The statistics of one route. *)
Record route_stats := {
  count : nat;
  avg_minutes : Q;
  min_minutes : Q;
  max_minutes : Q;
  headways : list Q
}.

Definition stats_of (hs : list Q) : option route_stats :=
  match hs with
  | [] => None
  | h :: rest =>
      Some {| count := length hs;
              avg_minutes := (py_sum hs / inject_Z (Z.of_nat (length hs)))%Q;
              min_minutes := py_min h rest;
              max_minutes := py_max h rest;
              headways := take 100 hs |}
  end.

(** The headways emitted per route by the walk over an event stream. *)
Definition emitted_headways (events : list TelemetryEvent)
    : option (PyDict.dict (option string) (list Q)) :=
  headways_by_route <$> walk_events walk_init events.

(** The [analysis] member of the response; [None] when the walk
    raises. *)
Definition get_headway_analysis (now : Time.datetime)
    (route_id : option string) (rows : list TelemetryEvent)
    : option (PyDict.dict (option string) route_stats) :=
  match emitted_headways (select_events now route_id rows) with
  | Some by_route =>
      Some (omap (fun kv => pair (fst kv) <$> stats_of (snd kv)) by_route)
  | None => None
  end.

(** *** The analyzer as the specification words it

    Per route, a last-seen timestamp per vehicle: the first event of a
    vehicle in the route seeds it, every later event of that vehicle
    emits the gap from its previous event, in minutes. *)
Fixpoint per_vehicle_headways (last_seen : gmap string Time.datetime)
    (events : list TelemetryEvent) : list Q :=
  match events with
  | [] => []
  | event :: rest =>
      let seen := <[ev_vehicle_id event := ev_timestamp event]> last_seen in
      match last_seen !! ev_vehicle_id event with
      | Some last =>
          (Time.total_seconds (ev_timestamp event - last)%Z / 60)%Q
          :: per_vehicle_headways seen rest
      | None => per_vehicle_headways seen rest
      end
  end.

End HeadwayAnalyzer.


(** ** The other detectors (services/alert_detector.py) *)

Module Anomalies.

Import Database AlertDetector.

Definition SPEED_ANOMALY_THRESHOLD : Q := 60%Q.

(** The dict appended by [detect_speed_anomalies]. *)
Record speed_alert := {
  sa_type : string;
  sa_route_id : string;
  sa_vehicle_id : string;
  sa_speed : Q;
  sa_severity : string;
  sa_timestamp : Time.datetime
}.

(** The dict appended by [detect_stalled_vehicles]. *)
Record stalled_alert := {
  sl_type : string;
  sl_route_id : option string;
  sl_vehicle_id : string;
  sl_last_update : Time.datetime;
  sl_severity : string;
  sl_timestamp : Time.datetime
}.

(** An element of the list [get_all_alerts] returns. *)
Inductive any_alert :=
| Bunching (a : alert)
| SpeedAnomaly (a : speed_alert)
| Stalled (a : stalled_alert).

(** The query of [detect_speed_anomalies], in table order. *)
Definition recent_with_speed (now : Time.datetime) (route_id : string)
    (rows : list Vehicle) : list Vehicle :=
  let cutoff := now - Time.minutes 5 in
  filter (fun v => Database.route_id v = Some route_id
                   ∧ cutoff <= last_updated v
                   ∧ speed v ≠ None) rows.

(** The body of the loop of [detect_speed_anomalies]. *)
Definition speed_alerts_of (now : Time.datetime) (route_id : string)
    (vehicle : Vehicle) : list speed_alert :=
  match speed vehicle with
  | Some s =>
      if float_lt SPEED_ANOMALY_THRESHOLD s then
        [{| sa_type := "speed_anomaly";
            sa_route_id := route_id;
            sa_vehicle_id := vehicle_id vehicle;
            sa_speed := s;
            sa_severity := "warning";
            sa_timestamp := now |}]
      else []
  | None => []
  end.

Definition detect_speed_anomalies (now : Time.datetime) (route_id : string)
    (rows : list Vehicle) : list speed_alert :=
  flat_map (speed_alerts_of now route_id) (recent_with_speed now route_id rows).

(** The query of [detect_stalled_vehicles]. *)
Definition stalled_rows (now : Time.datetime) (rows : list Vehicle)
    : list Vehicle :=
  let cutoff := now - Time.minutes 10 in
  filter (fun v => last_updated v < cutoff
                   ∧ current_status v = Some "IN_TRANSIT_TO"%string) rows.

Definition stalled_alert_of (now : Time.datetime) (vehicle : Vehicle)
    : stalled_alert :=
  {| sl_type := "stalled";
     sl_route_id := Database.route_id vehicle;
     sl_vehicle_id := vehicle_id vehicle;
     sl_last_update := last_updated vehicle;
     sl_severity := "info";
     sl_timestamp := now |}.

Definition detect_stalled_vehicles (now : Time.datetime) (rows : list Vehicle)
    : list stalled_alert :=
  map (stalled_alert_of now) (stalled_rows now rows).

(** Truth value of an optional string ([None] and [""] are false). *)
Definition opt_str_truthy (s : option string) : bool :=
  match s with
  | Some x => str_truthy x
  | None => false
  end.

(** [SELECT DISTINCT route_id], in order of first appearance in the
    table, NULL being one of the values. *)
Fixpoint distinct {A} `{EqDecision A} (seen l : list A) : list A :=
  match l with
  | [] => []
  | x :: l' =>
      if decide (x ∈ seen) then distinct seen l'
      else x :: distinct (x :: seen) l'
  end.

(** [[r[0] for r in ... .distinct().all() if r[0]]] *)
Definition active_routes (rows : list Vehicle) : list string :=
  omap (fun r => if opt_str_truthy r then r else None)
    (distinct [] (map Database.route_id rows)).

(** The alerts of one route: bunching, then speed anomalies. *)
Definition route_alerts (now : Time.datetime) (rows : list Vehicle)
    (route : string) : list any_alert :=
  map Bunching (detect_bunching now route rows)
  ++ map SpeedAnomaly (detect_speed_anomalies now route rows).

Definition get_all_alerts (now : Time.datetime) (route_id : option string)
    (rows : list Vehicle) : list any_alert :=
  let routes :=
    match route_id with
    | Some r => if str_truthy r then [r] else active_routes rows
    | None => active_routes rows
    end in
  flat_map (route_alerts now rows) routes
  ++ map Stalled (detect_stalled_vehicles now rows).

(** The vehicle ids an alert names. *)
Definition alert_vehicles (a : any_alert) : list string :=
  match a with
  | Bunching b => [vehicle_1 b; vehicle_2 b]
  | SpeedAnomaly s => [sa_vehicle_id s]
  | Stalled s => [sl_vehicle_id s]
  end.

Definition severity_of (a : any_alert) : string :=
  match a with
  | Bunching b => severity b
  | SpeedAnomaly s => sa_severity s
  | Stalled s => sl_severity s
  end.

Definition timestamp_of (a : any_alert) : Time.datetime :=
  match a with
  | Bunching b => alert_timestamp b
  | SpeedAnomaly s => sa_timestamp s
  | Stalled s => sl_timestamp s
  end.

End Anomalies.

(** ** Delay history (services/delay_calculator.py) *)

Module DelayHistory.

Import Database DelayCalculator.

(** The dict returned per row. *)
Record delay_record := {
  hour_of_day : Z;
  avg_delay_minutes : Q;
  sample_count : nat;
  calculated_at : Time.datetime
}.

Definition record_of (d : RouteDelay) : delay_record :=
  {| hour_of_day := rd_hour_of_day d;
     avg_delay_minutes := rd_avg_delay_minutes d;
     sample_count := rd_sample_count d;
     calculated_at := rd_calculated_at d |}.

(** The query of [get_delay_history]. *)
Definition history_rows (now : Time.datetime) (route_id : string)
    (hours_back : Z) (rows : list RouteDelay) : list RouteDelay :=
  let cutoff_time := now - Time.hours hours_back in
  order_by rd_hour_of_day
    (filter (fun d => rd_route_id d = route_id
                      ∧ cutoff_time <= rd_calculated_at d) rows).

(** What [get_delay_history] returns over the rows it reads. *)
Definition get_delay_history (now : Time.datetime) (route_id : string)
    (hours_back : Z) (rows : list RouteDelay) : list delay_record :=
  map record_of (history_rows now route_id hours_back rows).


End DelayHistory.

(** ** The read API (main.py) *)

Module Api.

Import Database MBTAClient DelayCalculator.

(** *** GET /vehicles *)

(** [ORDER BY key DESC]: rows with equal keys stay in rowid order. *)
Fixpoint insert_by_desc {A} (key : A -> Z) (x : A) (l : list A) : list A :=
  match l with
  | [] => [x]
  | y :: l' => if key y <? key x then x :: l else y :: insert_by_desc key x l'
  end.

Definition order_by_desc {A} (key : A -> Z) (l : list A) : list A :=
  fold_left (fun acc x => insert_by_desc key x acc) l [].

(** The rows served; each is returned with all its columns. *)
Definition get_vehicles (now : Time.datetime) (route_id : option string)
    (rows : list Vehicle) : list Vehicle :=
  let filtered :=
    match route_id with
    | Some r =>
        if str_truthy r
        then filter (fun v => Database.route_id v = Some r) rows
        else rows
    | None => rows
    end in
  let cutoff := now - Time.minutes 2 in
  order_by_desc last_updated
    (filter (fun v => cutoff <= last_updated v) filtered).

(** *** GET /health *)

(** The storage operations of the health check. *)
Inductive health_op := Ping | LastVehicle | CountVehicles | FirstEvent.

(** What the handler returns: the members of the body and, in
    [http_status], the code it returns beside the body (503), 200
    standing for a body returned alone. *)
Record health := {
  status : string;
  http_status : Z;
  database_state : string;
  last_collection : option Time.datetime;
  uptime_seconds : Z;
  vehicles_tracked : nat
}.

(** [db.query(Vehicle).order_by(Vehicle.last_updated.desc()).first()] *)
Definition last_vehicle (rows : list Vehicle) : option Vehicle :=
  head (order_by_desc last_updated rows).

(** [db.query(func.min(TelemetryEvent.timestamp)).scalar()] *)
Definition first_collection (events : list TelemetryEvent)
    : option Time.datetime :=
  match events with
  | [] => None
  | e :: rest =>
      Some (fold_left (fun m x => Z.min m (ev_timestamp x)) rest (ev_timestamp e))
  end.

Definition disconnected : health :=
  {| status := "unhealthy"; http_status := 503;
     database_state := "disconnected"; last_collection := None;
     uptime_seconds := 0; vehicles_tracked := 0 |}.

Definition health_check (fault : health_op -> bool) (now : Time.datetime)
    (d : database) : health :=
  if fault Ping then disconnected
  else if fault LastVehicle then disconnected
  else
    let last := last_updated <$> last_vehicle (vehicles d) in
    let is_recent :=
      match last with
      | Some t => now - t <? Time.minutes 2
      | None => false
      end in
    if fault CountVehicles then disconnected
    else
      let vehicle_count := length (vehicles d) in
      let first :=
        match last with
        | Some _ => first_collection (telemetry_events d)
        | None => None
        end in
      if match last with Some _ => fault FirstEvent | None => false end
      then disconnected
      else
        let uptime :=
          match first with
          | Some t0 => Z.quot (now - t0) 1000000
          | None => 0
          end in
        match last with
        | Some t =>
            if is_recent then
              {| status := "healthy"; http_status := 200;
                 database_state := "connected"; last_collection := Some t;
                 uptime_seconds := uptime; vehicles_tracked := vehicle_count |}
            else
              {| status := "unhealthy"; http_status := 503;
                 database_state := "connected"; last_collection := Some t;
                 uptime_seconds := uptime; vehicles_tracked := vehicle_count |}
        | None =>
            {| status := "healthy"; http_status := 200;
               database_state := "connected"; last_collection := None;
               uptime_seconds := uptime; vehicles_tracked := vehicle_count |}
        end.

(** *** GET /routes/{route_id}/delays *)



(** *** GET /alerts *)

(** [severity_order.get(severity, 2)] *)
Definition severity_rank (severity : string) : Z :=
  if bool_decide (severity = "warning"%string) then 1
  else if bool_decide (severity = "info"%string) then 2
  else if bool_decide (severity = "error"%string) then 0
  else 2.

(** The sort key: severity rank, then timestamp. *)
Definition sort_key (a : Anomalies.any_alert) : Z * Z :=
  (severity_rank (Anomalies.severity_of a), Anomalies.timestamp_of a).

Definition key_lt (k1 k2 : Z * Z) : bool :=
  (fst k1 <? fst k2) || ((fst k1 =? fst k2) && (snd k1 <? snd k2)).

(** [list.sort(key=...)]: stable. *)
Fixpoint insert_sorted {A} (key : A -> Z * Z) (x : A) (l : list A) : list A :=
  match l with
  | [] => [x]
  | y :: l' =>
      if key_lt (key x) (key y) then x :: l else y :: insert_sorted key x l'
  end.

Definition sort_by {A} (key : A -> Z * Z) (l : list A) : list A :=
  fold_left (fun acc x => insert_sorted key x acc) l [].

Record alerts_response := {
  alerts_count : nat;
  alerts : list Anomalies.any_alert;
  alerts_timestamp : Time.datetime
}.

Definition get_alerts (now : Time.datetime) (route_id : option string)
    (rows : list Vehicle) : alerts_response :=
  let alerts := sort_by sort_key (Anomalies.get_all_alerts now route_id rows) in
  {| alerts_count := length alerts; alerts := alerts;
     alerts_timestamp := now |}.

End Api.

(** ** Sample inputs *)

Module Samples.

Import MBTAClient Database Collector.

(** A vehicle resource on the Red line at a position. *)
Definition red_vehicle (id : string) (lat lon : Q) : vehicle_item :=
  {| item_id := id;
     item_attributes :=
       Some {| attr_latitude := Some lat; attr_longitude := Some lon;
               attr_bearing := Some 90; attr_speed := None;
               attr_current_status := Some "IN_TRANSIT_TO"%string;
               attr_updated_at := None |};
     item_relationships :=
       Some {| rel_route :=
                 Some {| rel_data := Some {| ref_id := Some "Red"%string |} |} |} |}.

Definition response_of (items : list vehicle_item) : api_response :=
  {| resp_data := Some items; resp_included := None;
     resp_other_members := ["jsonapi"%string] |}.

(** Upstream answers 200 with the given vehicles at every attempt. *)
Definition upstream (items : list vehicle_item) : nat -> http_outcome :=
  fun _ => Response 200 (Some (response_of items)).

Definition no_fault : db_op -> bool := fun _ => false.

Definition commit_fails : db_op -> bool :=
  fun op => match op with Commit => true | _ => false end.

Definition y1 : vehicle_item := red_vehicle "y1" (Qmake 423 10) (Qmake (-711) 10).

Definition y1_snapshot : vehicle_data := parse_vehicle ∅ y1.

Definition cycle_at (fault : db_op -> bool) (items : list vehicle_item)
    (t : Time.datetime) : cycle :=
  {| cy_fault := fault; cy_net := upstream items; cy_time := t |}.

(** Rows of the [vehicles] table on the Red line. *)
Definition red_row (id : string) (position : option Q)
    (updated : Time.datetime) : Vehicle :=
  {| vehicle_id := id; route_id := Some "Red"%string;
     route_name := Some "Red Line"%string;
     latitude := position; longitude := position;
     bearing := None; speed := None;
     current_status := Some "STOPPED_AT"%string;
     last_updated := updated |}.

(** Two vehicles updated 60 seconds apart, 100 and 40 seconds before
    [now = 1100 s]; the second has no recorded position. *)
Definition unpositioned_pair : list Vehicle :=
  [red_row "a" (Some (Qmake 42 1)) (Time.seconds 1000);
   red_row "b" None (Time.seconds 1060)].

(** The same pair, both with a position. *)
Definition positioned_pair : list Vehicle :=
  [red_row "a" (Some (Qmake 42 1)) (Time.seconds 1000);
   red_row "b" (Some (Qmake 42 1)) (Time.seconds 1060)].

(** And a third vehicle, updated later, without a position. *)
Definition three_rows : list Vehicle :=
  positioned_pair ++ [red_row "c" None (Time.seconds 1090)].

(** An event row on the Red line. *)
Definition red_event (id : string) (t : Time.datetime) : TelemetryEvent :=
  {| ev_vehicle_id := id; ev_route_id := Some "Red"%string;
     ev_latitude := None; ev_longitude := None; ev_speed := None;
     ev_current_status := None; ev_timestamp := t |}.

(** One vehicle seen at minutes 0, 3, 3.5 and 20. *)
Definition one_vehicle_events : list TelemetryEvent :=
  [red_event "a" (Time.minutes 0); red_event "a" (Time.minutes 3);
   red_event "a" (Time.seconds 210); red_event "a" (Time.minutes 20)].

(** Two vehicles of one route seen in turn: a at minute 0, b at minute
    1, a again at minute 3. *)
Definition interleaved_events : list TelemetryEvent :=
  [red_event "a" (Time.minutes 0); red_event "b" (Time.minutes 1);
   red_event "a" (Time.minutes 3)].

(** A store whose history has one Red line vehicle seen twice in the
    first hour of the day, 9 minutes apart. *)
Definition nine_minutes_apart : database :=
  {| vehicles := [];
     telemetry_events :=
       [red_event "a" (Time.minutes 0); red_event "a" (Time.minutes 9)];
     route_delays := [] |}.

End Samples.


(** ** Vocabulary of the properties *)

Module Ordering.

(** No element is followed by one with a smaller key. *)
Fixpoint ascending {A} (key : A -> Z) (l : list A) : Prop :=
  match l with
  | [] => True
  | x :: l' => Forall (fun y => key x <= key y) l' /\ ascending key l'
  end.

(** No element is followed by one with a larger key. *)
Fixpoint descending {A} (key : A -> Z) (l : list A) : Prop :=
  match l with
  | [] => True
  | x :: l' => Forall (fun y => key y <= key x) l' /\ descending key l'
  end.

(** [selected] is [rows] by increasing key, rows with the same key in
    the order they have in [rows]. *)
Definition in_key_order {A} (key : A -> Z) (selected rows : list A) : Prop :=
  ascending key selected
  /\ forall k, filter (fun x => key x = k) selected
               = filter (fun x => key x = k) rows.

End Ordering.

Module AnomalyVocabulary.

Import Database Anomalies.

(** A row whose recorded speed is above the threshold. *)
Definition speeding (v : Vehicle) : bool :=
  match speed v with
  | Some s => float_lt SPEED_ANOMALY_THRESHOLD s
  | None => false
  end.

(** A Red line vehicle in transit, last updated at [updated]. *)
Definition in_transit (id : string) (updated : Time.datetime) : Vehicle :=
  {| vehicle_id := id; route_id := Some "Red"%string;
     route_name := Some "Red Line"%string;
     latitude := Some (Qmake 42 1); longitude := Some (Qmake (-71) 1);
     bearing := None; speed := Some (Qmake 65 1);
     current_status := Some "IN_TRANSIT_TO"%string;
     last_updated := updated |}.

End AnomalyVocabulary.

Module ApiVocabulary.

Import Api.

(** No element is followed by one with a smaller key. *)
Fixpoint sorted_by {A} (key : A -> Z * Z) (l : list A) : Prop :=
  match l with
  | [] => True
  | x :: l' =>
      Forall (fun y => key_lt (key y) (key x) = false) l' /\ sorted_by key l'
  end.

End ApiVocabulary.

Module DelayVocabulary.

Import Database DelayCalculator.

(** No two rows share route and hour of day. *)
Definition keys_unique (rows : list RouteDelay) : Prop :=
  forall route_id hour, (length (rows_for route_id hour rows) <= 1)%nat.

(** The rows of a route. *)
Definition rows_of_route (route_id : string) (rows : list RouteDelay)
    : list RouteDelay :=
  filter (fun x => rd_route_id x = route_id) rows.

(** A store with one Red row for hour 0 and one Blue row. *)
Definition with_delay_rows : database :=
  {| vehicles := [];
     telemetry_events :=
       [Samples.red_event "a" (Time.minutes 0);
        Samples.red_event "a" (Time.minutes 9)];
     route_delays :=
       [{| rd_route_id := "Blue"; rd_route_name := Some "Blue"%string;
           rd_hour_of_day := 0; rd_avg_delay_minutes := 1;
           rd_sample_count := 4; rd_calculated_at := 0 |};
        {| rd_route_id := "Red"; rd_route_name := Some "Red"%string;
           rd_hour_of_day := 0; rd_avg_delay_minutes := 0;
           rd_sample_count := 2; rd_calculated_at := 0 |}] |}.

End DelayVocabulary.

Module HeadwayVocabulary.

Import Database.

(** The gap between two events, in minutes. *)
Definition gap_minutes (a b : TelemetryEvent) : Q :=
  (Time.total_seconds (ev_timestamp b - ev_timestamp a)%Z / 60)%Q.

(** The gaps between neighbours of the stream that are events of one
    vehicle on the route. *)
Fixpoint adjacent_gaps (r : option string) (events : list TelemetryEvent)
    : list Q :=
  match events with
  | a :: (b :: _) as rest =>
      if bool_decide (ev_route_id a = r /\ ev_route_id b = r
                      /\ ev_vehicle_id a = ev_vehicle_id b)
      then gap_minutes a b :: adjacent_gaps r rest
      else adjacent_gaps r rest
  | _ => []
  end.

(** An event of a vehicle that has no route. *)
Definition unrouted_event (id : string) (t : Time.datetime) : TelemetryEvent :=
  {| ev_vehicle_id := id; ev_route_id := None;
     ev_latitude := None; ev_longitude := None; ev_speed := None;
     ev_current_status := None; ev_timestamp := t |}.

End HeadwayVocabulary.


(** * Properties *)

(** ** Upstream client: retry and backoff *)

Module ClientProps.

Import MBTAClient.

(** A 429 always sleeps [5 * 2^attempt] and goes on to the next
    attempt, whatever the number of retries left. *)
Lemma rate_limited_attempt (json : option api_response) (attempt retries : nat) :
  one_attempt (Response 429 json) attempt retries
  = SleepContinue (2 ^ Z.of_nat attempt * 5).
Proof. reflexivity. Qed.

(** The loop consumes one slot per attempt that sleeps. *)
Lemma attempts_loop_continue net retries attempt rest w :
  one_attempt (net attempt) attempt retries = SleepContinue w ->
  attempts_loop net retries (attempt :: rest)
  = (fst (attempts_loop net retries rest),
     Request attempt :: Sleep w :: snd (attempts_loop net retries rest)).
Proof.
  intros H. cbn [attempts_loop]. rewrite H.
  destruct (attempts_loop net retries rest); reflexivity.
Qed.

(** Under rate limiting throughout, every slot of the loop is used and
    the result is the failure value. *)
Lemma rate_limited_loop net retries (attempts : list nat) :
  (forall a, a ∈ attempts -> exists json, net a = Response 429 json) ->
  attempts_loop net retries attempts
  = (None,
     flat_map (fun a => [Request a; Sleep (2 ^ Z.of_nat a * 5)]) attempts).
Proof.
  induction attempts as [|a rest IH]; intros Hnet; [reflexivity|].
  destruct (Hnet a) as [json Ha]; [left|].
  rewrite (attempts_loop_continue _ _ _ _ (2 ^ Z.of_nat a * 5)).
  - rewrite IH; [reflexivity|]. intros b Hb. apply Hnet. by right.
  - rewrite Ha. apply rate_limited_attempt.
Qed.

(** C5: three consecutive HTTP 429 responses make [get_vehicles] (with
    its default of 3 retries) issue exactly three requests, sleep 5, 10
    and 20 seconds after them, and return the failure value [None]; the
    call returns, nothing is raised. *)
Theorem three_rate_limits_exhaust_retries (net : nat -> http_outcome) :
  (forall a, (a < 3)%nat -> exists json, net a = Response 429 json) ->
  get_vehicles net 3
  = (None, [Request 0; Sleep 5; Request 1; Sleep 10; Request 2; Sleep 20])
  /\ requests (snd (get_vehicles net 3)) = [0; 1; 2]%nat
  /\ sleeps (snd (get_vehicles net 3)) = [5; 10; 20].
Proof.
  intros Hnet.
  assert (E : get_vehicles net 3
              = (None, [Request 0; Sleep 5; Request 1; Sleep 10;
                        Request 2; Sleep 20])).
  { unfold get_vehicles. rewrite rate_limited_loop; [reflexivity|].
    intros a Ha. apply Hnet. cbn in Ha.
    repeat (apply elem_of_cons in Ha as [->|Ha]; [lia|]).
    by apply elem_of_nil in Ha. }
  rewrite E. repeat split; reflexivity.
Qed.

Lemma three_rate_limits_exhaust_retries_witness :
  get_vehicles (fun _ => Response 429 None) 3
  = (None, [Request 0; Sleep 5; Request 1; Sleep 10; Request 2; Sleep 20])
  /\ requests (snd (get_vehicles (fun _ => Response 429 None) 3)) = [0; 1; 2]%nat
  /\ sleeps (snd (get_vehicles (fun _ => Response 429 None) 3)) = [5; 10; 20].
Proof.
  apply (three_rate_limits_exhaust_retries (fun _ => Response 429 None)).
  intros a _. exists None. reflexivity.
Defined.

(** The waits of the claim are [5 * 2^attempt] for any number of
    retries. *)
Lemma rate_limited_waits net retries :
  (forall a, (a < retries)%nat -> exists json, net a = Response 429 json) ->
  fst (get_vehicles net retries) = None
  /\ sleeps (snd (get_vehicles net retries))
     = map (fun a => 5 * 2 ^ Z.of_nat a) (seq 0 retries).
Proof.
  intros Hnet. unfold get_vehicles. rewrite rate_limited_loop.
  - split; [reflexivity|]. cbn [snd].
    induction (seq 0 retries) as [|a l IH]; [reflexivity|].
    cbn. unfold sleeps in IH. rewrite IH. f_equal. lia.
  - intros a Ha. apply Hnet. apply elem_of_seq in Ha. lia.
Qed.

(** C6 as stated fails for a timeout: the first attempt of three times
    out and the client sleeps 2 seconds, not [2^0 = 1]. *)
Lemma timeout_wait_is_not_power_of_two :
  one_attempt Timeout 0 3 = SleepContinue 2
  /\ one_attempt Timeout 0 3 <> SleepContinue (2 ^ Z.of_nat 0)
  /\ sleeps (snd (get_vehicles (fun _ => Timeout) 3)) = [2; 4].
Proof. repeat split; try reflexivity. discriminate. Qed.

(** C6, amended: while retries remain ([attempt < retries - 1]) a
    timeout makes the client sleep [2 * 2^attempt] seconds before the
    next attempt, and any other non-HTTP error (a transport failure or
    a body that does not decode) makes it sleep [2^attempt] seconds. *)
Theorem transient_error_waits (net : nat -> http_outcome)
    (attempt retries : nat) (rest : list nat) :
  (Z.of_nat attempt < Z.of_nat retries - 1) ->
  (net attempt = Timeout ->
   attempts_loop net retries (attempt :: rest)
   = (fst (attempts_loop net retries rest),
      Request attempt :: Sleep (2 ^ Z.of_nat attempt * 2)
        :: snd (attempts_loop net retries rest)))
  /\ ((net attempt = Failure
       \/ exists status_code, is_success status_code = true
                              /\ net attempt = Response status_code None) ->
      attempts_loop net retries (attempt :: rest)
      = (fst (attempts_loop net retries rest),
         Request attempt :: Sleep (2 ^ Z.of_nat attempt)
           :: snd (attempts_loop net retries rest))).
Proof.
  intros Hlt. apply Z.ltb_lt in Hlt. split.
  - intros H. apply attempts_loop_continue. rewrite H.
    unfold one_attempt, attempt_try, attempt_except. by rewrite Hlt.
  - intros H. apply attempts_loop_continue.
    destruct H as [H | (s & Hs & H)]; rewrite H;
      unfold one_attempt, attempt_try, attempt_except.
    + by rewrite Hlt.
    + destruct (s =? 429) eqn:E.
      * apply Z.eqb_eq in E. subst s. discriminate Hs.
      * rewrite Hs. by rewrite Hlt.
Qed.

Lemma transient_error_waits_witness :
  attempts_loop (fun _ => Timeout) 3 [1; 2]%nat
  = (None, [Request 1; Sleep 4; Request 2]).
Proof.
  destruct (transient_error_waits (fun _ => Timeout) 1 3 [2%nat]) as [H _];
    [lia|].
  rewrite (H eq_refl). reflexivity.
Defined.

End ClientProps.

(** ** Collector: upsert, atomicity, event counts *)

Module CollectorProps.

Import Database MBTAClient Collector.

(** *** The unique constraint at INSERT *)

Lemma insert_vehicles_app rows new rows' :
  insert_vehicles rows new = Some rows' -> rows' = rows ++ new.
Proof.
  revert rows. induction new as [|v new IH]; intros rows H; cbn in H.
  - rewrite app_nil_r. congruence.
  - case_bool_decide; [discriminate|].
    apply IH in H. rewrite H, <- app_assoc. reflexivity.
Qed.

Lemma insert_vehicles_unique rows new rows' :
  insert_vehicles rows new = Some rows' ->
  unique_vehicle_ids rows -> unique_vehicle_ids rows'.
Proof.
  revert rows. induction new as [|v new IH]; intros rows H U; cbn in H.
  - congruence.
  - case_bool_decide as Hin; [discriminate|].
    apply IH in H; [exact H|].
    unfold unique_vehicle_ids, vehicle_ids in *.
    rewrite map_app. cbn. apply NoDup_app. repeat split; [exact U| |].
    + intros x Hx Hx'. apply list_elem_of_singleton in Hx'. by subst.
    + apply NoDup_singleton.
Qed.

Lemma insert_vehicles_fresh rows new :
  unique_vehicle_ids (rows ++ new) ->
  insert_vehicles rows new = Some (rows ++ new).
Proof.
  revert rows. induction new as [|v new IH]; intros rows U; cbn.
  - by rewrite app_nil_r.
  - case_bool_decide as Hin.
    + exfalso. unfold unique_vehicle_ids, vehicle_ids in U.
      rewrite map_app in U. apply NoDup_app in U as (_ & U & _).
      apply (U _ Hin). cbn. left.
    + replace (rows ++ v :: new) with ((rows ++ [v]) ++ new) in *
        by (by rewrite <- app_assoc).
      by apply IH.
Qed.

(** *** The staging loop *)

Lemma vehicle_ids_alter vd t j rows :
  vehicle_ids (alter (update_existing vd t) j rows) = vehicle_ids rows.
Proof.
  revert j. induction rows as [|v rows IH]; intros [|j]; cbn; try reflexivity.
  f_equal. apply IH.
Qed.

Section Staging.

Variable t : Time.datetime.
Variable idx : gmap string nat.

Lemma stage_ids st vd :
  vehicle_ids (objects (stage t idx st vd)) = vehicle_ids (objects st).
Proof.
  unfold stage. destruct (idx !! vd_vehicle_id vd); cbn; [|reflexivity].
  apply vehicle_ids_alter.
Qed.


Lemma fold_stage_ids vds st :
  vehicle_ids (objects (fold_left (stage t idx) vds st))
  = vehicle_ids (objects st).
Proof.
  revert st. induction vds as [|vd vds IH]; intros st; cbn; [reflexivity|].
  rewrite IH. apply stage_ids.
Qed.


End Staging.

Lemma stage_all_ids t rows vds :
  vehicle_ids (objects (stage_all t rows vds)) = vehicle_ids rows.
Proof. unfold stage_all. by rewrite fold_stage_ids. Qed.


Lemma staged_writes_nil d t : staged_writes d t [] = d.
Proof.
  destruct d. unfold staged_writes. cbn. by rewrite !app_nil_r.
Qed.

(** The store stays within its unique constraint under the staged
    writes whenever the INSERTs are accepted. *)
Lemma staged_writes_unique d t vds rows' :
  unique_vehicle_ids (vehicles d) ->
  insert_vehicles (objects (stage_all t (vehicles d) vds))
    (vehicles_to_insert (stage_all t (vehicles d) vds)) = Some rows' ->
  unique_vehicle_ids (vehicles (staged_writes d t vds)).
Proof.
  intros U H. pose proof (insert_vehicles_app _ _ _ H) as E.
  unfold staged_writes. cbn. rewrite <- E.
  apply (insert_vehicles_unique _ _ _ H).
  unfold unique_vehicle_ids. by rewrite stage_all_ids.
Qed.

Ltac run :=
  unfold store_telemetry, query_vehicles, bulk_save_vehicles, bulk_save_events,
    commit, rollback, close, when, logger, set_txn, storage, modify, get,
    bind, ret, raise, try_except, finally in *.

Lemma elem_of_snoc_inv {A} (l : list A) (x y : A) :
  y ∈ l ++ [x] -> y ∈ l \/ y = x.
Proof.
  intros H. apply elem_of_app in H as [H|H]; [by left|].
  apply list_elem_of_singleton in H. by right.
Qed.

Lemma store_run fault t vds w :
  txn w = db w ->
  let st := stage_all t (vehicles (db w)) vds in
  match store_telemetry fault t vds w with
  | (inr _, w') =>
      db w' = staged_writes (db w) t vds
      /\ txn w' = db w'
      /\ log w' = log w ++ [stored_msg]
      /\ (forall op, op ∈ ops w' -> op ∈ ops w \/ fault op = false)
      /\ is_Some (insert_vehicles (objects st) (vehicles_to_insert st))
  | (inl e, w') =>
      db w' = db w
      /\ log w' = log w
      /\ ((exists op, op ∈ ops w' /\ fault op = true /\ e = OperationalError op)
          \/ (e = IntegrityError
              /\ insert_vehicles (objects st) (vehicles_to_insert st) = None))
  end.
Proof.
  intros Htxn st. run. cbn -[insert_vehicles]. rewrite Htxn. fold st.
  destruct (fault QueryVehicles) eqn:F1; cbn -[insert_vehicles].
  { repeat split; try done. left. exists QueryVehicles.
    repeat split; try done. apply elem_of_app. right. left. }
  unfold staged_writes. fold st.
  destruct (vehicles_to_insert st) as [|v ins] eqn:Eins; cbn -[insert_vehicles].
  - destruct (staged_events st) as [|e evs] eqn:Eev; cbn -[insert_vehicles].
    + destruct (fault Commit) eqn:F4; cbn -[insert_vehicles].
      * repeat split; try done. left. exists Commit.
        repeat split; try done. set_solver.
      * rewrite !app_nil_r. repeat split; try done.
        intros op Hop.
        apply elem_of_snoc_inv in Hop as [Hop| ->]; [|by right].
        apply elem_of_snoc_inv in Hop as [Hop| ->]; [|by right].
        by left.
    + destruct (fault BulkSaveEvents) eqn:Fev; cbn -[insert_vehicles].
      * repeat split; try done. left. exists BulkSaveEvents.
        repeat split; try done. set_solver.
      * destruct (fault Commit) eqn:F4; cbn -[insert_vehicles].
        -- repeat split; try done. left. exists Commit.
           repeat split; try done. set_solver.
        -- rewrite !app_nil_r. repeat split; try done.
           intros op Hop.
           repeat (apply elem_of_snoc_inv in Hop as [Hop| ->]; [|by right]).
           by left.
  - destruct (fault BulkSaveVehicles) eqn:F2; cbn -[insert_vehicles].
    { repeat split; try done. left. exists BulkSaveVehicles.
      repeat split; try done. set_solver. }
    destruct (insert_vehicles (objects st) (v :: ins)) as [rows'|] eqn:I.
    2:{ cbn -[insert_vehicles]. repeat split; try done. by right. }
    apply insert_vehicles_app in I as ->.
    destruct (staged_events st) as [|e evs] eqn:Eev; cbn -[insert_vehicles].
    + destruct (fault Commit) eqn:F4; cbn -[insert_vehicles].
      * repeat split; try done. left. exists Commit.
        repeat split; try done. set_solver.
      * rewrite !app_nil_r. repeat split; try done.
        intros op Hop.
        repeat (apply elem_of_snoc_inv in Hop as [Hop| ->]; [|by right]).
        by left.
    + destruct (fault BulkSaveEvents) eqn:Fev; cbn -[insert_vehicles].
      * repeat split; try done. left. exists BulkSaveEvents.
        repeat split; try done. set_solver.
      * destruct (fault Commit) eqn:F4; cbn -[insert_vehicles].
        -- repeat split; try done. left. exists Commit.
           repeat split; try done. set_solver.
        -- repeat split; try done.
           intros op Hop.
           repeat (apply elem_of_snoc_inv in Hop as [Hop| ->]; [|by right]).
           by left.
Qed.

Ltac run_cycle :=
  unfold collect_telemetry, rollback, close, when, logger, set_txn, modify, get,
    bind, ret, raise, try_except, finally in *.

Lemma collect_run fault net t d :
  let st := stage_all t (vehicles d) (parsed net) in
  match collect_telemetry fault net t (open_session d []) with
  | (r, w) =>
      r = inr tt /\ txn w = db w /\
      ((existsb is_error (log w) = false
        /\ db w = staged_writes d t (parsed net)
        /\ (forall op, op ∈ ops w -> fault op = false)
        /\ (parsed net = [] -> ops w = [])
        /\ is_Some (insert_vehicles (objects st) (vehicles_to_insert st)))
       \/ (existsb is_error (log w) = true
           /\ db w = d
           /\ parsed net <> []
           /\ ((exists op, op ∈ ops w /\ fault op = true)
               \/ insert_vehicles (objects st) (vehicles_to_insert st) = None)))
  end.
Proof.
  intros st. subst st. unfold parsed. run_cycle. cbn -[store_telemetry get_vehicles].
  destruct (fst (get_vehicles net 3)) as [api_response|].
  2:{ cbn. repeat split; try done. left. rewrite staged_writes_nil.
      repeat split; try done. by intros op Hop%elem_of_nil. }
  destruct (response_truthy api_response).
  2:{ cbn. repeat split; try done. left. rewrite staged_writes_nil.
      repeat split; try done. by intros op Hop%elem_of_nil. }
  destruct (parse_vehicle_data api_response) as [|vd vds] eqn:P.
  { cbn. repeat split; try done. left. rewrite staged_writes_nil.
    repeat split; try done. by intros op Hop%elem_of_nil. }
  cbn -[store_telemetry].
  match goal with
  | |- context [store_telemetry fault t ?l ?w] =>
      pose proof (store_run fault t l w eq_refl) as H;
      destruct (store_telemetry fault t l w) as [[e|[]] w']
  end; cbn in H |- *.
  - destruct H as (Hdb & Hlog & Hcause). repeat split; try done.
    right. rewrite Hlog. cbn. repeat split; try done.
    destruct Hcause as [(op & Hop & F & _)|[_ Hins]]; [left|by right].
    by exists op.
  - destruct H as (Hdb & Htxn & Hlog & Hops & Hins). repeat split; try done.
    left. rewrite Hlog. cbn. repeat split; try done.
    intros op Hop. destruct (Hops op Hop) as [Hnil|F]; [|done].
    by apply elem_of_nil in Hnil.
Qed.

(** *** The lookup of existing vehicles *)

Lemma index_from_Some rows i m k j :
  index_from i rows m !! k = Some j ->
  (exists v, rows !! (j - i)%nat = Some v /\ vehicle_id v = k /\ (i <= j)%nat)
  \/ m !! k = Some j.
Proof.
  revert i m. induction rows as [|v rows IH]; intros i m H; cbn in H.
  - by right.
  - apply IH in H as [(v' & Hv' & Hk & Hle)|H].
    + left. exists v'. repeat split; [|done|lia].
      replace (j - i)%nat with (S (j - S i)) by lia. done.
    + destruct (decide (vehicle_id v = k)) as [<-|Hne].
      * rewrite lookup_insert_eq in H. injection H as <-.
        left. exists v. rewrite Nat.sub_diag. done.
      * rewrite lookup_insert_ne in H by done. by right.
Qed.

Lemma index_from_None rows i m k :
  index_from i rows m !! k = None ->
  (k ∉ vehicle_ids rows) /\ m !! k = None.
Proof.
  revert i m. induction rows as [|v rows IH]; intros i m H; cbn in H.
  - split; [|done]. by intros ?%elem_of_nil.
  - apply IH in H as [Hnin H].
    destruct (decide (vehicle_id v = k)) as [<-|Hne].
    + by rewrite lookup_insert_eq in H.
    + rewrite lookup_insert_ne in H by done. split; [|done].
      cbn. intros [?|?]%elem_of_cons; [congruence|done].
Qed.

Lemma index_vehicles_Some rows k j :
  index_vehicles rows !! k = Some j ->
  exists v, rows !! j = Some v /\ vehicle_id v = k.
Proof.
  intros H. apply index_from_Some in H as [(v & Hv & Hk & _)|H].
  - exists v. by rewrite Nat.sub_0_r in Hv.
  - by rewrite lookup_empty in H.
Qed.

Lemma index_vehicles_None rows k :
  index_vehicles rows !! k = None -> k ∉ vehicle_ids rows.
Proof. intros H. by apply index_from_None in H as [? _]. Qed.

(** *** One row per id *)

Lemma rows_of_absent k rows : k ∉ vehicle_ids rows -> rows_of k rows = [].
Proof.
  induction rows as [|v rows IH]; intros H; [done|].
  unfold rows_of in *. cbn in H. rewrite filter_cons.
  destruct (decide (vehicle_id v = k)) as [E|_].
  - exfalso. apply H. rewrite E. left.
  - apply IH. intros ?. apply H. by right.
Qed.

Lemma rows_of_alter_other k f j rows :
  (forall v, vehicle_id (f v) = vehicle_id v) ->
  (forall v, rows !! j = Some v -> vehicle_id v <> k) ->
  rows_of k (alter f j rows) = rows_of k rows.
Proof.
  intros Hf. revert j. induction rows as [|v rows IH]; intros j H; [done|].
  unfold rows_of in *. destruct j as [|j]; cbn [alter list_alter].
  - rewrite !filter_cons, Hf.
    specialize (H v eq_refl). by destruct (decide (vehicle_id v = k)).
  - rewrite !filter_cons. rewrite IH; [done|]. intros v'. apply (H v').
Qed.

Lemma rows_of_alter_same f j rows v :
  (forall v, vehicle_id (f v) = vehicle_id v) ->
  unique_vehicle_ids rows ->
  rows !! j = Some v ->
  rows_of (vehicle_id v) (alter f j rows) = [f v].
Proof.
  intros Hf. revert j. induction rows as [|v' rows IH]; intros j U H; [done|].
  unfold unique_vehicle_ids in U. cbn in U. apply NoDup_cons in U as [Hnin U].
  unfold rows_of in *. destruct j as [|j]; cbn [alter list_alter]; cbn in H.
  - injection H as ->. rewrite filter_cons, Hf.
    destruct (decide (vehicle_id v = vehicle_id v)); [|done].
    f_equal. by apply rows_of_absent.
  - rewrite filter_cons.
    destruct (decide (vehicle_id v' = vehicle_id v)) as [E|_].
    + exfalso. apply Hnin. rewrite E.
      apply list_elem_of_fmap. exists v. split; [done|].
      by apply list_elem_of_lookup_2 in H.
    + by apply IH.
Qed.

Lemma rows_of_app k l1 l2 : rows_of k (l1 ++ l2) = rows_of k l1 ++ rows_of k l2.
Proof. unfold rows_of. apply filter_app. Qed.

Lemma update_existing_same_id vd t v :
  vehicle_id v = vd_vehicle_id vd -> update_existing vd t v = new_vehicle vd t.
Proof. intros E. unfold update_existing, new_vehicle. by rewrite E. Qed.

Section Upsert.

Variable t : Time.datetime.
Variable rows : list Vehicle.
Hypothesis rows_unique : unique_vehicle_ids rows.

Lemma staged_ok_init : staged_ok t rows [] (staging_init rows).
Proof.
  split; cbn; [done| | |].
  - by intros v ?%elem_of_nil.
  - apply NoDup_nil_2.
  - by intros s ?%elem_of_nil.
Qed.

Lemma staged_ok_step vds st x :
  vd_vehicle_id x ∉ map vd_vehicle_id vds ->
  staged_ok t rows vds st ->
  staged_ok t rows (vds ++ [x]) (stage t (index_vehicles rows) st x).
Proof.
  intros Hx [Hids Hnew Hnd Hrows].
  assert (Hins : vd_vehicle_id x ∉ vehicle_ids (vehicles_to_insert st)).
  { intros (v & E & Hv)%list_elem_of_fmap. apply Hx.
    rewrite E. by apply Hnew. }
  assert (Hother : forall s, s ∈ vds -> vd_vehicle_id s <> vd_vehicle_id x).
  { intros s Hs E. apply Hx. rewrite <- E. apply list_elem_of_fmap. eauto. }
  unfold stage. destruct (index_vehicles rows !! vd_vehicle_id x) as [j|] eqn:Hj.
  - apply index_vehicles_Some in Hj as (v & Hv & Hk).
    assert (exists v0, objects st !! j = Some v0 /\ vehicle_id v0 = vd_vehicle_id x)
      as (v0 & Hv0 & Hk0).
    { assert (vehicle_ids (objects st) !! j = Some (vd_vehicle_id x)) as H.
      { rewrite Hids. unfold vehicle_ids. rewrite list_lookup_fmap, Hv. cbn.
        by rewrite Hk. }
      unfold vehicle_ids in H. rewrite list_lookup_fmap in H.
      destruct (objects st !! j) as [v0|]; [|done].
      exists v0. split; [done|]. cbn in H. congruence. }
    split; cbn -[rows_of].
    + by rewrite vehicle_ids_alter.
    + intros v' Hv'. destruct (Hnew v' Hv') as [H1 H2]. split; [|done].
      rewrite map_app. apply elem_of_app. by left.
    + done.
    + intros s [Hs| ->%list_elem_of_singleton]%elem_of_app;
        unfold all_rows; cbn [objects vehicles_to_insert]; rewrite rows_of_app.
      * rewrite rows_of_alter_other; [| done |].
        -- rewrite <- rows_of_app. by apply Hrows.
        -- intros v' Hv'. rewrite Hv0 in Hv'. injection Hv' as <-.
           rewrite Hk0. intros E. by apply (Hother s Hs).
      * rewrite <- Hk0. rewrite rows_of_alter_same; [| done | | done].
        -- rewrite Hk0, (rows_of_absent _ _ Hins), app_nil_r.
           by rewrite update_existing_same_id.
        -- unfold unique_vehicle_ids. by rewrite Hids.
  - apply index_vehicles_None in Hj.
    split; cbn -[rows_of].
    + done.
    + intros v' [Hv'| ->%list_elem_of_singleton]%elem_of_app.
      * destruct (Hnew v' Hv') as [H1 H2]. split; [|done].
        rewrite map_app. apply elem_of_app. by left.
      * cbn. split; [|done]. rewrite map_app. apply elem_of_app. right. left.
    + unfold vehicle_ids. rewrite map_app. apply NoDup_app.
      repeat split; [done| |apply NoDup_singleton].
      intros k Hk ->%list_elem_of_singleton. by apply Hins.
    + intros s [Hs| ->%list_elem_of_singleton]%elem_of_app;
        unfold all_rows; cbn [objects vehicles_to_insert]; rewrite app_assoc, rows_of_app.
      * fold (all_rows st). rewrite (Hrows s Hs).
        unfold rows_of. rewrite filter_cons, filter_nil. cbn.
        destruct (decide (vd_vehicle_id x = vd_vehicle_id s)) as [E|_]; [|done].
        exfalso. by apply (Hother s Hs).
      * rewrite rows_of_app, rows_of_absent by (by rewrite Hids).
        rewrite (rows_of_absent _ _ Hins).
        unfold rows_of. rewrite filter_cons, filter_nil. cbn.
        by destruct (decide (vd_vehicle_id x = vd_vehicle_id x)).
Qed.

Lemma stage_all_ok vds :
  NoDup (map vd_vehicle_id vds) -> staged_ok t rows vds (stage_all t rows vds).
Proof.
  unfold stage_all. induction vds as [|x vds IH] using rev_ind; intros Hnd.
  - apply staged_ok_init.
  - rewrite fold_left_app. cbn. rewrite map_app in Hnd.
    apply NoDup_app in Hnd as (Hnd & Hx & _).
    apply staged_ok_step; [|by apply IH].
    intros Hin. apply (Hx _ Hin). left.
Qed.

Lemma staged_ok_unique vds st :
  staged_ok t rows vds st -> unique_vehicle_ids (all_rows st).
Proof.
  intros [Hids Hnew Hnd _]. unfold unique_vehicle_ids, all_rows, vehicle_ids.
  rewrite map_app. apply NoDup_app. repeat split.
  - fold (vehicle_ids (objects st)). by rewrite Hids.
  - intros k Hk (v & -> & Hv)%list_elem_of_fmap.
    destruct (Hnew v Hv) as [_ H]. apply H.
    by rewrite <- Hids.
  - done.
Qed.

End Upsert.

(** *** Cycles on the store *)

Lemma run_cycle_cases d c :
  let st := stage_all (cy_time c) (vehicles d) (parsed (cy_net c)) in
  run_cycle d c = d
  \/ (run_cycle d c = staged_writes d (cy_time c) (parsed (cy_net c))
      /\ is_Some (insert_vehicles (objects st) (vehicles_to_insert st))).
Proof.
  intros st. unfold run_cycle.
  pose proof (collect_run (cy_fault c) (cy_net c) (cy_time c) d) as H.
  destruct (collect_telemetry _ _ _ _) as [r w]. cbn in *.
  destruct H as (_ & _ & [(_ & Hdb & _ & _ & Hins)|(_ & Hdb & _)]);
    [right|left]; done.
Qed.

Lemma run_cycle_unique d c :
  unique_vehicle_ids (vehicles d) -> unique_vehicle_ids (vehicles (run_cycle d c)).
Proof.
  intros U. destruct (run_cycle_cases d c) as [-> | [-> [rows' H]]]; [done|].
  by apply (staged_writes_unique _ _ _ rows').
Qed.

Lemma run_cycle_keeps d c id :
  id ∈ vehicle_ids (vehicles d) -> id ∈ vehicle_ids (vehicles (run_cycle d c)).
Proof.
  intros Hid. destruct (run_cycle_cases d c) as [-> | [-> _]]; [done|].
  unfold staged_writes, vehicle_ids. cbn. rewrite map_app. apply elem_of_app.
  left. fold (vehicle_ids (objects (stage_all (cy_time c) (vehicles d)
                                       (parsed (cy_net c))))).
  by rewrite stage_all_ids.
Qed.

Lemma run_cycle_commits d c :
  unique_vehicle_ids (vehicles d) ->
  (forall op, cy_fault c op = false) ->
  NoDup (map vd_vehicle_id (parsed (cy_net c))) ->
  run_cycle d c = staged_writes d (cy_time c) (parsed (cy_net c)).
Proof.
  intros U F Hnd. unfold run_cycle.
  pose proof (collect_run (cy_fault c) (cy_net c) (cy_time c) d) as H.
  destruct (collect_telemetry _ _ _ _) as [r w]. cbn in *.
  destruct H as (_ & _ & [(_ & Hdb & _)|(_ & _ & _ & [(op & _ & Hop)|Hins])]).
  - done.
  - by rewrite F in Hop.
  - pose proof (stage_all_ok (cy_time c) (vehicles d) U _ Hnd) as Hok.
    apply staged_ok_unique in Hok; [|done].
    apply insert_vehicles_fresh in Hok. unfold all_rows in Hok. congruence.
Qed.

(** C1: from a store within its unique constraint, every run of
    collection cycles (whatever upstream returns, whatever storage
    operation fails) leaves at most one row per vehicle id and keeps
    every vehicle id that had a row; and two cycles that parse the same
    snapshots (one per vehicle) and whose storage operations do not
    fail leave, for each snapshot, exactly one row with that vehicle id,
    carrying the snapshot's values and the time of the second cycle. *)
Theorem current_state_one_row_per_vehicle (d : database) :
  unique_vehicle_ids (vehicles d) ->
  (forall cs : list cycle,
     unique_vehicle_ids (vehicles (run_cycles d cs))
     /\ forall id, id ∈ vehicle_ids (vehicles d) ->
                   id ∈ vehicle_ids (vehicles (run_cycles d cs)))
  /\ (forall (c1 c2 : cycle) (s : vehicle_data),
        (forall op, cy_fault c1 op = false) ->
        (forall op, cy_fault c2 op = false) ->
        parsed (cy_net c2) = parsed (cy_net c1) ->
        NoDup (map vd_vehicle_id (parsed (cy_net c1))) ->
        s ∈ parsed (cy_net c1) ->
        rows_of (vd_vehicle_id s) (vehicles (run_cycles d [c1; c2]))
        = [new_vehicle s (cy_time c2)]).
Proof.
  intros U. split.
  - intros cs. revert d U. induction cs as [|c cs IH]; intros d U; cbn.
    + done.
    + destruct (IH (run_cycle d c) (run_cycle_unique d c U)) as [IH1 IH2].
      split; [done|]. intros id Hid. apply IH2. by apply run_cycle_keeps.
  - intros c1 c2 s F1 F2 Hsame Hnd Hs. cbn.
    pose proof (run_cycle_unique d c1 U) as U1.
    rewrite (run_cycle_commits _ c2 U1 F2) by (by rewrite Hsame).
    unfold staged_writes. cbn [vehicles].
    rewrite Hsame.
    apply (ok_rows _ _ _ _ (stage_all_ok (cy_time c2) _ U1 _ Hnd)). done.
Qed.

Lemma current_state_one_row_per_vehicle_witness :
  rows_of "y1"
    (vehicles (run_cycles Database.empty
                 [Samples.cycle_at Samples.no_fault [Samples.y1] 10;
                  Samples.cycle_at Samples.no_fault [Samples.y1] 20]))
  = [new_vehicle Samples.y1_snapshot 20].
Proof.
  destruct (current_state_one_row_per_vehicle Database.empty) as [_ H];
    [apply NoDup_nil_2|].
  apply (H (Samples.cycle_at Samples.no_fault [Samples.y1] 10)
           (Samples.cycle_at Samples.no_fault [Samples.y1] 20)
           Samples.y1_snapshot).
  - reflexivity.
  - reflexivity.
  - reflexivity.
  - vm_compute. apply NoDup_singleton.
  - vm_compute. left.
Defined.

(** C2: a collection cycle never raises to its caller, and its writes
    are all or nothing: when no failure is logged the store holds every
    staged insert and in-place update of the cycle, and when a failure
    is logged the store is the store before the cycle; a failing storage
    operation, or an INSERT refused by the unique constraint, is always
    logged as a failure, and nothing else is. *)
Theorem cycle_writes_atomic (fault : db_op -> bool) (net : nat -> http_outcome)
    (t : Time.datetime) (d : database) :
  let r := collect_telemetry fault net t (open_session d []) in
  let st := stage_all t (vehicles d) (parsed net) in
  fst r = inr tt
  /\ (if existsb is_error (log (snd r))
      then db (snd r) = d
      else db (snd r) = staged_writes d t (parsed net))
  /\ (forall op, op ∈ ops (snd r) -> fault op = true ->
                 existsb is_error (log (snd r)) = true)
  /\ (insert_vehicles (objects st) (vehicles_to_insert st) = None ->
      existsb is_error (log (snd r)) = true)
  /\ (existsb is_error (log (snd r)) = true ->
      (exists op, op ∈ ops (snd r) /\ fault op = true)
      \/ insert_vehicles (objects st) (vehicles_to_insert st) = None).
Proof.
  intros r st. subst r.
  pose proof (collect_run fault net t d) as H.
  destruct (collect_telemetry _ _ _ _) as [r w]. cbn in *.
  destruct H as (Hr & _ & [(Hlog & Hdb & Hops & _ & Hins)
                          |(Hlog & Hdb & _ & Hcause)]);
    rewrite Hlog; repeat split; try done.
  - intros op Hop F. by rewrite Hops in F.
  - intros Hnone. fold st in Hins. rewrite Hnone in Hins. by destruct Hins.
Qed.

Lemma cycle_writes_atomic_witness :
  existsb is_error
    (log (snd (collect_telemetry Samples.commit_fails
                 (Samples.upstream [Samples.y1]) 10
                 (open_session Database.empty [])))) = true.
Proof.
  destruct (cycle_writes_atomic Samples.commit_fails
              (Samples.upstream [Samples.y1]) 10 Database.empty)
    as (_ & _ & H & _).
  apply (H Commit).
  - vm_compute. repeat constructor.
  - reflexivity.
Defined.




(** The same happens with no storage fault when upstream lists a new
    vehicle twice: the second INSERT violates the unique constraint. *)
Lemma duplicate_vehicle_appends_no_event :
  let c := Samples.cycle_at Samples.no_fault [Samples.y1; Samples.y1] 10 in
  length (parsed (cy_net c)) = 2%nat
  /\ run_cycle Database.empty c = Database.empty.
Proof. vm_compute. by split. Qed.



End CollectorProps.

(** ** Ordered selections *)

Module OrderProps.

Import Database Ordering.

Section Asc.

Context {A : Type} (key : A -> Z).

Lemma insert_by_perm x l : insert_by key x l ≡ₚ x :: l.
Proof.
  induction l as [|y l IH]; cbn; [done|].
  destruct (key x <? key y); [done|].
  rewrite IH. apply Permutation_swap.
Qed.

Lemma order_by_snoc l x :
  order_by key (l ++ [x]) = insert_by key x (order_by key l).
Proof. unfold order_by. by rewrite fold_left_app. Qed.

Lemma order_by_perm l : order_by key l ≡ₚ l.
Proof.
  induction l as [|x l IH] using rev_ind; [done|].
  rewrite order_by_snoc, insert_by_perm, IH.
  by rewrite Permutation_cons_append.
Qed.

Lemma insert_by_ascending x l :
  ascending key l -> ascending key (insert_by key x l).
Proof.
  induction l as [|y l IH]; cbn; intros Hl.
  - split; [constructor|done].
  - destruct Hl as [Hy Hl]. destruct (key x <? key y) eqn:E; cbn.
    + split; [|done]. apply Forall_cons. split; [lia|].
      eapply Forall_impl; [exact Hy|]. cbn. intros z Hz. lia.
    + split; [|by apply IH].
      rewrite insert_by_perm. apply Forall_cons. split; [lia|done].
Qed.

Lemma order_by_ascending l : ascending key (order_by key l).
Proof.
  induction l as [|x l IH] using rev_ind; [done|].
  rewrite order_by_snoc. by apply insert_by_ascending.
Qed.

(** An inserted row goes behind the rows that have its key. *)
Lemma insert_by_stable x l k :
  ascending key l ->
  filter (fun y => key y = k) (insert_by key x l)
  = filter (fun y => key y = k) (l ++ [x]).
Proof.
  induction l as [|y l IH]; [done|]. intros [Hy Hl]. cbn [insert_by].
  destruct (key x <? key y) eqn:E.
  - rewrite (filter_app _ (y :: l) [x]), (filter_cons _ x (y :: l)).
    rewrite (filter_cons _ x []), filter_nil.
    assert (Hnone : key x = k -> filter (fun z => key z = k) (y :: l) = []).
    { intros Hk. apply elem_of_nil_inv.
      intros z [Hz [->|Hin]%elem_of_cons]%list_elem_of_filter; [lia|].
      rewrite Forall_forall in Hy. specialize (Hy z Hin). lia. }
    destruct (decide (key x = k)) as [Hk|Hk].
    + by rewrite (Hnone Hk).
    + by rewrite app_nil_r.
  - rewrite <- app_comm_cons, !(filter_cons _ y), IH by done.
    by destruct (decide (key y = k)).
Qed.

Lemma order_by_stable l k :
  filter (fun y => key y = k) (order_by key l)
  = filter (fun y => key y = k) l.
Proof.
  induction l as [|x l IH] using rev_ind; [done|].
  rewrite order_by_snoc, insert_by_stable by apply order_by_ascending.
  by rewrite !filter_app, IH.
Qed.

Lemma order_by_in_key_order l : in_key_order key (order_by key l) l.
Proof. split; [apply order_by_ascending|apply order_by_stable]. Qed.

(** Two ascending lists with the same rows under every key, in the
    same order, are one list. *)
Lemma ascending_unique l1 l2 :
  ascending key l1 -> ascending key l2 ->
  (forall k, filter (fun y => key y = k) l1 = filter (fun y => key y = k) l2) ->
  l1 = l2.
Proof.
  revert l2. induction l1 as [|x l1 IH]; intros [|y l2] H1 H2 H.
  - done.
  - specialize (H (key y)). rewrite filter_nil, filter_cons in H.
    by rewrite decide_True in H.
  - specialize (H (key x)). rewrite filter_nil, filter_cons in H.
    by rewrite decide_True in H.
  - destruct H1 as [Hx H1], H2 as [Hy H2].
    assert (Hxy : key x <= key y).
    { pose proof (H (key y)) as Hk. rewrite (filter_cons _ y) in Hk.
      rewrite decide_True in Hk by done.
      assert (y ∈ filter (fun z => key z = key y) (x :: l1)) as Hin
        by (rewrite Hk; left).
      apply list_elem_of_filter in Hin as [_ Hin].
      apply elem_of_cons in Hin as [->|Hin]; [lia|].
      rewrite Forall_forall in Hx. by apply Hx. }
    assert (Hyx : key y <= key x).
    { pose proof (H (key x)) as Hk. rewrite (filter_cons _ x) in Hk.
      rewrite decide_True in Hk by done.
      assert (x ∈ filter (fun z => key z = key x) (y :: l2)) as Hin
        by (rewrite <- Hk; left).
      apply list_elem_of_filter in Hin as [_ Hin].
      apply elem_of_cons in Hin as [->|Hin]; [lia|].
      rewrite Forall_forall in Hy. by apply Hy. }
    assert (x = y) as <-.
    { pose proof (H (key x)) as Hk. rewrite !filter_cons in Hk.
      rewrite decide_True in Hk by done.
      rewrite decide_True in Hk by lia. congruence. }
    f_equal. apply IH; [done..|]. intros k. specialize (H k).
    rewrite !filter_cons in H.
    destruct (decide (key x = k)); congruence.
Qed.

Lemma in_key_order_order_by selected rows :
  in_key_order key selected rows -> selected = order_by key rows.
Proof.
  intros [Hasc Hst]. apply ascending_unique; [done|apply order_by_ascending|].
  intros k. by rewrite Hst, order_by_stable.
Qed.

End Asc.

End OrderProps.

(** ** Alert detector: bunching *)

Module AlertProps.

Import Database AlertDetector Ordering.

(** *** Ordering keeps the rows *)

Lemma elem_of_insert_by {A} (key : A -> Z) (x y : A) (l : list A) :
  y ∈ insert_by key x l <-> y = x \/ y ∈ l.
Proof.
  induction l as [|z l IH]; cbn.
  - rewrite list_elem_of_singleton. split; [by left|].
    intros [?|H]; [done|]. by apply elem_of_nil in H.
  - destruct (key x <? key z).
    + by rewrite elem_of_cons.
    + rewrite !elem_of_cons, IH. tauto.
Qed.

Lemma elem_of_order_by {A} (key : A -> Z) (y : A) (l : list A) :
  y ∈ order_by key l <-> y ∈ l.
Proof.
  unfold order_by.
  assert (G : forall acc, y ∈ fold_left (fun acc x => insert_by key x acc) l acc
                          <-> y ∈ acc \/ y ∈ l).
  { induction l as [|x l IH]; intros acc; cbn.
    - split; [by left|]. intros [?|H]; [done|]. by apply elem_of_nil in H.
    - rewrite IH, elem_of_insert_by, elem_of_cons. tauto. }
  rewrite G. split; [|by right]. intros [H|?]; [|done]. by apply elem_of_nil in H.
Qed.

Lemma elem_of_recent_positioned now route_id rows v :
  v ∈ recent_positioned now route_id rows ->
  v ∈ rows /\ Database.route_id v = Some route_id
  /\ now - Time.minutes 5 <= last_updated v
  /\ latitude v <> None /\ longitude v <> None.
Proof.
  unfold recent_positioned. rewrite elem_of_order_by, list_elem_of_filter.
  tauto.
Qed.

(** *** Float comparisons on whole microseconds *)

Lemma float_lt_0_total_seconds d :
  float_lt 0 (Time.total_seconds d) = (0 <? d).
Proof.
  unfold float_lt, Time.total_seconds, Qcompare. cbn.
  rewrite Z.mul_1_r. unfold Z.ltb. reflexivity.
Qed.

Lemma float_lt_total_seconds_threshold d :
  float_lt (Time.total_seconds d) BUNCHING_THRESHOLD_SECONDS
  = (d <? Time.seconds 180).
Proof.
  unfold float_lt, Time.total_seconds, BUNCHING_THRESHOLD_SECONDS, Qcompare,
    Time.seconds. cbn [Qnum Qden].
  rewrite Z.mul_1_r. unfold Z.ltb. reflexivity.
Qed.

Lemma bunched_in_range v1 v2 : bunched v1 v2 = in_bunching_range (v1, v2).
Proof.
  unfold bunched, in_bunching_range, time_diff. cbn [fst snd].
  by rewrite float_lt_0_total_seconds, float_lt_total_seconds_threshold.
Qed.

(** *** The scan *)

Lemma scan_pairs_cons now route_id v1 v2 rest :
  scan_pairs now route_id (v1 :: v2 :: rest)
  = (if positions_truthy v1 v2 && bunched v1 v2
     then [bunching_alert now route_id v1 v2] else [])
    ++ scan_pairs now route_id (v2 :: rest).
Proof. reflexivity. Qed.

Lemma scan_pairs_elem now route_id vehicles a :
  a ∈ scan_pairs now route_id vehicles ->
  exists v1 v2, v1 ∈ vehicles /\ v2 ∈ vehicles
    /\ a = bunching_alert now route_id v1 v2
    /\ positions_truthy v1 v2 = true /\ bunched v1 v2 = true.
Proof.
  induction vehicles as [|v1 [|v2 rest] IH]; cbn [scan_pairs].
  - by intros ?%elem_of_nil.
  - by intros ?%elem_of_nil.
  - intros [H|H]%elem_of_app.
    + destruct (positions_truthy v1 v2 && bunched v1 v2) eqn:E.
      * apply list_elem_of_singleton in H. apply andb_true_iff in E as [E1 E2].
        exists v1, v2. repeat split; try done; [left | right; left].
      * by apply elem_of_nil in H.
    + destruct (IH H) as (w1 & w2 & H1 & H2 & Ha).
      exists w1, w2. repeat split; try tauto; by right.
Qed.

Lemma scan_pairs_alerts now route_id vehicles :
  (forall v1 v2, v1 ∈ vehicles -> v2 ∈ vehicles -> positions_truthy v1 v2 = true) ->
  scan_pairs now route_id vehicles = alerts_of_pairs now route_id vehicles.
Proof.
  unfold alerts_of_pairs, adjacent_pairs.
  induction vehicles as [|v1 [|v2 rest] IH]; intros Hpos; [done|done|].
  rewrite scan_pairs_cons. cbn [tail zip zip_with]. cbn [tail] in IH.
  rewrite filter_cons, IH.
  - rewrite Hpos by (try left; right; left). rewrite bunched_in_range. cbn [andb].
    destruct (in_bunching_range (v1, v2)) eqn:E; cbn.
    + by destruct (decide (true = true)).
    + by destruct (decide (false = true)).
  - intros w1 w2 H1 H2. apply Hpos; by right.
Qed.

(** *** Two vehicles *)

Lemma eligible_filter now route_id v :
  eligible now route_id v ->
  Database.route_id v = Some route_id
  /\ now - Time.minutes 5 <= last_updated v
  /\ latitude v <> None /\ longitude v <> None.
Proof.
  intros (Hr & Hc & Hlat & Hlon). repeat split; try done.
  - by destruct (latitude v).
  - by destruct (longitude v).
Qed.

Lemma recent_positioned_pair now route_id v1 v2 :
  eligible now route_id v1 -> eligible now route_id v2 ->
  last_updated v1 < last_updated v2 ->
  recent_positioned now route_id [v1; v2] = [v1; v2]
  /\ recent_positioned now route_id [v2; v1] = [v1; v2].
Proof.
  intros E1%eligible_filter E2%eligible_filter Hlt.
  unfold recent_positioned.
  rewrite !filter_cons, filter_nil, !decide_True by done.
  unfold order_by. cbn.
  assert ((last_updated v2 <? last_updated v1) = false) as -> by lia.
  assert ((last_updated v1 <? last_updated v2) = true) as -> by lia.
  done.
Qed.

Lemma pair_sixty_seconds now route_id v1 v2 :
  eligible now route_id v1 -> eligible now route_id v2 ->
  last_updated v2 - last_updated v1 = Time.seconds 60 ->
  scan_pairs now route_id [v1; v2] = [bunching_alert now route_id v1 v2].
Proof.
  intros (_ & _ & Hlat1 & Hlon1) (_ & _ & Hlat2 & Hlon2) Hgap.
  rewrite scan_pairs_cons. unfold positions_truthy.
  rewrite Hlat1, Hlon1, Hlat2, Hlon2, bunched_in_range.
  unfold in_bunching_range. cbn [fst snd]. rewrite Hgap. reflexivity.
Qed.

Lemma far_apart_no_alert now route_id vehicles :
  (forall p, p ∈ adjacent_pairs vehicles -> in_bunching_range p = false) ->
  scan_pairs now route_id vehicles = [].
Proof.
  unfold adjacent_pairs.
  induction vehicles as [|v1 [|v2 rest] IH]; intros H; [done|done|].
  rewrite scan_pairs_cons, bunched_in_range, (H (v1, v2)) by (cbn; left).
  rewrite andb_false_r, IH; [done|]. intros p Hp. apply H. cbn. by right.
Qed.

Lemma pair_four_hundred_seconds now route_id v1 v2 :
  last_updated v2 - last_updated v1 = Time.seconds 400 ->
  detect_bunching now route_id [v1; v2] = []
  /\ detect_bunching now route_id [v2; v1] = [].
Proof.
  intros Hgap. unfold detect_bunching.
  assert (G : forall l, (forall v, v ∈ l -> v = v1 \/ v = v2) ->
              forall p, p ∈ adjacent_pairs l -> in_bunching_range p = false).
  { intros l Hl [a b] Hp. unfold adjacent_pairs in Hp.
    assert (a ∈ l /\ b ∈ l) as [Ha Hb].
    { split.
      - by apply elem_of_zip_l in Hp.
      - apply elem_of_zip_r in Hp. destruct l; [done|]. by right. }
    unfold in_bunching_range, Time.seconds in *. cbn [fst snd].
    destruct (Hl a Ha) as [-> | ->], (Hl b Hb) as [-> | ->]; lia. }
  split; apply far_apart_no_alert, G; intros v Hv;
    apply elem_of_recent_positioned in Hv as [Hv _];
    apply elem_of_cons in Hv as [->|Hv%list_elem_of_singleton]; auto.
Qed.

(** C8 as stated fails: two vehicles of the route, updated 60 seconds
    apart within the last 5 minutes, one without a recorded position;
    the specification's detector emits one alert, the code none. *)
Lemma unpositioned_pair_not_alerted :
  length (specified_bunching (Time.seconds 1100) "Red" Samples.unpositioned_pair)
  = 1%nat
  /\ detect_bunching (Time.seconds 1100) "Red" Samples.unpositioned_pair = []
  /\ detect_bunching (Time.seconds 1100) "Red" Samples.unpositioned_pair
     <> specified_bunching (Time.seconds 1100) "Red" Samples.unpositioned_pair.
Proof. vm_compute. repeat split; discriminate. Qed.

(** C8, amended: the detector takes the vehicles of the route that
    were updated in the trailing 5 minutes and have a recorded latitude
    and longitude (none of them 0.0), by update time, and emits, for
    each adjacent pair whose update-time gap is strictly between 0 and
    180 seconds, exactly one bunching alert of severity warning naming
    both vehicle ids and the gap; two such vehicles 60 seconds apart
    yield exactly one alert, and two vehicles 400 seconds apart yield
    none. *)
Theorem bunching_among_positioned (now : Time.datetime) (route_id : string)
    (rows vehicles : list Vehicle) :
  coordinates_nonzero rows ->
  in_key_order last_updated vehicles
    (filter (fun v => Database.route_id v = Some route_id
                      /\ now - Time.minutes 5 <= last_updated v
                      /\ latitude v <> None
                      /\ longitude v <> None) rows) ->
  detect_bunching now route_id rows = alerts_of_pairs now route_id vehicles
  /\ (forall a, a ∈ detect_bunching now route_id rows ->
        alert_type a = "bunching"%string /\ alert_route_id a = route_id
        /\ severity a = "warning"%string /\ alert_timestamp a = now
        /\ exists v1 v2,
             vehicle_1 a = vehicle_id v1 /\ vehicle_2 a = vehicle_id v2
             /\ time_between_seconds a
                = Time.total_seconds (last_updated v2 - last_updated v1)
             /\ (v1, v2) ∈ adjacent_pairs vehicles
             /\ 0 < last_updated v2 - last_updated v1 < Time.seconds 180)
  /\ (forall v1 v2,
        eligible now route_id v1 -> eligible now route_id v2 ->
        last_updated v2 - last_updated v1 = Time.seconds 60 ->
        detect_bunching now route_id [v1; v2]
        = [bunching_alert now route_id v1 v2]
        /\ detect_bunching now route_id [v2; v1]
           = [bunching_alert now route_id v1 v2])
  /\ (forall v1 v2,
        last_updated v2 - last_updated v1 = Time.seconds 400 ->
        detect_bunching now route_id [v1; v2] = []
        /\ detect_bunching now route_id [v2; v1] = []).
Proof.
  intros Hnz Hsel.
  assert (Hv : recent_positioned now route_id rows = vehicles).
  { symmetry. by apply OrderProps.in_key_order_order_by. }
  assert (E : detect_bunching now route_id rows
              = alerts_of_pairs now route_id vehicles).
  { unfold detect_bunching. rewrite Hv. apply scan_pairs_alerts.
    assert (P : forall v, v ∈ vehicles ->
                opt_float_truthy (latitude v) = true
                /\ opt_float_truthy (longitude v) = true).
    { intros v Hin. rewrite <- Hv in Hin.
      apply elem_of_recent_positioned in Hin as (Hin & _ & _ & Hlat & Hlon).
      destruct (latitude v) as [q1|] eqn:E1; [|done].
      destruct (longitude v) as [q2|] eqn:E2; [|done].
      split; cbn; apply (Hnz v); auto. }
    intros v1 v2 [H1 H2]%P [H3 H4]%P. unfold positions_truthy.
    by rewrite H1, H2, H3, H4. }
  split; [exact E|]. split; [|split].
  - intros a Ha. rewrite E in Ha. unfold alerts_of_pairs in Ha.
    apply list_elem_of_fmap in Ha as ([v1 v2] & -> & Hp).
    apply list_elem_of_filter in Hp as [Hrange Hp].
    unfold in_bunching_range in Hrange. cbn [fst snd] in Hrange.
    apply andb_true_iff in Hrange as [G1%Z.ltb_lt G2%Z.ltb_lt].
    split; [done|]. split; [done|]. split; [done|]. split; [done|].
    exists v1, v2.
    split; [done|]. split; [done|]. split; [done|]. split; [done|]. lia.
  - intros v1 v2 E1 E2 Hgap. unfold detect_bunching.
    destruct (recent_positioned_pair now route_id v1 v2 E1 E2) as [-> ->].
    { unfold Time.seconds in Hgap. lia. }
    split; by apply pair_sixty_seconds.
  - intros v1 v2. apply pair_four_hundred_seconds.
Qed.

Lemma bunching_among_positioned_witness :
  detect_bunching (Time.seconds 1100) "Red" Samples.positioned_pair
  = [bunching_alert (Time.seconds 1100) "Red"
       (Samples.red_row "a" (Some (Qmake 42 1)) (Time.seconds 1000))
       (Samples.red_row "b" (Some (Qmake 42 1)) (Time.seconds 1060))].
Proof.
  destruct (bunching_among_positioned (Time.seconds 1100) "Red"
              Samples.positioned_pair Samples.positioned_pair)
    as (_ & _ & H & _).
  - intros v q Hv Hq. unfold Samples.positioned_pair in Hv.
    apply elem_of_cons in Hv as [-> | Hv].
    { destruct Hq as [Hq|Hq]; injection Hq as <-; reflexivity. }
    apply list_elem_of_singleton in Hv as ->.
    destruct Hq as [Hq|Hq]; injection Hq as <-; reflexivity.
  - split.
    + cbn [ascending Samples.positioned_pair].
      split; [|split; [constructor|exact I]].
      apply Forall_singleton. vm_compute. discriminate.
    + intros k.
      assert (filter (fun v => Database.route_id v = Some "Red"%string
                               /\ Time.seconds 1100 - Time.minutes 5
                                  <= last_updated v
                               /\ latitude v <> None
                               /\ longitude v <> None)
                Samples.positioned_pair
              = Samples.positioned_pair) as -> by (vm_compute; reflexivity).
      reflexivity.
  - apply H; [by repeat split | by repeat split | reflexivity].
Defined.

(** *** Vehicles without a position *)

Lemma same_id_same_row rows v v' :
  unique_vehicle_ids rows -> v ∈ rows -> v' ∈ rows ->
  vehicle_id v = vehicle_id v' -> v = v'.
Proof.
  intros U (i & Hi)%list_elem_of_lookup (j & Hj)%list_elem_of_lookup E.
  assert (i = j) as ->; [|congruence].
  apply (NoDup_lookup _ i j (vehicle_id v) U); unfold vehicle_ids;
    rewrite list_lookup_fmap.
  - by rewrite Hi.
  - rewrite Hj. cbn. by rewrite E.
Qed.

(** C10: every bunching alert names two rows of the table that both
    have a latitude and a longitude; hence, in a table with one row per
    vehicle id, no alert names a vehicle whose latitude or longitude is
    not recorded, however recent and close in time its update is. *)
Theorem bunching_needs_positions (now : Time.datetime) (route_id : string)
    (rows : list Vehicle) (a : alert) :
  a ∈ detect_bunching now route_id rows ->
  (exists v1 v2,
     v1 ∈ rows /\ v2 ∈ rows
     /\ vehicle_1 a = vehicle_id v1 /\ vehicle_2 a = vehicle_id v2
     /\ is_Some (latitude v1) /\ is_Some (longitude v1)
     /\ is_Some (latitude v2) /\ is_Some (longitude v2))
  /\ (unique_vehicle_ids rows ->
      forall v, v ∈ rows -> latitude v = None \/ longitude v = None ->
                vehicle_1 a <> vehicle_id v /\ vehicle_2 a <> vehicle_id v).
Proof.
  intros Ha. unfold detect_bunching in Ha.
  apply scan_pairs_elem in Ha as (v1 & v2 & H1 & H2 & -> & _).
  apply elem_of_recent_positioned in H1 as (H1 & _ & _ & Hlat1 & Hlon1).
  apply elem_of_recent_positioned in H2 as (H2 & _ & _ & Hlat2 & Hlon2).
  split.
  - exists v1, v2. cbn. repeat split; try done;
      by apply not_eq_None_Some.
  - intros U v Hv Hnone. cbn. split; intros E.
    + apply (same_id_same_row rows v1 v U H1 Hv) in E as ->. tauto.
    + apply (same_id_same_row rows v2 v U H2 Hv) in E as ->. tauto.
Qed.

Lemma bunching_needs_positions_witness :
  vehicle_1 (bunching_alert (Time.seconds 1100) "Red"
               (Samples.red_row "a" (Some (Qmake 42 1)) (Time.seconds 1000))
               (Samples.red_row "b" (Some (Qmake 42 1)) (Time.seconds 1060)))
  <> "c"%string.
Proof.
  destruct (bunching_needs_positions (Time.seconds 1100) "Red"
              Samples.three_rows
              (bunching_alert (Time.seconds 1100) "Red"
                 (Samples.red_row "a" (Some (Qmake 42 1)) (Time.seconds 1000))
                 (Samples.red_row "b" (Some (Qmake 42 1)) (Time.seconds 1060))))
    as [_ H].
  - vm_compute. left.
  - apply (H ltac:(apply (bool_decide_unpack _); vm_compute; exact I)
             (Samples.red_row "c" None (Time.seconds 1090))).
    + vm_compute. do 2 right. left.
    + by left.
Defined.

End AlertProps.

(** ** Headway analyzer *)

Module HeadwayProps.

Import Database HeadwayAnalyzer.

(** The example of the specification: one vehicle at minutes 0, 3, 3.5
    and 20 emits the headways 3, 0.5 and 16.5. *)
Lemma one_vehicle_headways :
  (fun d => map (fun kv => (fst kv, map Qred (snd kv))) d)
    <$> emitted_headways Samples.one_vehicle_events
  = Some [(Some "Red"%string, [3%Q; Qmake 1 2; Qmake 33 2])]
  /\ (fun d => map (fun kv => (fst kv, map Qred (snd kv))) d)
       <$> emitted_headways
             (select_events (Time.minutes 30) None Samples.one_vehicle_events)
     = Some [(Some "Red"%string, [3%Q; Qmake 1 2; Qmake 33 2])].
Proof. vm_compute. done. Qed.

(** On the events of a single vehicle of a route the walk emits what
    the per-vehicle rule of the specification emits. *)
Lemma walk_single_vehicle r v events hs last :
  (forall e, e ∈ events -> ev_route_id e = Some r /\ ev_vehicle_id e = v) ->
  exists last',
    walk_events
      {| headways_by_route := [(Some r, hs)]; current_route := Some r;
         current_vehicle := Some v; last_timestamp := Some last |} events
    = Some {| headways_by_route :=
                [(Some r, hs ++ per_vehicle_headways {[v := last]} events)];
              current_route := Some r; current_vehicle := Some v;
              last_timestamp := Some last' |}.
Proof.
  revert hs last. induction events as [|e events IH]; intros hs last H.
  - exists last. cbn. by rewrite app_nil_r.
  - destruct (H e) as [Hr Hv]; [left|].
    cbn [walk_events per_vehicle_headways]. unfold step.
    cbn [current_route current_vehicle last_timestamp headways_by_route].
    rewrite Hr, Hv.
    rewrite (bool_decide_false (Some r ≠ Some r)) by (intros X; by apply X).
    cbn [current_route current_vehicle last_timestamp headways_by_route].
    rewrite (bool_decide_false (Some v ≠ Some v)) by (intros X; by apply X).
    cbn [current_route current_vehicle last_timestamp headways_by_route
         PyDict.get PyDict.set].
    destruct (decide (Some r = Some r)); [|done].
    rewrite lookup_singleton_eq, insert_singleton_eq.
    destruct (IH (hs ++ [(Time.total_seconds (ev_timestamp e - last)%Z / 60)%Q])
                (ev_timestamp e)) as [last' ->].
    { intros e' He'. apply H. by right. }
    exists last'. by rewrite <- app_assoc.
Qed.

Lemma single_vehicle_as_specified r v e events :
  (forall e', e' ∈ e :: events ->
              ev_route_id e' = Some r /\ ev_vehicle_id e' = v) ->
  emitted_headways (e :: events)
  = Some [(Some r, per_vehicle_headways ∅ (e :: events))].
Proof.
  intros H. destruct (H e) as [Hr Hv]; [left|].
  unfold emitted_headways. cbn [walk_events per_vehicle_headways]. unfold step.
  cbn [walk_init current_route current_vehicle last_timestamp headways_by_route].
  rewrite Hr, Hv, lookup_empty, insert_empty.
  rewrite (bool_decide_true (Some r ≠ None)) by done.
  cbn [current_route current_vehicle last_timestamp headways_by_route
       PyDict.mem PyDict.get PyDict.set].
  rewrite (bool_decide_true (Some v ≠ None)) by done.
  destruct (walk_single_vehicle r v events [] (ev_timestamp e)) as [last' ->].
  { intros e' He'. apply H. by right. }
  reflexivity.
Qed.

(** C7 fails on the code: with two vehicles of one route seen in turn
    (a at minute 0, b at minute 1, a at minute 3), the second event of
    vehicle a should emit the 3-minute gap from its previous event; the
    walk keeps one current vehicle and one timestamp, starts over at
    every change of vehicle, and emits nothing. *)
Theorem interleaved_vehicles_emit_nothing :
  map Qred (per_vehicle_headways ∅ Samples.interleaved_events) = [3%Q]
  /\ select_events (Time.minutes 10) None Samples.interleaved_events
     = Samples.interleaved_events
  /\ emitted_headways Samples.interleaved_events
     = Some [(Some "Red"%string, [])]
  /\ get_headway_analysis (Time.minutes 10) None Samples.interleaved_events
     = Some [].
Proof. vm_compute. done. Qed.

End HeadwayProps.

(** ** Dicts and grouping *)

Module DictProps.

Section Dict.

Context {K V : Type} `{EqDecision K}.
Implicit Types (d : PyDict.dict K V) (k : K) (v : V).

Lemma get_app_None d d' k :
  PyDict.get k d = None -> PyDict.get k (d ++ d') = PyDict.get k d'.
Proof.
  induction d as [|[k' v'] d IH]; cbn; [done|].
  destruct (decide (k = k')); [done|]. apply IH.
Qed.

Lemma set_absent d k v :
  PyDict.get k d = None -> PyDict.set k v d = d ++ [(k, v)].
Proof.
  induction d as [|[k' v'] d IH]; cbn; [done|].
  destruct (decide (k = k')); [done|]. intros H. by rewrite IH.
Qed.

Lemma set_set d k v v' :
  PyDict.set k v (PyDict.set k v' d) = PyDict.set k v d.
Proof.
  induction d as [|[k' v''] d IH]; cbn.
  - by destruct (decide (k = k)).
  - destruct (decide (k = k')) as [->|Hne]; cbn.
    + by destruct (decide (k' = k')).
    + destruct (decide (k = k')); [done|]. by rewrite IH.
Qed.

Lemma get_set d k v : PyDict.get k (PyDict.set k v d) = Some v.
Proof.
  induction d as [|[k' v''] d IH]; cbn.
  - by destruct (decide (k = k)).
  - destruct (decide (k = k')) as [->|Hne]; cbn.
    + by destruct (decide (k' = k')).
    + by destruct (decide (k = k')).
Qed.

(** Entering a missing key with a default before an update changes
    nothing. *)
Lemma set_after_default d k (dflt : V) (g : V -> V) :
  let d1 := if PyDict.mem k d then d else PyDict.set k dflt d in
  PyDict.set k (g (default dflt (PyDict.get k d1))) d1
  = PyDict.set k (g (default dflt (PyDict.get k d))) d.
Proof.
  unfold PyDict.mem. destruct (PyDict.get k d) as [v|] eqn:E; cbn.
  - by rewrite E.
  - by rewrite get_set, set_set.
Qed.

(** A dict tabulating [f] over distinct keys. *)
Lemma get_tabulate (f : K -> V) (ks : list K) k :
  PyDict.get k (map (fun k' => (k', f k')) ks)
  = if decide (k ∈ ks) then Some (f k) else None.
Proof.
  induction ks as [|k' ks IH]; cbn.
  - destruct (decide (k ∈ [])) as [H|]; [|done]. by apply elem_of_nil in H.
  - destruct (decide (k = k')) as [->|Hne].
    + rewrite decide_True; [done|left].
    + rewrite IH. destruct (decide (k ∈ ks)).
      * rewrite decide_True; [done|by right].
      * rewrite decide_False; [done|]. by intros [?|?]%elem_of_cons.
Qed.

Lemma set_tabulate (f : K -> V) (ks : list K) k v :
  NoDup ks -> k ∈ ks ->
  PyDict.set k v (map (fun k' => (k', f k')) ks)
  = map (fun k' => (k', if decide (k' = k) then v else f k')) ks.
Proof.
  induction ks as [|k' ks IH]; cbn; intros Hnd Hin.
  - by apply elem_of_nil in Hin.
  - apply NoDup_cons in Hnd as [Hk' Hnd].
    destruct (decide (k = k')) as [->|Hne].
    + rewrite decide_True by done. f_equal.
      apply map_ext_in. intros k Hk%list_elem_of_In.
      rewrite decide_False; [done|]. by intros ->.
    + rewrite decide_False by done. f_equal. apply IH; [done|].
      by apply elem_of_cons in Hin as [?|?].
Qed.

End Dict.

(** *** First occurrences *)

Section FirstOccurrences.

Context {A : Type} `{EqDecision A}.
Implicit Types (l : list A) (x : A).

Import DelayCalculator.

Lemma first_occurrences_snoc l x :
  first_occurrences (l ++ [x])
  = if decide (x ∈ first_occurrences l) then first_occurrences l
    else first_occurrences l ++ [x].
Proof. unfold first_occurrences. by rewrite fold_left_app. Qed.

Lemma elem_of_first_occurrences l x : x ∈ first_occurrences l <-> x ∈ l.
Proof.
  induction l as [|y l IH] using rev_ind; [done|].
  rewrite first_occurrences_snoc, elem_of_app, list_elem_of_singleton.
  destruct (decide (y ∈ first_occurrences l)) as [Hy|Hy].
  - rewrite IH. split; [by left|]. intros [?| ->]; [done|]. by apply IH.
  - by rewrite elem_of_app, list_elem_of_singleton, IH.
Qed.

Lemma NoDup_first_occurrences l : NoDup (first_occurrences l).
Proof.
  induction l as [|y l IH] using rev_ind; [apply NoDup_nil_2|].
  rewrite first_occurrences_snoc.
  destruct (decide (y ∈ first_occurrences l)) as [Hy|Hy]; [done|].
  apply NoDup_app. repeat split; [done| |apply NoDup_singleton].
  intros x Hx ->%list_elem_of_singleton. done.
Qed.

End FirstOccurrences.

(** *** Grouping by a key *)

Section Grouping.

Context {E K : Type} `{EqDecision K} (key : E -> K).

Import DelayCalculator.

Lemma filter_key_absent es k :
  k ∉ map key es -> filter (fun e => key e = k) es = [].
Proof.
  induction es as [|e es IH]; intros H; [done|].
  rewrite filter_cons. destruct (decide (key e = k)) as [<-|_].
  - exfalso. apply H. left.
  - apply IH. intros ?. apply H. by right.
Qed.

Lemma table_snoc es e :
  PyDict.group1 key (table key es) e = table key (es ++ [e]).
Proof.
  unfold PyDict.group1, table. rewrite get_tabulate, map_app. cbn [map].
  rewrite first_occurrences_snoc.
  destruct (decide (key e ∈ first_occurrences (map key es))) as [Hin|Hnin].
  - cbn [default]. rewrite set_tabulate by (done || apply NoDup_first_occurrences).
    apply map_ext_in. intros k _. f_equal. rewrite filter_app, filter_cons, filter_nil.
    destruct (decide (k = key e)) as [->|Hne].
    + by rewrite decide_True.
    + rewrite decide_False by done. by rewrite app_nil_r.
  - rewrite set_absent.
    2:{ rewrite get_tabulate. by rewrite decide_False. }
    rewrite map_app. cbn [map default]. f_equal.
    + apply map_ext_in. intros k Hk%list_elem_of_In. f_equal.
      rewrite filter_app, filter_cons, filter_nil.
      rewrite decide_False; [by rewrite app_nil_r|].
      intros E'. apply Hnin. by rewrite E'.
    + f_equal. f_equal. rewrite filter_app, filter_cons, filter_nil.
      rewrite decide_True by done. rewrite filter_key_absent; [done|].
      intros H. apply Hnin. by apply elem_of_first_occurrences.
Qed.

End Grouping.

End DictProps.

(** ** Delay calculator *)

Module DelayProps.

Import Database DelayCalculator DictProps Ordering.

(** *** The grouping loop *)

Lemma group_event_alt d e :
  group_event d e
  = PyDict.set (hour_of e)
      (PyDict.group1 ev_vehicle_id (default [] (PyDict.get (hour_of e) d)) e) d.
Proof.
  unfold group_event, PyDict.group1. fold (hour_of e).
  rewrite (set_after_default _ (ev_vehicle_id e) [] (fun l => l ++ [e])).
  apply (set_after_default d (hour_of e) []
           (fun vs => PyDict.set (ev_vehicle_id e)
                        (default [] (PyDict.get (ev_vehicle_id e) vs) ++ [e]) vs)).
Qed.

Lemma events_in_hour_snoc h es e :
  events_in_hour h (es ++ [e])
  = events_in_hour h es ++ (if decide (hour_of e = h) then [e] else []).
Proof.
  unfold events_in_hour. rewrite filter_app, filter_cons, filter_nil.
  unfold hour_of. by destruct (decide (Time.hour (ev_timestamp e) = h)).
Qed.

Lemma grouped_snoc es e : group_event (grouped es) e = grouped (es ++ [e]).
Proof.
  rewrite group_event_alt. unfold grouped. rewrite get_tabulate, map_app.
  cbn [map]. rewrite first_occurrences_snoc.
  destruct (decide (hour_of e ∈ first_occurrences (map hour_of es)))
    as [Hin|Hnin]; cbn [default from_option id].
  - rewrite table_snoc.
    rewrite set_tabulate by (done || apply NoDup_first_occurrences).
    apply map_ext_in. intros h _. f_equal. rewrite events_in_hour_snoc.
    destruct (decide (h = hour_of e)) as [->|Hne].
    + by rewrite decide_True.
    + rewrite decide_False by done. by rewrite app_nil_r.
  - rewrite set_absent by (by rewrite get_tabulate, decide_False).
    rewrite map_app. cbn [map]. f_equal.
    + apply map_ext_in. intros h Hh%list_elem_of_In. f_equal.
      rewrite events_in_hour_snoc, decide_False; [by rewrite app_nil_r|].
      intros E'. apply Hnin. by rewrite E'.
    + f_equal. f_equal. rewrite events_in_hour_snoc, decide_True by done.
      unfold events_in_hour. fold (hour_of).
      rewrite (filter_key_absent hour_of).
      * by rewrite <- table_snoc.
      * intros H. apply Hnin. by apply elem_of_first_occurrences.
Qed.

Lemma group_events_grouped events : group_events events = grouped events.
Proof.
  unfold group_events.
  induction events as [|e es IH] using rev_ind; [done|].
  by rewrite fold_left_app, IH; cbn; rewrite grouped_snoc.
Qed.

(** *** The delays of an hour *)

Lemma consecutive_delays_samples hw l :
  consecutive_delays hw l = vehicle_samples hw l.
Proof.
  unfold vehicle_samples.
  induction l as [|a [|b l] IH]; [done|done|].
  cbn [consecutive_delays tail zip zip_with map fst snd] in *.
  by rewrite IH.
Qed.

Lemma vehicle_delays_samples hw l :
  vehicle_delays hw l = vehicle_samples hw l.
Proof.
  unfold vehicle_delays. rewrite consecutive_delays_samples.
  by destruct l as [|a [|b l]].
Qed.

Lemma hour_delays_table hw h events :
  hour_delays hw (table ev_vehicle_id (events_in_hour h events))
  = hour_samples hw h events.
Proof.
  unfold hour_delays, hour_samples, table, events_of_vehicle.
  induction (first_occurrences (map ev_vehicle_id (events_in_hour h events)))
    as [|v vs IH]; [done|].
  cbn. by rewrite IH, vehicle_delays_samples.
Qed.

Lemma hour_samples_no_event hw h events :
  h ∉ map hour_of events -> hour_samples hw h events = [].
Proof.
  intros H. unfold hour_samples, events_in_hour. fold hour_of.
  by rewrite (filter_key_absent hour_of).
Qed.

(** *** Lookups in the table *)

Lemma find_index_Some {A} (p : A -> bool) l i :
  find_index p l = Some i ->
  exists x, l !! i = Some x /\ p x = true
            /\ forall j y, (j < i)%nat -> l !! j = Some y -> p y = false.
Proof.
  revert i. induction l as [|x l IH]; intros i H; cbn in H; [done|].
  destruct (p x) eqn:E.
  - injection H as <-. exists x. repeat split; [done|]. intros j y Hj. lia.
  - destruct (find_index p l) as [i'|] eqn:F; [|done]. injection H as <-.
    destruct (IH i' eq_refl) as (y & Hy & Hp & Hlt).
    exists y. repeat split; [done..|].
    intros [|j] z Hj Hz; cbn in Hz.
    + congruence.
    + apply (Hlt j); [lia|done].
Qed.

Lemma find_index_None {A} (p : A -> bool) l :
  find_index p l = None <-> filter (fun x => p x = true) l = [].
Proof.
  induction l as [|x l IH]; cbn [find_index]; [done|]. rewrite filter_cons.
  destruct (p x) eqn:E.
  - rewrite decide_True by done. done.
  - rewrite decide_False by (by intros ?). rewrite <- IH.
    destruct (find_index p l); cbn; done.
Qed.

Lemma find_index_ext {A} (p : A -> bool) l l' :
  map p l = map p l' -> find_index p l = find_index p l'.
Proof.
  revert l'. induction l as [|x l IH]; intros [|x' l'] H; try done.
  cbn in *. injection H as -> H. by rewrite (IH l').
Qed.

Lemma find_index_snoc {A} (p : A -> bool) l x :
  find_index p l = None -> p x = true ->
  find_index p (l ++ [x]) = Some (length l).
Proof.
  intros H Hx. induction l as [|y l IH]; cbn in *.
  - by rewrite Hx.
  - destruct (p y); [done|].
    destruct (find_index p l); [done|]. by rewrite IH.
Qed.

Lemma find_index_app_Some {A} (p : A -> bool) l l' i :
  find_index p l = Some i -> find_index p (l ++ l') = Some i.
Proof.
  revert i. induction l as [|y l IH]; intros i H; cbn in *; [done|].
  destruct (p y); [done|].
  destruct (find_index p l) as [j|]; [|done].
  by rewrite (IH j).
Qed.

Lemma matches_overwrite r h a n t x :
  matches r h (overwrite a n t x) = matches r h x.
Proof. reflexivity. Qed.

Lemma map_matches_alter r h a n t i l :
  map (matches r h) (alter (overwrite a n t) i l) = map (matches r h) l.
Proof.
  revert i. induction l as [|x l IH]; intros [|i]; cbn; try done.
  by rewrite IH.
Qed.

Lemma rows_for_alter r h a n t i l :
  length (rows_for r h (alter (overwrite a n t) i l))
  = length (rows_for r h l).
Proof.
  unfold rows_for. revert i. induction l as [|x l IH]; intros [|i];
    cbn [alter list_alter]; try done.
  - rewrite !filter_cons, matches_overwrite.
    by destruct (decide (matches r h x = true)).
  - rewrite !filter_cons.
    destruct (decide (matches r h x = true)); cbn; by rewrite IH.
Qed.

Lemma rows_for_alter_other r h f i l :
  (forall x, l !! i = Some x ->
             matches r h x = false /\ matches r h (f x) = false) ->
  rows_for r h (alter f i l) = rows_for r h l.
Proof.
  unfold rows_for. revert i. induction l as [|x l IH]; intros [|i] H;
    cbn [alter list_alter]; try done.
  - destruct (H x eq_refl) as [H1 H2]. rewrite !filter_cons.
    rewrite !decide_False; [done| |]; by intros ?; congruence.
  - rewrite !filter_cons, IH; [done|]. intros y Hy. by apply (H y).
Qed.

Lemma find_index_agree {A} (p : A -> bool) l0 l i :
  (forall j x0, l0 !! j = Some x0 ->
                exists x, l !! j = Some x /\ p x = p x0) ->
  find_index p l0 = Some i -> find_index p l = Some i.
Proof.
  revert l i. induction l0 as [|x0 l0 IH]; intros l i H F; cbn in F; [done|].
  destruct (H 0%nat x0 eq_refl) as (x & Hx & Hp).
  destruct l as [|x' l]; [done|]. cbn in Hx. injection Hx as ->.
  cbn. rewrite Hp. destruct (p x0); [done|].
  destruct (find_index p l0) as [i'|] eqn:F'; [|done]. injection F as <-.
  rewrite (IH l i'); [done| |done].
  intros j y0 Hj. apply (H (S j) y0 Hj).
Qed.

Lemma matches_true r h x :
  matches r h x = true <-> rd_route_id x = r /\ rd_hour_of_day x = h.
Proof.
  unfold matches. rewrite andb_true_iff, bool_decide_eq_true, Z.eqb_eq. done.
Qed.

Lemma matches_other_hour r h h' x :
  matches r h' x = true -> h' <> h -> matches r h x = false.
Proof.
  intros [_ H]%matches_true Hne. apply not_true_iff_false.
  intros [_ H']%matches_true. congruence.
Qed.

(** *** The update loop on the rows *)

Section Update.

Variables (r : string) (name : option string) (now : Time.datetime) (hw : Z).
Variable rows0 : list RouteDelay.

Local Abbreviation step := (hour_update r name now hw rows0).

Lemma agrees_refl : agrees rows0 rows0.
Proof. intros i x0 H. by exists x0. Qed.

Lemma step_agrees working item :
  agrees rows0 working -> agrees rows0 (step working item).
Proof.
  intros Hag. unfold hour_update.
  destruct (hour_delays hw (snd item)) as [|d ds]; [done|].
  destruct (find_index (matches r (fst item)) rows0) as [i|].
  - intros j x0 Hj. destruct (Hag j x0 Hj) as (x & Hx & Hm).
    destruct (decide (i = j)) as [->|Hne].
    + eexists. rewrite list_lookup_alter_eq, Hx. split; [done|].
      intros r' h'. by rewrite matches_overwrite.
    + exists x. by rewrite list_lookup_alter_ne.
  - intros j x0 Hj. destruct (Hag j x0 Hj) as (x & Hx & Hm).
    exists x. split; [|done]. by apply lookup_app_l_Some.
Qed.

Lemma step_other working item h :
  agrees rows0 working ->
  fst item <> h \/ hour_delays hw (snd item) = [] ->
  rows_for r h (step working item) = rows_for r h working
  /\ stored r h (step working item) = stored r h working.
Proof.
  intros Hag Hcase. unfold hour_update.
  destruct (hour_delays hw (snd item)) as [|d ds] eqn:Hds; [done|].
  destruct Hcase as [Hne|?]; [|done].
  destruct (find_index (matches r (fst item)) rows0) as [i|] eqn:F.
  - apply find_index_Some in F as (x0 & Hx0 & Hp0 & _).
    destruct (Hag i x0 Hx0) as (x & Hx & Hm).
    assert (Hx_other : matches r h x = false).
    { rewrite Hm. by apply (matches_other_hour r h (fst item)). }
    split.
    + apply rows_for_alter_other. intros y Hy.
      rewrite Hx in Hy. injection Hy as <-. by rewrite matches_overwrite.
    + unfold stored.
      rewrite (find_index_ext _ _ working) by apply map_matches_alter.
      destruct (find_index (matches r h) working) as [j|] eqn:Fj; [|done].
      apply find_index_Some in Fj as (y & Hy & Hpy & _).
      apply list_lookup_alter_ne. intros ->. congruence.
  - set (new := {| rd_route_id := r; rd_route_name := name;
                   rd_hour_of_day := fst item;
                   rd_avg_delay_minutes := average (d :: ds);
                   rd_sample_count := length (d :: ds);
                   rd_calculated_at := now |}).
    assert (Hnew : matches r h new = false).
    { apply (matches_other_hour r h (fst item)); [|done].
      by apply matches_true. }
    split.
    + unfold rows_for. rewrite filter_app, filter_cons, filter_nil.
      rewrite decide_False by (by rewrite Hnew). by rewrite app_nil_r.
    + unfold stored.
      destruct (find_index (matches r h) working) as [j|] eqn:Fj.
      * rewrite (find_index_app_Some _ _ _ j Fj).
        apply find_index_Some in Fj as (y & Hy & _).
        rewrite Hy. by apply lookup_app_l_Some.
      * assert (find_index (matches r h) (working ++ [new]) = None) as ->;
          [|done].
        apply find_index_None. apply find_index_None in Fj.
        rewrite filter_app, Fj, filter_cons, filter_nil.
        by rewrite decide_False by (by rewrite Hnew).
Qed.

Lemma step_same working h vs d ds :
  agrees rows0 working ->
  rows_for r h working = rows_for r h rows0 ->
  hour_delays hw vs = d :: ds ->
  exists row,
    stored r h (step working (h, vs)) = Some row
    /\ rd_route_id row = r /\ rd_hour_of_day row = h
    /\ rd_avg_delay_minutes row = average (d :: ds)
    /\ rd_sample_count row = length (d :: ds)
    /\ rd_calculated_at row = now
    /\ length (rows_for r h (step working (h, vs)))
       = Nat.max 1 (length (rows_for r h rows0)).
Proof.
  intros Hag Hrows Hds. unfold hour_update. cbn [fst snd]. rewrite Hds.
  destruct (find_index (matches r h) rows0) as [i|] eqn:F.
  - assert (Fw : find_index (matches r h) working = Some i).
    { apply (find_index_agree _ rows0); [|done].
      intros j x0 Hj. destruct (Hag j x0 Hj) as (x & ? & ?). eauto. }
    assert (Hlen : (1 <= length (rows_for r h rows0))%nat).
    { destruct (rows_for r h rows0) eqn:E; [|cbn; lia].
      apply find_index_None in E. congruence. }
    apply find_index_Some in F as (x0 & Hx0 & Hp0 & _).
    destruct (Hag i x0 Hx0) as (x & Hx & Hm).
    assert (Hpx : matches r h x = true) by (by rewrite Hm).
    apply matches_true in Hpx as [Hr Hh].
    exists (overwrite (average (d :: ds)) (length (d :: ds)) now x).
    repeat split; try done.
    + unfold stored.
      rewrite (find_index_ext _ _ working) by apply map_matches_alter.
      by rewrite Fw, list_lookup_alter_eq, Hx.
    + rewrite rows_for_alter, Hrows. lia.
  - apply find_index_None in F. fold (rows_for r h rows0) in F.
    assert (Fw : find_index (matches r h) working = None).
    { apply find_index_None. fold (rows_for r h working). congruence. }
    eexists. repeat split.
    + unfold stored. rewrite find_index_snoc; [|done|by apply matches_true].
      by apply list_lookup_middle.
    + done.
    + done.
    + done.
    + done.
    + done.
    + unfold rows_for in *. rewrite filter_app, filter_cons, filter_nil.
      rewrite decide_True by (by apply matches_true).
      by rewrite Hrows, F.
Qed.

(** Items of other hours, and items without samples, leave the rows
    of an hour as they are. *)
Lemma fold_other items working h :
  agrees rows0 working ->
  (forall item, item ∈ items ->
                fst item <> h \/ hour_delays hw (snd item) = []) ->
  rows_for r h (fold_left step items working) = rows_for r h working
  /\ stored r h (fold_left step items working) = stored r h working
  /\ agrees rows0 (fold_left step items working).
Proof.
  revert working. induction items as [|item items IH]; intros working Hag H.
  - done.
  - cbn [fold_left].
    destruct (step_other working item h Hag) as [E1 E2]; [apply H; left|].
    destruct (IH (step working item)) as (E3 & E4 & Hag').
    + by apply step_agrees.
    + intros it Hit. apply H. by right.
    + rewrite E3, E4. done.
Qed.

Lemma fold_same items h vs d ds :
  NoDup (map fst items) ->
  (h, vs) ∈ items ->
  hour_delays hw vs = d :: ds ->
  exists row,
    stored r h (fold_left step items rows0) = Some row
    /\ rd_route_id row = r /\ rd_hour_of_day row = h
    /\ rd_avg_delay_minutes row = average (d :: ds)
    /\ rd_sample_count row = length (d :: ds)
    /\ rd_calculated_at row = now
    /\ length (rows_for r h (fold_left step items rows0))
       = Nat.max 1 (length (rows_for r h rows0)).
Proof.
  intros Hnd Hin Hds.
  apply list_elem_of_split in Hin as (pre & post & ->).
  rewrite map_app in Hnd. cbn [map fst] in Hnd.
  apply NoDup_app in Hnd as (_ & Hpre & Hpost).
  apply NoDup_cons in Hpost as [Hpost _].
  assert (Hpre' : forall item, item ∈ pre ->
                    fst item <> h \/ hour_delays hw (snd item) = []).
  { intros item Hitem. left. intros E. apply (Hpre h).
    - rewrite <- E. apply list_elem_of_fmap. eauto.
    - left. }
  assert (Hpost' : forall item, item ∈ post ->
                     fst item <> h \/ hour_delays hw (snd item) = []).
  { intros item Hitem. left. intros E. apply Hpost.
    rewrite <- E. apply list_elem_of_fmap. eauto. }
  rewrite fold_left_app. cbn [fold_left].
  destruct (fold_other pre rows0 h agrees_refl Hpre') as (E1 & _ & Hag).
  destruct (step_same _ h vs d ds Hag E1 Hds) as (row & Hrow).
  destruct (fold_other post (step (fold_left step pre rows0) (h, vs)) h)
    as (E3 & E4 & _); [by apply step_agrees|done|].
  exists row. rewrite E3, E4. done.
Qed.

End Update.

(** *** The request in the session *)

Ltac run_session :=
  unfold update_hour, query_route_delay, query_events, set_route_delays,
    commit, rollback, logger, set_txn, storage, modify, get,
    bind, ret, raise, try_except in *.

Lemma elem_of_snoc {A} (l : list A) (x y : A) :
  y ∈ l ++ [x] <-> y ∈ l \/ y = x.
Proof. by rewrite elem_of_app, list_elem_of_singleton. Qed.

Section Run.

Variable fault : db_op -> bool.
Variable now : Time.datetime.
Variables (r : string) (name : option string) (hw : Z).

Lemma update_hour_run item w :
  match update_hour fault now r name hw item w with
  | (inr _, w') =>
      db w' = db w /\ log w' = log w
      /\ vehicles (txn w') = vehicles (txn w)
      /\ telemetry_events (txn w') = telemetry_events (txn w)
      /\ route_delays (txn w')
         = hour_update r name now hw (route_delays (db w))
             (route_delays (txn w)) item
      /\ (forall op, op ∈ ops w' -> op ∈ ops w \/ fault op = false)
  | (inl e, w') =>
      db w' = db w /\ log w' = log w
      /\ exists op, op ∈ ops w' /\ fault op = true /\ e = OperationalError op
  end.
Proof.
  unfold hour_update. run_session.
  destruct (hour_delays hw (snd item)) as [|d ds]; cbn.
  { repeat split; try done. by left. }
  destruct (fault (QueryRouteDelay (fst item))) eqn:F; cbn.
  { repeat split; try done. exists (QueryRouteDelay (fst item)).
    repeat split; try done. apply elem_of_snoc. by right. }
  destruct (find_index (matches r (fst item)) (route_delays (db w))); cbn;
    repeat split; try done;
    intros op [?| ->]%elem_of_snoc; auto.
Qed.

Lemma for_each_run items w :
  match for_each items (update_hour fault now r name hw) w with
  | (inr _, w') =>
      db w' = db w /\ log w' = log w
      /\ vehicles (txn w') = vehicles (txn w)
      /\ telemetry_events (txn w') = telemetry_events (txn w)
      /\ route_delays (txn w')
         = fold_left (hour_update r name now hw (route_delays (db w))) items
             (route_delays (txn w))
      /\ (forall op, op ∈ ops w' -> op ∈ ops w \/ fault op = false)
  | (inl e, w') =>
      db w' = db w /\ log w' = log w
      /\ exists op, op ∈ ops w' /\ fault op = true /\ e = OperationalError op
  end.
Proof.
  revert w. induction items as [|item items IH]; intros w; cbn [for_each].
  { cbn. repeat split; try done. by left. }
  unfold bind. pose proof (update_hour_run item w) as H1.
  destruct (update_hour fault now r name hw item w) as [[e|[]] w1]; [done|].
  destruct H1 as (Hdb & Hlog & Hv & He & Hrd & Hops).
  pose proof (IH w1) as H2.
  destruct (for_each items (update_hour fault now r name hw) w1)
    as [[e|[]] w2].
  - destruct H2 as (Hdb2 & Hlog2 & Hop). repeat split; congruence.
  - destruct H2 as (Hdb2 & Hlog2 & Hv2 & He2 & Hrd2 & Hops2).
    repeat split; try congruence.
    + cbn [fold_left]. rewrite Hrd2, Hrd, Hdb. done.
    + intros op Hop. destruct (Hops2 op Hop) as [H|H]; auto.
Qed.

End Run.

(** *** The start of the window *)


Lemma cutoff_in_range now hours_back :
  Time.MIN <= now <= Time.MAX ->
  Time.MIN <= now - Time.hours hours_back <= Time.MAX ->
  Time.timedelta_hours hours_back ≫= Time.minus now
  = Some (now - Time.hours hours_back).
Proof.
  intros Hnow Hcut. unfold Time.timedelta_hours, Time.minus.
  unfold Time.MIN, Time.MAX, Time.hours in *.
  assert (-999999999 <= hours_back / 24).
  { apply Z.div_le_lower_bound; lia. }
  assert (hours_back / 24 <= 999999999).
  { apply Z.div_le_upper_bound; lia. }
  assert (((-999999999 <=? hours_back / 24)
           && (hours_back / 24 <=? 999999999)) = true) as -> by lia.
  cbn.
  by assert (((-62135596800000000 <=? now - hours_back * 3600000000)
              && (now - hours_back * 3600000000 <=? 253402300799999999))
             = true) as -> by lia.
Qed.

(** The recomputation from a session without pending changes. *)
Lemma calculate_run_from fault now r hours_back d ops0 log0 :
  match calculate_route_delays fault now r hours_back
          {| db := d; txn := d; ops := ops0; log := log0 |} with
  | (inr _, w') =>
      (forall op, op ∈ ops w' -> op ∈ ops0 \/ fault op = false)
      /\ (exists l, log w' = log0 ++ l /\ existsb is_error l = false)
      /\ vehicles (db w') = vehicles d
      /\ telemetry_events (db w') = telemetry_events d
      /\ txn w' = db w'
      /\ exists cutoff_time,
           Time.timedelta_hours hours_back ≫= Time.minus now = Some cutoff_time
           /\ route_delays (db w')
              = fold_left
                  (hour_update r
                     (head (select_events r cutoff_time (telemetry_events d))
                      ≫= ev_route_id)
                     now (scheduled_headway_of r) (route_delays d))
                  (group_events
                     (select_events r cutoff_time (telemetry_events d)))
                  (route_delays d)
  | (inl e, w') =>
      db w' = d /\ txn w' = d
      /\ log w' = log0 ++ [Error "Error calculating delays for route" e]
      /\ ((e = OverflowError /\ ops w' = ops0
           /\ Time.timedelta_hours hours_back ≫= Time.minus now = None)
          \/ exists op, op ∈ ops w' /\ fault op = true
                        /\ e = OperationalError op)
  end.
Proof.
  unfold calculate_route_delays, cutoff_before, query_events, try_except,
    bind, storage, get, ret, raise.
  destruct (Time.timedelta_hours hours_back ≫= Time.minus now)
    as [cutoff_time|] eqn:Hc;
    cbn -[select_events for_each group_events].
  2:{ repeat split; try done. by left. }
  destruct (fault QueryEvents) eqn:F1; cbn -[select_events for_each group_events].
  { repeat split; try done. right. exists QueryEvents. repeat split; try done.
    apply elem_of_snoc. by right. }
  set (events := select_events r cutoff_time (telemetry_events d)).
  destruct events as [|first rest] eqn:Ev;
    cbn -[select_events for_each group_events].
  { split; [|split; [|split; [done|split; [done|split; [done|]]]]].
    - intros op [?| ->]%elem_of_snoc; auto.
    - eexists. split; [done|]. done.
    - exists cutoff_time. split; [done|]. fold events. by rewrite Ev. }
  match goal with
  | |- context [for_each ?items ?body ?w] =>
      pose proof (for_each_run fault now r (ev_route_id first)
                    (scheduled_headway_of r) items w) as H;
      destruct (for_each items body w) as [[e|[]] w1]
  end; cbn in H; cbn -[group_events].
  - destruct H as (Hdb & Hlog & Hop). rewrite Hdb, Hlog.
    repeat split; try done. by right.
  - destruct H as (Hdb & Hlog & Hv & He & Hrd & Hops).
    unfold commit, storage, modify, logger, bind. cbn -[group_events].
    destruct (fault Commit) eqn:F2; cbn -[group_events].
    + rewrite Hdb, Hlog. repeat split; try done. right.
      exists Commit. repeat split; try done. apply elem_of_snoc. by right.
    + rewrite Hlog, Hv, He, Hrd.
      split; [|split; [|split; [done|split; [done|split; [done|]]]]].
      * intros op [Hop| ->]%elem_of_snoc; [|by right].
        destruct (Hops op Hop) as [[?| ->]%elem_of_snoc|?]; auto.
      * eexists. split; [done|]. done.
      * exists cutoff_time. split; [done|]. fold events. by rewrite Ev.
Qed.

Lemma calculate_run fault now r hours_back d :
  match calculate_route_delays fault now r hours_back (open_session d []) with
  | (inr _, w') =>
      (forall op, op ∈ ops w' -> fault op = false)
      /\ existsb is_error (log w') = false
      /\ vehicles (db w') = vehicles d
      /\ telemetry_events (db w') = telemetry_events d
      /\ txn w' = db w'
      /\ exists cutoff_time,
           Time.timedelta_hours hours_back ≫= Time.minus now = Some cutoff_time
           /\ route_delays (db w')
              = fold_left
                  (hour_update r
                     (head (select_events r cutoff_time (telemetry_events d))
                      ≫= ev_route_id)
                     now (scheduled_headway_of r) (route_delays d))
                  (group_events
                     (select_events r cutoff_time (telemetry_events d)))
                  (route_delays d)
  | (inl e, w') =>
      db w' = d /\ txn w' = d
      /\ log w' = [Error "Error calculating delays for route" e]
      /\ ((e = OverflowError /\ ops w' = []
           /\ Time.timedelta_hours hours_back ≫= Time.minus now = None)
          \/ exists op, op ∈ ops w' /\ fault op = true
                        /\ e = OperationalError op)
  end.
Proof.
  pose proof (calculate_run_from fault now r hours_back d [] []) as H.
  unfold open_session.
  destruct (calculate_route_delays _ _ _ _ _) as [[e|[]] w']; [done|].
  destruct H as (Hops & (l & Hlog & Hl) & H).
  split; [|split; [|done]].
  - intros op Hop. destruct (Hops op Hop) as [Hnil|?]; [|done].
    by apply elem_of_nil in Hnil.
  - by rewrite Hlog.
Qed.

Lemma grouped_items events (item : Z * by_vehicle) :
  item ∈ grouped events ->
  snd item = table ev_vehicle_id (events_in_hour (fst item) events).
Proof. unfold grouped. by intros (h & -> & _)%list_elem_of_fmap. Qed.

Lemma grouped_keys events : map fst (grouped events)
                            = first_occurrences (map hour_of events).
Proof.
  unfold grouped. rewrite map_map. cbn. apply map_id.
Qed.

(** The example of the specification: with an expected headway of 6
    minutes, two arrivals 9 minutes apart give a delay of +3 minutes. *)
Lemma nine_minute_gap_delay a b :
  ev_timestamp b - ev_timestamp a = Time.minutes 9 ->
  (delay_between 6 a b == 3)%Q.
Proof. intros H. unfold delay_between. rewrite H. reflexivity. Qed.

(** A delay is the gap in minutes minus the expected headway. *)
Lemma delay_between_minutes hw a b :
  (delay_between hw a b
   == inject_Z (ev_timestamp b - ev_timestamp a) / inject_Z 60000000
      - inject_Z hw)%Q.
Proof.
  unfold delay_between, Time.total_seconds. rewrite Qmake_Qdiv.
  change (inject_Z (Z.pos 1000000)) with (inject_Z 1000000).
  field.
Qed.

Lemma fold_left_Qplus l a :
  (fold_left Qplus l a == a + fold_right Qplus 0 l)%Q.
Proof.
  revert a. induction l as [|x l IH]; intros a; cbn.
  - ring.
  - rewrite IH. ring.
Qed.

(** The average is the sum of the delays over their number. *)
Lemma average_sum delays :
  (average delays
   == fold_right Qplus 0 delays / inject_Z (Z.of_nat (length delays)))%Q.
Proof.
  unfold average, py_sum. rewrite fold_left_Qplus. by rewrite Qplus_0_l.
Qed.

(** The rows of an hour after the update loop over the grouped
    events. *)
Lemma fold_grouped_hour r name now hw rows0 events h :
  let rows1 := fold_left (hour_update r name now hw rows0) (grouped events)
                 rows0 in
  match hour_samples hw h events with
  | [] => rows_for r h rows1 = rows_for r h rows0
  | samples =>
      exists row,
        stored r h rows1 = Some row
        /\ rd_route_id row = r /\ rd_hour_of_day row = h
        /\ rd_avg_delay_minutes row = average samples
        /\ rd_sample_count row = length samples
        /\ rd_calculated_at row = now
        /\ length (rows_for r h rows1) = Nat.max 1 (length (rows_for r h rows0))
  end.
Proof.
  intros rows1. subst rows1.
  assert (Hitems : forall item, item ∈ grouped events -> fst item = h ->
                     hour_delays hw (snd item) = hour_samples hw h events).
  { intros item Hitem <-. rewrite (grouped_items _ _ Hitem).
    apply hour_delays_table. }
  destruct (hour_samples hw h events) as [|s ss] eqn:Hs.
  - apply fold_other; [apply agrees_refl|].
    intros item Hitem. destruct (decide (fst item = h)) as [E|Hne]; auto.
  - assert (Hin : h ∈ first_occurrences (map hour_of events)).
    { apply DictProps.elem_of_first_occurrences.
      destruct (decide (h ∈ map hour_of events)) as [?|Hnin]; [done|].
      apply (hour_samples_no_event hw) in Hnin. congruence. }
    apply (fold_same _ _ _ _ _ (grouped events) h
             (table ev_vehicle_id (events_in_hour h events))).
    + rewrite grouped_keys. apply DictProps.NoDup_first_occurrences.
    + unfold grouped. apply list_elem_of_fmap. eauto.
    + apply (Hitems (h, _)); [|done].
      unfold grouped. apply list_elem_of_fmap. eauto.
Qed.

(** C4: the clock reading and the start of the window being
    date-times, and no storage operation failing,
    [calculate_route_delays] returns.  Its events are the route's
    events since the start of the window, in time order; the delays
    of an hour of day (the hour of the event's timestamp) are,
    vehicle by vehicle, the gaps in minutes
    between consecutive events of the vehicle in that hour minus the
    route's expected headway (10 for a route not in the table, 6 for
    the Red line).  An hour without such a delay keeps its rows as
    they were, and an hour with some has its row (the one a lookup by
    route and hour returns) set to their average (their sum over
    their number), their number and the time of the calculation, an
    existing row being overwritten and a missing one created.  A
    9-minute gap against an expected headway of 6 is a delay of +3. *)
Theorem route_delays_by_hour (fault : db_op -> bool) (now : Time.datetime)
    (route_id : string) (hours_back : Z) (d : database) (hour : Z)
    (events : list TelemetryEvent) :
  (forall op, fault op = false) ->
  Time.MIN <= now <= Time.MAX ->
  Time.MIN <= now - Time.hours hours_back <= Time.MAX ->
  in_key_order ev_timestamp events
    (filter (fun e => ev_route_id e = Some route_id
                      /\ now - Time.hours hours_back <= ev_timestamp e)
       (telemetry_events d)) ->
  let samples := hour_samples (scheduled_headway_of route_id) hour events in
  let res := calculate_route_delays fault now route_id hours_back
               (open_session d []) in
  fst res = inr tt
  /\ (SCHEDULED_HEADWAYS !! route_id = None -> scheduled_headway_of route_id = 10)
  /\ scheduled_headway_of "Red" = 6
  /\ (forall hw a b,
        (delay_between hw a b
         == inject_Z (ev_timestamp b - ev_timestamp a) / inject_Z 60000000
            - inject_Z hw)%Q)
  /\ (forall a b, ev_timestamp b - ev_timestamp a = Time.minutes 9 ->
                  (delay_between 6 a b == 3)%Q)
  /\ (forall e, hour_of e = (ev_timestamp e / 3600000000) mod 24)
  /\ (forall r h x, matches r h x = true <->
                    rd_route_id x = r /\ rd_hour_of_day x = h)
  /\ match samples with
     | [] =>
         rows_for route_id hour (route_delays (db (snd res)))
         = rows_for route_id hour (route_delays d)
     | _ =>
         exists row,
           stored route_id hour (route_delays (db (snd res))) = Some row
           /\ rd_route_id row = route_id /\ rd_hour_of_day row = hour
           /\ (rd_avg_delay_minutes row
               == fold_right Qplus 0 samples
                  / inject_Z (Z.of_nat (length samples)))%Q
           /\ rd_sample_count row = length samples
           /\ rd_calculated_at row = now
           /\ length (rows_for route_id hour (route_delays (db (snd res))))
              = Nat.max 1 (length (rows_for route_id hour (route_delays d)))
     end.
Proof.
  intros Hok Hnow Hcut Hsel samples res. subst res.
  apply OrderProps.in_key_order_order_by in Hsel.
  fold (select_events route_id (now - Time.hours hours_back)
          (telemetry_events d)) in Hsel.
  pose proof (calculate_run fault now route_id hours_back d) as H.
  destruct (calculate_route_delays _ _ _ _ _) as [[e|[]] w]; cbn [fst snd].
  { destruct H as (_ & _ & _ & [(_ & _ & Hc)|(op & _ & F & _)]).
    - by rewrite (cutoff_in_range now hours_back Hnow Hcut) in Hc.
    - by rewrite Hok in F. }
  destruct H as (_ & _ & _ & _ & _ & c & Hc & Hrd).
  rewrite (cutoff_in_range now hours_back Hnow Hcut) in Hc.
  injection Hc as <-. rewrite <- Hsel in Hrd.
  split; [done|]. split; [by unfold scheduled_headway_of; intros ->|].
  split; [reflexivity|]. split; [apply delay_between_minutes|].
  split; [apply nine_minute_gap_delay|].
  split; [done|]. split; [apply matches_true|].
  rewrite Hrd, group_events_grouped.
  pose proof (fold_grouped_hour route_id (head events ≫= ev_route_id) now
                (scheduled_headway_of route_id) (route_delays d) events hour)
    as Hh.
  cbn zeta in Hh. fold samples in Hh.
  destruct samples as [|s ss] eqn:Hs; [done|].
  destruct Hh as (row & Hst & Hr & Hhr & Ha & Hn & Ht & Hlen).
  exists row. rewrite Ha. repeat split; try done. apply average_sum.
Qed.

Lemma route_delays_by_hour_witness :
  let res := calculate_route_delays Samples.no_fault (Time.minutes 30) "Red" 24
               (open_session Samples.nine_minutes_apart []) in
  exists row,
    stored "Red" 0 (route_delays (db (snd res))) = Some row
    /\ rd_sample_count row = 1%nat
    /\ (rd_avg_delay_minutes row == 3)%Q.
Proof.
  destruct (route_delays_by_hour Samples.no_fault (Time.minutes 30) "Red" 24
              Samples.nine_minutes_apart 0
              (telemetry_events Samples.nine_minutes_apart))
    as (_ & _ & _ & _ & _ & _ & _ & H).
  - reflexivity.
  - vm_compute. split; discriminate.
  - vm_compute. split; discriminate.
  - split.
    + cbn [ascending telemetry_events Samples.nine_minutes_apart].
      split; [|split; [constructor|exact I]].
      apply Forall_singleton. vm_compute. discriminate.
    + intros k.
      assert (filter (fun e => ev_route_id e = Some "Red"%string
                               /\ Time.minutes 30 - Time.hours 24
                                  <= ev_timestamp e)
                (telemetry_events Samples.nine_minutes_apart)
              = telemetry_events Samples.nine_minutes_apart) as ->
        by (vm_compute; reflexivity).
      reflexivity.
  - remember (hour_samples _ _ _) as samples eqn:E in H.
    vm_compute in E. subst samples.
    destruct H as (row & H1 & _ & _ & H2 & H3 & _).
    exists row. split; [|split].
    + exact H1.
    + exact H3.
    + rewrite H2. vm_compute. reflexivity.
Defined.

(** C9: a storage operation that fails during [calculate_route_delays]
    makes the call raise; whenever the call raises, the stored tables
    and the session are those before the call (nothing of the
    recomputation survives) and the failure is logged before it is
    raised again; the collector, under the same storage failures,
    returns normally. *)
Theorem recomputation_failure_is_raised (fault : db_op -> bool)
    (now : Time.datetime) (route_id : string) (hours_back : Z)
    (d : database) :
  let res := calculate_route_delays fault now route_id hours_back
               (open_session d []) in
  (forall op, op ∈ ops (snd res) -> fault op = true ->
              exists e, fst res = inl e)
  /\ (forall e, fst res = inl e ->
        db (snd res) = d /\ txn (snd res) = d
        /\ log (snd res) = [Error "Error calculating delays for route" e])
  /\ (forall net t,
        fst (Collector.collect_telemetry fault net t (open_session d []))
        = inr tt).
Proof.
  intros res. subst res.
  pose proof (calculate_run fault now route_id hours_back d) as H.
  cbn zeta in H.
  destruct (calculate_route_delays _ _ _ _ _) as [[e|[]] w]; cbn [fst snd].
  - destruct H as (Hdb & Htxn & Hlog & _). split; [eauto|]. split.
    + intros e' [= <-]. done.
    + intros net t.
      pose proof (CollectorProps.collect_run fault net t d) as Hc.
      cbn zeta in Hc. destruct (Collector.collect_telemetry _ _ _ _).
      by destruct Hc as [-> _].
  - destruct H as (Hops & _). split; [|split].
    + intros op Hop F. by rewrite (Hops op Hop) in F.
    + intros e [=].
    + intros net t.
      pose proof (CollectorProps.collect_run fault net t d) as Hc.
      cbn zeta in Hc. destruct (Collector.collect_telemetry _ _ _ _).
      by destruct Hc as [-> _].
Qed.

Lemma recomputation_failure_is_raised_witness :
  exists e,
    fst (calculate_route_delays Samples.commit_fails (Time.minutes 30) "Red" 24
           (open_session Samples.nine_minutes_apart [])) = inl e.
Proof.
  destruct (recomputation_failure_is_raised Samples.commit_fails
              (Time.minutes 30) "Red" 24 Samples.nine_minutes_apart)
    as (H & _).
  apply (H Commit).
  - vm_compute. repeat constructor.
  - reflexivity.
Defined.

End DelayProps.

(** ** Upstream client: results and final failures *)

Module ClientExtras.

Import MBTAClient.

(** The trace of the loop over the attempts [a, a+1, ...]: requests
    are numbered in order, and each sleep follows a request. *)
Lemma attempts_loop_trace net retries n a :
  exists k, (k <= n)%nat
    /\ requests (snd (attempts_loop net retries (seq a n))) = seq a k
    /\ (length (sleeps (snd (attempts_loop net retries (seq a n)))) <= k)%nat
    /\ (k = 0%nat -> n = 0%nat).
Proof.
  revert a. induction n as [|n IH]; intros a.
  - exists 0%nat. cbn. repeat split; lia.
  - cbn [seq attempts_loop].
    destruct (one_attempt (net a) a retries) as [w|r].
    + destruct (IH (S a)) as (k & Hk & Hreq & Hsl & _).
      destruct (attempts_loop net retries (seq (S a) n)) as [r tr].
      exists (S k). cbn in *. rewrite Hreq. repeat split; lia.
    + exists 1%nat. cbn. repeat split; lia.
Qed.

(** X1: whatever upstream does, [get_vehicles] issues at most [retries]
    requests, numbered 0, 1, ... in order, and sleeps at most once per
    request; with [retries = 0] it issues none and fails. *)
Theorem get_vehicles_bounded (net : nat -> http_outcome) (retries : nat) :
  (exists k, (k <= retries)%nat
     /\ requests (snd (get_vehicles net retries)) = seq 0 k
     /\ (length (sleeps (snd (get_vehicles net retries))) <= k)%nat)
  /\ get_vehicles net 0 = (None, []).
Proof.
  split; [|reflexivity].
  destruct (attempts_loop_trace net retries retries 0%nat) as (k & ? & ? & ? & _).
  exists k. done.
Qed.

(** A result comes from a 2xx response of one of the attempts. *)
Lemma attempts_loop_Some net retries attempts j :
  fst (attempts_loop net retries attempts) = Some j ->
  exists a status_code,
    a ∈ attempts /\ net a = Response status_code (Some j)
    /\ is_success status_code = true.
Proof.
  induction attempts as [|a rest IH]; cbn [attempts_loop]; [done|].
  destruct (one_attempt (net a) a retries) as [w|r] eqn:E.
  - destruct (attempts_loop net retries rest) as [r tr]. cbn. intros H.
    destruct (IH H) as (a' & s & Ha' & Hnet). exists a', s.
    split; [by right|done].
  - cbn. intros ->. exists a. unfold one_attempt, attempt_try in E.
    destruct (net a) as [s [j'|]| |].
    + destruct (s =? 429); [done|]. destruct (is_success s) eqn:Hs.
      * injection E as ->. exists s. split; [left|done].
      * cbn in E. destruct (_ && _); done.
    + destruct (s =? 429); [done|]. destruct (is_success s) eqn:Hs;
        cbn in E; repeat (destruct (_ && _) || destruct (_ <? _)); done.
    + cbn in E. destruct (_ <? _); done.
    + cbn in E. destruct (_ <? _); done.
Qed.

(** X2: a document returned by [get_vehicles] is the decoded body of a
    2xx response to one of its attempts; and a 2xx response with a
    decodable body at the first attempt is returned after that single
    request, without any sleep. *)
Theorem get_vehicles_result (net : nat -> http_outcome) (retries : nat) :
  (forall j, fst (get_vehicles net retries) = Some j ->
     exists a status_code,
       (a < retries)%nat /\ net a = Response status_code (Some j)
       /\ is_success status_code = true)
  /\ (forall status_code j,
        net 0%nat = Response status_code (Some j) ->
        is_success status_code = true ->
        get_vehicles net (S retries) = (Some j, [Request 0])).
Proof.
  split.
  - intros j H. apply attempts_loop_Some in H as (a & s & Ha & Hnet).
    exists a, s. split; [|done]. apply elem_of_seq in Ha. lia.
  - intros s j Hnet Hs. unfold get_vehicles. cbn [seq attempts_loop].
    unfold one_attempt, attempt_try. rewrite Hnet.
    destruct (s =? 429) eqn:E.
    + apply Z.eqb_eq in E. subst s. discriminate Hs.
    + by rewrite Hs.
Qed.

Lemma get_vehicles_result_witness :
  get_vehicles (Samples.upstream [Samples.y1]) 3
  = (Some (Samples.response_of [Samples.y1]), [Request 0]).
Proof.
  destruct (get_vehicles_result (Samples.upstream [Samples.y1]) 2) as [_ H].
  apply (H 200); reflexivity.
Defined.

(** X3: an attempt that cannot be retried ends the call with the
    failure value and without a sleep: a 4xx status other than 429 at
    any attempt, and a 5xx status, a timeout or any other error at the
    last attempt. *)
Theorem final_failure_returns_at_once (net : nat -> http_outcome)
    (retries attempt : nat) (rest : list nat) :
  (exists status_code json,
     net attempt = Response status_code json
     /\ 400 <= status_code < 500 /\ status_code <> 429)
  \/ (Z.of_nat attempt >= Z.of_nat retries - 1
      /\ ((exists status_code json,
             net attempt = Response status_code json /\ 500 <= status_code)
          \/ net attempt = Timeout \/ net attempt = Failure
          \/ exists status_code,
               net attempt = Response status_code None
               /\ is_success status_code = true)) ->
  attempts_loop net retries (attempt :: rest) = (None, [Request attempt]).
Proof.
  intros H. cbn [attempts_loop].
  assert (E : one_attempt (net attempt) attempt retries = Return None);
    [|by rewrite E].
  unfold one_attempt, attempt_try, attempt_except, is_success.
  destruct H as [(s & j & -> & Hs & Hne)
                |(Hlast & [(s & j & -> & Hs)|[-> |[-> |(s & -> & Hs)]]])].
  - assert ((s =? 429) = false) as -> by lia.
    assert (((200 <=? s) && (s <? 300)) = false) as -> by lia.
    assert ((500 <=? s) = false) as -> by lia. done.
  - assert ((s =? 429) = false) as -> by lia.
    assert (((200 <=? s) && (s <? 300)) = false) as -> by lia.
    assert ((Z.of_nat attempt <? Z.of_nat retries - 1) = false) as -> by lia.
    by rewrite andb_false_r.
  - by assert ((Z.of_nat attempt <? Z.of_nat retries - 1) = false) as -> by lia.
  - by assert ((Z.of_nat attempt <? Z.of_nat retries - 1) = false) as -> by lia.
  - unfold is_success in Hs.
    assert ((s =? 429) = false) as -> by lia.
    rewrite Hs.
    by assert ((Z.of_nat attempt <? Z.of_nat retries - 1) = false) as -> by lia.
Qed.

Lemma final_failure_returns_at_once_witness :
  attempts_loop (fun _ => Response 404 None) 3 [0; 1; 2]%nat
  = (None, [Request 0]).
Proof.
  apply final_failure_returns_at_once. left. exists 404, None.
  repeat split; try reflexivity; lia.
Defined.

(** X4: a 5xx status while retries remain makes the client sleep
    [2 * 2^attempt] seconds and try again. *)
Theorem server_error_waits (net : nat -> http_outcome)
    (attempt retries : nat) (rest : list nat) (status_code : Z)
    (json : option api_response) :
  Z.of_nat attempt < Z.of_nat retries - 1 ->
  net attempt = Response status_code json -> 500 <= status_code ->
  attempts_loop net retries (attempt :: rest)
  = (fst (attempts_loop net retries rest),
     Request attempt :: Sleep (2 ^ Z.of_nat attempt * 2)
       :: snd (attempts_loop net retries rest)).
Proof.
  intros Hlt Hnet Hs. apply ClientProps.attempts_loop_continue. rewrite Hnet.
  unfold one_attempt, attempt_try, attempt_except, is_success.
  assert ((status_code =? 429) = false) as -> by lia.
  assert (((200 <=? status_code) && (status_code <? 300)) = false) as -> by lia.
  assert ((500 <=? status_code) = true) as -> by lia.
  by assert ((Z.of_nat attempt <? Z.of_nat retries - 1) = true) as -> by lia.
Qed.

Lemma server_error_waits_witness :
  attempts_loop (fun _ => Response 503 None) 3 [0; 1; 2]%nat
  = (None, [Request 0; Sleep 2; Request 1; Sleep 4; Request 2]).
Proof.
  rewrite (server_error_waits (fun _ => Response 503 None) 0 3 [1; 2]%nat
             503 None); [reflexivity|lia|reflexivity|lia].
Defined.

End ClientExtras.

(** ** Collector: history, unlisted and repeated vehicles *)

Module CollectorExtras.

Import Database MBTAClient Collector CollectorProps.

(** *** History and aggregates under collection *)

Lemma run_cycle_events d c :
  exists appended,
    telemetry_events (run_cycle d c) = telemetry_events d ++ appended
    /\ route_delays (run_cycle d c) = route_delays d.
Proof.
  destruct (run_cycle_cases d c) as [-> | [-> _]].
  - exists []. by rewrite app_nil_r.
  - eexists. split; reflexivity.
Qed.

(** X6: the collector only ever appends to the event history and never
    touches the delay aggregates: after any run of cycles the earlier
    events are a prefix of the table, in their order, and the
    [route_delays] table is the same. *)
Theorem history_is_append_only (d : database) (cs : list cycle) :
  (exists appended,
     telemetry_events (run_cycles d cs) = telemetry_events d ++ appended)
  /\ route_delays (run_cycles d cs) = route_delays d.
Proof.
  unfold run_cycles. revert d. induction cs as [|c cs IH]; intros d; cbn.
  - split; [|done]. exists []. by rewrite app_nil_r.
  - destruct (IH (run_cycle d c)) as [[app2 E2] R2].
    destruct (run_cycle_events d c) as (app1 & E1 & R1).
    split; [|by rewrite R2].
    exists (app1 ++ app2). by rewrite E2, E1, app_assoc.
Qed.

(** *** Vehicles a cycle does not list *)

Section Absent.

Variable t : Time.datetime.
Variable rows : list Vehicle.
Variable k : string.

Lemma stage_absent st vd :
  vehicle_ids (objects st) = vehicle_ids rows ->
  vd_vehicle_id vd <> k ->
  rows_of k (all_rows (stage t (index_vehicles rows) st vd))
  = rows_of k (all_rows st).
Proof.
  intros Hids Hne. unfold stage, all_rows.
  destruct (index_vehicles rows !! vd_vehicle_id vd) as [j|] eqn:Hj;
    cbn [objects vehicles_to_insert].
  - rewrite !rows_of_app. f_equal.
    apply rows_of_alter_other; [done|].
    intros v Hv. apply index_vehicles_Some in Hj as (v0 & Hv0 & Hk).
    assert (vehicle_ids (objects st) !! j = Some (vehicle_id v)) as H1.
    { unfold vehicle_ids. by rewrite list_lookup_fmap, Hv. }
    rewrite Hids in H1. unfold vehicle_ids in H1.
    rewrite list_lookup_fmap, Hv0 in H1. cbn in H1. congruence.
  - rewrite app_assoc, rows_of_app. unfold rows_of at 2.
    rewrite filter_cons, filter_nil, decide_False by done.
    by rewrite app_nil_r.
Qed.

Lemma fold_stage_absent vds st :
  vehicle_ids (objects st) = vehicle_ids rows ->
  k ∉ map vd_vehicle_id vds ->
  rows_of k (all_rows (fold_left (stage t (index_vehicles rows)) vds st))
  = rows_of k (all_rows st).
Proof.
  revert st. induction vds as [|vd vds IH]; intros st Hids Hk; [done|].
  cbn [fold_left]. rewrite IH.
  - apply stage_absent; [done|]. intros E. apply Hk. rewrite <- E. left.
  - by rewrite stage_ids.
  - intros H. apply Hk. by right.
Qed.

End Absent.

(** X7: a cycle leaves the rows of every vehicle it does not list
    exactly as they were, whether it commits or is rolled back. *)
Theorem unlisted_vehicle_untouched (d : database) (c : cycle) (k : string) :
  k ∉ map vd_vehicle_id (parsed (cy_net c)) ->
  rows_of k (vehicles (run_cycle d c)) = rows_of k (vehicles d).
Proof.
  intros Hk. destruct (run_cycle_cases d c) as [-> | [-> _]]; [done|].
  unfold staged_writes. cbn [vehicles].
  fold (all_rows (stage_all (cy_time c) (vehicles d) (parsed (cy_net c)))).
  unfold stage_all. rewrite fold_stage_absent; [|done|done].
  unfold all_rows. cbn. by rewrite app_nil_r.
Qed.

Lemma unlisted_vehicle_untouched_witness :
  rows_of "b"
    (vehicles (run_cycle
                 {| vehicles := Samples.positioned_pair;
                    telemetry_events := []; route_delays := [] |}
                 (Samples.cycle_at Samples.no_fault [Samples.y1] 10)))
  = rows_of "b" Samples.positioned_pair.
Proof.
  apply unlisted_vehicle_untouched. vm_compute.
  intros H. apply list_elem_of_singleton in H. discriminate H.
Defined.

(** *** Vehicles listed more than once *)

Lemma index_vehicles_absent rows k :
  k ∉ vehicle_ids rows -> index_vehicles rows !! k = None.
Proof.
  intros Hk. destruct (index_vehicles rows !! k) as [j|] eqn:E; [|done].
  apply index_vehicles_Some in E as (v & Hv & <-).
  exfalso. apply Hk. apply list_elem_of_fmap. exists v. split; [done|].
  by apply list_elem_of_lookup_2 in Hv.
Qed.

Lemma index_vehicles_present rows k :
  k ∈ vehicle_ids rows -> is_Some (index_vehicles rows !! k).
Proof.
  intros Hk. destruct (index_vehicles rows !! k) as [j|] eqn:E; [by eexists|].
  by apply index_vehicles_None in E.
Qed.

Lemma fold_stage_inserts t idx vds st :
  vehicles_to_insert (fold_left (stage t idx) vds st)
  = vehicles_to_insert st
    ++ map (fun vd => new_vehicle vd t)
         (filter (fun vd => idx !! vd_vehicle_id vd = None) vds).
Proof.
  revert st. induction vds as [|vd vds IH]; intros st; cbn [fold_left].
  - by rewrite app_nil_r.
  - rewrite IH, filter_cons. unfold stage.
    destruct (idx !! vd_vehicle_id vd) as [j|] eqn:E; cbn [vehicles_to_insert].
    + by rewrite decide_False.
    + rewrite decide_True by done. by rewrite <- app_assoc.
Qed.

Lemma insert_vehicles_Some rows new rows' :
  insert_vehicles rows new = Some rows' ->
  NoDup (vehicle_ids new)
  /\ forall v, v ∈ new -> vehicle_id v ∉ vehicle_ids rows.
Proof.
  revert rows. induction new as [|v new IH]; intros rows H; cbn in H.
  - split; [apply NoDup_nil_2|]. by intros v ?%elem_of_nil.
  - case_bool_decide as Hin; [discriminate|].
    destruct (IH _ H) as [Hnd Hfresh].
    assert (Hv : forall v', v' ∈ new ->
                   vehicle_id v' <> vehicle_id v
                   /\ (vehicle_id v' ∉ vehicle_ids rows)).
    { intros v' Hv'. specialize (Hfresh v' Hv').
      unfold vehicle_ids in Hfresh. rewrite map_app in Hfresh. cbn in Hfresh.
      split.
      - intros E. apply Hfresh. apply elem_of_app. right. rewrite E. left.
      - intros E. apply Hfresh. apply elem_of_app. by left. }
    split.
    + cbn. apply NoDup_cons. split; [|done].
      intros (v' & E & Hv')%list_elem_of_fmap.
      destruct (Hv v' Hv') as [Hne _]. congruence.
    + intros v' [->|Hv']%elem_of_cons; [done|]. by apply Hv.
Qed.

Lemma NoDup_filter_positions {A B} (f : A -> B) (P : A -> Prop)
    `{forall x, Decision (P x)} (l : list A) i j a b :
  NoDup (map f (filter P l)) ->
  l !! i = Some a -> l !! j = Some b -> P a -> P b -> f a = f b -> i = j.
Proof.
  revert i j. induction l as [|x l IH]; intros i j Hnd Hi Hj Pa Pb E; [done|].
  rewrite filter_cons in Hnd.
  assert (Hin : forall n y, l !! n = Some y -> P y -> f y ∈ map f (filter P l)).
  { intros n y Hn Py. apply list_elem_of_fmap. exists y. split; [done|].
    apply list_elem_of_filter. split; [done|].
    by apply list_elem_of_lookup_2 in Hn. }
  destruct i as [|i], j as [|j]; cbn in Hi, Hj.
  - done.
  - injection Hi as ->. rewrite decide_True in Hnd by done. cbn in Hnd.
    apply NoDup_cons in Hnd as [Hnin _]. exfalso. apply Hnin.
    rewrite E. by apply (Hin j).
  - injection Hj as ->. rewrite decide_True in Hnd by done. cbn in Hnd.
    apply NoDup_cons in Hnd as [Hnin _]. exfalso. apply Hnin.
    rewrite <- E. by apply (Hin i).
  - f_equal. apply IH; try done.
    destruct (decide (P x)); [|done]. cbn in Hnd.
    by apply NoDup_cons in Hnd as [_ ?].
Qed.

(** X8: a response that lists a vehicle the store does not know yet
    twice loses the whole cycle: the second INSERT is refused, and the
    store after the cycle is the store before it. *)
Theorem duplicated_new_vehicle_rolls_back (d : database) (c : cycle)
    (i j : nat) (s1 s2 : vehicle_data) :
  i <> j ->
  parsed (cy_net c) !! i = Some s1 ->
  parsed (cy_net c) !! j = Some s2 ->
  vd_vehicle_id s1 = vd_vehicle_id s2 ->
  vd_vehicle_id s1 ∉ vehicle_ids (vehicles d) ->
  run_cycle d c = d.
Proof.
  intros Hij Hi Hj E Hnew.
  destruct (run_cycle_cases d c) as [-> | [_ [rows' Hins]]]; [done|].
  exfalso. apply insert_vehicles_Some in Hins as [Hnd _].
  unfold stage_all in Hnd. rewrite fold_stage_inserts in Hnd.
  cbn [staging_init vehicles_to_insert app] in Hnd.
  unfold vehicle_ids in Hnd. rewrite map_map in Hnd. cbn in Hnd.
  apply Hij.
  apply (NoDup_filter_positions vd_vehicle_id _ _ i j s1 s2 Hnd Hi Hj);
    [| |done]; apply index_vehicles_absent; congruence.
Qed.

Lemma duplicated_new_vehicle_rolls_back_witness :
  run_cycle Database.empty
    (Samples.cycle_at Samples.no_fault [Samples.y1; Samples.y1] 10)
  = Database.empty.
Proof.
  apply (duplicated_new_vehicle_rolls_back _ _ 0 1
           Samples.y1_snapshot Samples.y1_snapshot).
  - lia.
  - reflexivity.
  - reflexivity.
  - reflexivity.
  - by intros ?%elem_of_nil.
Defined.

Lemma stage_all_snoc t rows vds x :
  stage_all t rows (vds ++ [x])
  = stage t (index_vehicles rows) (stage_all t rows vds) x.
Proof. unfold stage_all. by rewrite fold_left_app. Qed.

Lemma stage_all_existing t rows k vds :
  unique_vehicle_ids rows -> k ∈ vehicle_ids rows ->
  rows_of k (objects (stage_all t rows vds))
  = match last (filter (fun s => vd_vehicle_id s = k) vds) with
    | Some s => [new_vehicle s t]
    | None => rows_of k rows
    end.
Proof.
  intros U Hk. induction vds as [|x vds IH] using rev_ind; [done|].
  rewrite stage_all_snoc, filter_app, filter_cons, filter_nil.
  pose proof (stage_all_ids t rows vds) as Hids.
  set (st := stage_all t rows vds) in *.
  unfold stage.
  destruct (index_vehicles rows !! vd_vehicle_id x) as [j|] eqn:Hj;
    cbn [objects].
  - apply index_vehicles_Some in Hj as (v & Hv & Hvk).
    assert (exists v0, objects st !! j = Some v0
                       /\ vehicle_id v0 = vd_vehicle_id x) as (v0 & Hv0 & Hk0).
    { assert (vehicle_ids (objects st) !! j = Some (vd_vehicle_id x)) as H.
      { rewrite Hids. unfold vehicle_ids. rewrite list_lookup_fmap, Hv. cbn.
        by rewrite Hvk. }
      unfold vehicle_ids in H. rewrite list_lookup_fmap in H.
      destruct (objects st !! j) as [v0|]; [|done].
      exists v0. split; [done|]. cbn in H. congruence. }
    destruct (decide (vd_vehicle_id x = k)) as [E|Hne].
    + rewrite last_snoc. rewrite <- E, <- Hk0.
      rewrite rows_of_alter_same; [| done | | done].
      * by rewrite update_existing_same_id.
      * unfold unique_vehicle_ids. by rewrite Hids.
    + rewrite app_nil_r, rows_of_alter_other; [done|done|].
      intros v' Hv'. congruence.
  - destruct (decide (vd_vehicle_id x = k)) as [E|Hne].
    + exfalso. apply index_vehicles_None in Hj. congruence.
    + by rewrite app_nil_r.
Qed.

Lemma new_ids rows t vds :
  vehicle_ids (vehicles_to_insert (stage_all t rows vds))
  = map vd_vehicle_id
      (filter (fun s => vd_vehicle_id s ∉ vehicle_ids rows) vds).
Proof.
  unfold stage_all. rewrite fold_stage_inserts. cbn [staging_init
    vehicles_to_insert app]. unfold vehicle_ids at 1. rewrite map_map. cbn.
  f_equal. apply list_filter_iff. intros s. split.
  - apply index_vehicles_None.
  - apply index_vehicles_absent.
Qed.

(** A cycle commits when no storage operation fails and the vehicles
    new to the store are listed once each. *)
Lemma run_cycle_commits_new_once d c :
  unique_vehicle_ids (vehicles d) ->
  (forall op, cy_fault c op = false) ->
  NoDup (map vd_vehicle_id
           (filter (fun s => vd_vehicle_id s ∉ vehicle_ids (vehicles d))
              (parsed (cy_net c)))) ->
  run_cycle d c = staged_writes d (cy_time c) (parsed (cy_net c)).
Proof.
  intros U F Hnd. unfold run_cycle.
  pose proof (collect_run (cy_fault c) (cy_net c) (cy_time c) d) as H.
  destruct (collect_telemetry _ _ _ _) as [r w]. cbn in *.
  destruct H as (_ & _ & [(_ & Hdb & _)|(_ & _ & _ & [(op & _ & Hop)|Hins])]).
  - done.
  - by rewrite F in Hop.
  - set (st := stage_all (cy_time c) (vehicles d) (parsed (cy_net c))) in *.
    assert (Hu : unique_vehicle_ids (objects st ++ vehicles_to_insert st)).
    { unfold unique_vehicle_ids, vehicle_ids. rewrite map_app.
      fold (vehicle_ids (objects st)).
      fold (vehicle_ids (vehicles_to_insert st)).
      subst st. rewrite stage_all_ids, new_ids.
      apply NoDup_app. repeat split; [done| |done].
      intros k Hk (s & -> & Hs)%list_elem_of_fmap.
      by apply list_elem_of_filter in Hs as [Hs _]. }
    apply insert_vehicles_fresh in Hu. congruence.
Qed.

(** X9: when a committed cycle lists a vehicle the store already has
    more than once, the row ends with the values of the last snapshot
    listed for it (there is still one row for the vehicle). *)
Theorem last_snapshot_wins (d : database) (c : cycle) (k : string)
    (s : vehicle_data) :
  unique_vehicle_ids (vehicles d) ->
  (forall op, cy_fault c op = false) ->
  NoDup (map vd_vehicle_id
           (filter (fun s => vd_vehicle_id s ∉ vehicle_ids (vehicles d))
              (parsed (cy_net c)))) ->
  k ∈ vehicle_ids (vehicles d) ->
  last (filter (fun s => vd_vehicle_id s = k) (parsed (cy_net c))) = Some s ->
  rows_of k (vehicles (run_cycle d c)) = [new_vehicle s (cy_time c)].
Proof.
  intros U F Hnd Hk Hlast.
  rewrite run_cycle_commits_new_once by done.
  unfold staged_writes. cbn [vehicles]. rewrite rows_of_app.
  rewrite stage_all_existing, Hlast by done.
  rewrite (rows_of_absent k (vehicles_to_insert _)); [done|].
  rewrite new_ids. intros (s' & -> & Hs')%list_elem_of_fmap.
  by apply list_elem_of_filter in Hs' as [Hs' _].
Qed.

Lemma last_snapshot_wins_witness :
  rows_of "a"
    (vehicles (run_cycle
                 {| vehicles := Samples.positioned_pair;
                    telemetry_events := []; route_delays := [] |}
                 (Samples.cycle_at Samples.no_fault
                    [Samples.red_vehicle "a" 1 1; Samples.red_vehicle "a" 2 2]
                    10)))
  = [new_vehicle (parse_vehicle ∅ (Samples.red_vehicle "a" 2 2)) 10].
Proof.
  apply last_snapshot_wins.
  - apply (bool_decide_unpack _). vm_compute. exact I.
  - reflexivity.
  - apply (bool_decide_unpack _). vm_compute. exact I.
  - vm_compute. left.
  - reflexivity.
Defined.

End CollectorExtras.

(** ** Speed anomalies, stalled vehicles, all alerts *)

Module AnomalyExtras.

Import Database AlertDetector Anomalies AnomalyVocabulary.

Lemma float_lt_Qlt x y : float_lt x y = true <-> (x < y)%Q.
Proof.
  unfold float_lt. rewrite Qlt_alt. by destruct (x ?= y)%Q.
Qed.

(** X11: [detect_speed_anomalies] reports exactly the vehicles of the
    route updated in the last 5 minutes whose recorded speed is
    strictly above 60 (a speed of exactly 60, or no recorded speed, is
    not reported), one alert of severity warning per such vehicle. *)
Theorem speed_anomalies_exact (now : Time.datetime) (route_id : string)
    (rows : list Vehicle) (a : speed_alert) :
  (a ∈ detect_speed_anomalies now route_id rows <->
   exists v s,
     v ∈ rows /\ Database.route_id v = Some route_id
     /\ now - Time.minutes 5 <= last_updated v
     /\ speed v = Some s /\ (60 < s)%Q
     /\ a = {| sa_type := "speed_anomaly"; sa_route_id := route_id;
               sa_vehicle_id := vehicle_id v; sa_speed := s;
               sa_severity := "warning"; sa_timestamp := now |})
  /\ length (detect_speed_anomalies now route_id rows)
     = length (filter (fun v => speeding v = true)
                 (recent_with_speed now route_id rows)).
Proof.
  unfold detect_speed_anomalies. split.
  - rewrite list_elem_of_In, in_flat_map. split.
    + intros (v & Hv%list_elem_of_In & Ha%list_elem_of_In).
      unfold recent_with_speed in Hv.
      apply list_elem_of_filter in Hv as [(Hr & Hc & _) Hv].
      unfold speed_alerts_of in Ha. destruct (speed v) as [s|] eqn:Hs.
      * destruct (float_lt SPEED_ANOMALY_THRESHOLD s) eqn:Hlt.
        -- apply list_elem_of_singleton in Ha. exists v, s.
           repeat split; try done. by apply float_lt_Qlt.
        -- by apply elem_of_nil in Ha.
      * by apply elem_of_nil in Ha.
    + intros (v & s & Hv & Hr & Hc & Hs & Hlt & ->). exists v. split.
      * apply list_elem_of_In, list_elem_of_filter. split; [|done].
        repeat split; try done. by rewrite Hs.
      * apply list_elem_of_In. unfold speed_alerts_of. rewrite Hs.
        apply float_lt_Qlt in Hlt. unfold SPEED_ANOMALY_THRESHOLD.
        rewrite Hlt. left.
  - induction (recent_with_speed now route_id rows) as [|v l IH]; [done|].
    cbn [flat_map]. rewrite length_app, IH, filter_cons.
    unfold speed_alerts_of, speeding.
    destruct (speed v) as [s|].
    + destruct (float_lt SPEED_ANOMALY_THRESHOLD s) eqn:E.
      * by rewrite decide_True.
      * by rewrite decide_False.
    + by rewrite decide_False.
Qed.

Lemma speed_anomalies_exact_witness :
  {| sa_type := "speed_anomaly"; sa_route_id := "Red"; sa_vehicle_id := "a";
     sa_speed := Qmake 65 1; sa_severity := "warning";
     sa_timestamp := Time.seconds 1010 |}
  ∈ detect_speed_anomalies (Time.seconds 1010) "Red"
      [in_transit "a" (Time.seconds 1000)].
Proof.
  destruct (speed_anomalies_exact (Time.seconds 1010) "Red"
              [in_transit "a" (Time.seconds 1000)]
              {| sa_type := "speed_anomaly"; sa_route_id := "Red";
                 sa_vehicle_id := "a"; sa_speed := Qmake 65 1;
                 sa_severity := "warning";
                 sa_timestamp := Time.seconds 1010 |}) as [[_ H] _].
  apply H. exists (in_transit "a" (Time.seconds 1000)), (Qmake 65 1).
  split; [left|]. split; [reflexivity|]. split; [vm_compute; discriminate|].
  split; [reflexivity|]. split; reflexivity.
Defined.

(** *** The rows behind the alerts *)

Lemma speed_alert_row now route_id rows a :
  a ∈ detect_speed_anomalies now route_id rows ->
  sa_route_id a = route_id
  /\ exists v, v ∈ rows /\ sa_vehicle_id a = vehicle_id v
               /\ now - Time.minutes 5 <= last_updated v.
Proof.
  unfold detect_speed_anomalies. rewrite list_elem_of_In, in_flat_map.
  intros (v & Hv%list_elem_of_In & Ha%list_elem_of_In).
  unfold recent_with_speed in Hv.
  apply list_elem_of_filter in Hv as [(_ & Hc & _) Hv].
  unfold speed_alerts_of in Ha. destruct (speed v) as [s|]; [|by apply elem_of_nil in Ha].
  destruct (float_lt _ _); [|by apply elem_of_nil in Ha].
  apply list_elem_of_singleton in Ha as ->. split; [done|]. by exists v.
Qed.

Lemma bunching_alert_rows now route_id rows b :
  b ∈ detect_bunching now route_id rows ->
  alert_route_id b = route_id
  /\ exists v1 v2, v1 ∈ rows /\ v2 ∈ rows
       /\ vehicle_1 b = vehicle_id v1 /\ vehicle_2 b = vehicle_id v2
       /\ now - Time.minutes 5 <= last_updated v1
       /\ now - Time.minutes 5 <= last_updated v2.
Proof.
  unfold detect_bunching.
  intros (v1 & v2 & H1 & H2 & -> & _)%AlertProps.scan_pairs_elem.
  apply AlertProps.elem_of_recent_positioned in H1 as (H1 & _ & Hc1 & _).
  apply AlertProps.elem_of_recent_positioned in H2 as (H2 & _ & Hc2 & _).
  split; [done|]. by exists v1, v2.
Qed.

Lemma stalled_alert_row now rows s :
  s ∈ detect_stalled_vehicles now rows <->
  exists v, v ∈ rows /\ last_updated v < now - Time.minutes 10
            /\ current_status v = Some "IN_TRANSIT_TO"%string
            /\ s = stalled_alert_of now v.
Proof.
  unfold detect_stalled_vehicles, stalled_rows.
  rewrite list_elem_of_fmap. split.
  - intros (v & -> & [[? ?] ?]%list_elem_of_filter). by exists v.
  - intros (v & ? & ? & ? & ->). exists v. split; [done|].
    by apply list_elem_of_filter.
Qed.

(** *** The routes scanned *)

Lemma elem_of_distinct {A} `{EqDecision A} (seen l : list A) x :
  x ∈ distinct seen l <-> x ∈ l /\ (x ∉ seen).
Proof.
  revert seen. induction l as [|y l IH]; intros seen; cbn.
  - split; [by intros ?%elem_of_nil|]. by intros [?%elem_of_nil _].
  - destruct (decide (y ∈ seen)) as [Hy|Hy].
    + rewrite IH, elem_of_cons. split; [tauto|].
      intros [[->|?] ?]; [done|tauto].
    + rewrite !elem_of_cons, IH, elem_of_cons. split.
      * intros [->|[? ?]]; [tauto|]. split; [tauto|]. tauto.
      * intros [[->|?] ?]; [tauto|].
        destruct (decide (x = y)) as [->|Hne]; [tauto|]. right. tauto.
Qed.

Lemma NoDup_distinct {A} `{EqDecision A} (seen l : list A) :
  NoDup (distinct seen l).
Proof.
  revert seen. induction l as [|y l IH]; intros seen; cbn.
  - apply NoDup_nil_2.
  - destruct (decide (y ∈ seen)); [apply IH|].
    apply NoDup_cons. split; [|apply IH].
    rewrite elem_of_distinct. intros [_ H]. apply H. left.
Qed.

Lemma elem_of_active_routes rows r :
  r ∈ active_routes rows <->
  str_truthy r = true /\ exists v, v ∈ rows /\ Database.route_id v = Some r.
Proof.
  unfold active_routes. rewrite list_elem_of_omap. split.
  - intros (o & Ho & Hr). apply elem_of_distinct in Ho as [Ho _].
    apply list_elem_of_fmap in Ho as (v & -> & Hv).
    destruct (Database.route_id v) as [r'|] eqn:E; cbn in Hr; [|done].
    destruct (str_truthy r') eqn:T; [|done]. injection Hr as ->.
    split; [done|]. by exists v.
  - intros (T & v & Hv & E). exists (Some r). split.
    + apply elem_of_distinct. split; [|by intros ?%elem_of_nil].
      apply list_elem_of_fmap. by exists v.
    + cbn. by rewrite T.
Qed.

Lemma NoDup_active_routes rows : NoDup (active_routes rows).
Proof.
  unfold active_routes.
  pose proof (NoDup_distinct [] (map Database.route_id rows)) as H.
  induction (distinct [] (map Database.route_id rows)) as [|o l IH]; cbn.
  - apply NoDup_nil_2.
  - apply NoDup_cons in H as [Ho H]. specialize (IH H).
    destruct o as [r|]; cbn; [|done].
    destruct (str_truthy r); [|done].
    apply NoDup_cons. split; [|done].
    rewrite list_elem_of_omap. intros (o' & Ho' & E).
    destruct o' as [r'|]; cbn in E; [|done].
    destruct (str_truthy r'); [|done]. injection E as ->. done.
Qed.

Lemma elem_of_flat_map {A B} (f : A -> list B) (l : list A) (x : B) :
  x ∈ flat_map f l <-> exists y, y ∈ l /\ x ∈ f y.
Proof.
  rewrite list_elem_of_In, in_flat_map. split.
  - intros (y & Hy%list_elem_of_In & Hx%list_elem_of_In). eauto.
  - intros (y & Hy%list_elem_of_In & Hx%list_elem_of_In). eauto.
Qed.

Lemma elem_of_get_all_alerts now route_id rows a :
  a ∈ get_all_alerts now route_id rows <->
  (exists r, r ∈ match route_id with
                 | Some r => if str_truthy r then [r] else active_routes rows
                 | None => active_routes rows
                 end
             /\ ((exists b, a = Bunching b /\ b ∈ detect_bunching now r rows)
                 \/ exists s, a = SpeedAnomaly s
                              /\ s ∈ detect_speed_anomalies now r rows))
  \/ exists s, a = Stalled s /\ s ∈ detect_stalled_vehicles now rows.
Proof.
  unfold get_all_alerts.
  rewrite elem_of_app, list_elem_of_fmap, elem_of_flat_map.
  unfold route_alerts.
  split.
  - intros [(r & Hr & Ha)|(s & -> & Hs)].
    + left. exists r. split; [done|].
      apply elem_of_app in Ha as [Ha|Ha];
        apply list_elem_of_fmap in Ha as (x & -> & Hx); eauto.
    + right. eauto.
  - intros [(r & Hr & [(b & -> & Hb)|(s & -> & Hs)])|(s & -> & Hs)].
    + left. exists r. split; [done|].
      apply elem_of_app. left. by apply list_elem_of_fmap_2.
    + left. exists r. split; [done|].
      apply elem_of_app. right. by apply list_elem_of_fmap_2.
    + right. eauto.
Qed.

(** X12: a route filter restricts the bunching and speed alerts of
    [get_all_alerts] to that route, but not the stalled alerts: every
    stalled vehicle of the table, whatever its route, is reported under
    any filter.  Without a filter (or with an empty one) the routes
    scanned are the distinct non-empty route ids of the table, each
    once. *)
Theorem route_filter_keeps_stalled (now : Time.datetime)
    (route_id : option string) (rows : list Vehicle) :
  (forall v, v ∈ rows ->
     last_updated v < now - Time.minutes 10 ->
     current_status v = Some "IN_TRANSIT_TO"%string ->
     Stalled (stalled_alert_of now v) ∈ get_all_alerts now route_id rows)
  /\ (forall r a, route_id = Some r -> str_truthy r = true ->
        a ∈ get_all_alerts now route_id rows ->
        match a with
        | Bunching b => alert_route_id b = r
        | SpeedAnomaly s => sa_route_id s = r
        | Stalled _ => True
        end)
  /\ get_all_alerts now (Some ""%string) rows = get_all_alerts now None rows
  /\ NoDup (active_routes rows)
  /\ (forall r, r ∈ active_routes rows <->
        str_truthy r = true
        /\ exists v, v ∈ rows /\ Database.route_id v = Some r).
Proof.
  split; [|split; [|split; [done|split]]].
  - intros v Hv Hold Hst. apply elem_of_get_all_alerts. right.
    eexists. split; [done|]. apply stalled_alert_row. by exists v.
  - intros r a -> T Ha. apply elem_of_get_all_alerts in Ha. rewrite T in Ha.
    destruct Ha as [(r' & ->%list_elem_of_singleton
                        & [(b & -> & Hb)|(s & -> & Hs)])|(s & -> & _)].
    + by apply bunching_alert_rows in Hb as [? _].
    + by apply speed_alert_row in Hs as [? _].
    + done.
  - apply NoDup_active_routes.
  - apply elem_of_active_routes.
Qed.

Lemma route_filter_keeps_stalled_witness :
  Stalled (stalled_alert_of (Time.seconds 2000)
             (in_transit "a" (Time.seconds 1000)))
  ∈ get_all_alerts (Time.seconds 2000) (Some "Blue"%string)
      [in_transit "a" (Time.seconds 1000)].
Proof.
  destruct (route_filter_keeps_stalled (Time.seconds 2000)
              (Some "Blue"%string) [in_transit "a" (Time.seconds 1000)])
    as [H _].
  apply H; [left|reflexivity|reflexivity].
Defined.

(** X13: at one instant no vehicle is named both by a stalled alert and
    by a bunching or speed alert: the former needs an update older
    than 10 minutes, the latter an update within the last 5. *)
Theorem stalled_excludes_recent (now : Time.datetime)
    (route_id : option string) (rows : list Vehicle)
    (s : stalled_alert) (a : any_alert) :
  unique_vehicle_ids rows ->
  Stalled s ∈ get_all_alerts now route_id rows ->
  a ∈ get_all_alerts now route_id rows ->
  (forall s', a <> Stalled s') ->
  sl_vehicle_id s ∉ alert_vehicles a.
Proof.
  intros U Hs Ha Hns.
  apply elem_of_get_all_alerts in Hs
    as [(r & _ & [(b & [=] & _)|(x & [=] & _)])|(s0 & [= <-] & Hs)].
  apply stalled_alert_row in Hs as (v & Hv & Hold & _ & ->). cbn.
  assert (Hrecent : forall v', v' ∈ rows ->
            now - Time.minutes 5 <= last_updated v' ->
            vehicle_id v <> vehicle_id v').
  { intros v' Hv' Hc E.
    apply (AlertProps.same_id_same_row rows v v' U Hv Hv') in E as ->.
    unfold Time.minutes in *. lia. }
  apply elem_of_get_all_alerts in Ha
    as [(r & _ & [(b & -> & Hb)|(x & -> & Hx)])|(s0 & -> & _)].
  - apply bunching_alert_rows in Hb
      as (_ & v1 & v2 & H1 & H2 & E1 & E2 & C1 & C2).
    cbn. rewrite E1, E2.
    intros [E|[E|E%elem_of_nil]%elem_of_cons]%elem_of_cons; [| |done].
    + by apply (Hrecent v1).
    + by apply (Hrecent v2).
  - apply speed_alert_row in Hx as (_ & v' & Hv' & E & C). cbn. rewrite E.
    intros E'%list_elem_of_singleton. by apply (Hrecent v').
  - by destruct (Hns s0).
Qed.

Lemma stalled_excludes_recent_witness :
  "a"%string
  ∉ alert_vehicles
      (SpeedAnomaly
         {| sa_type := "speed_anomaly"; sa_route_id := "Red";
            sa_vehicle_id := "b"; sa_speed := Qmake 65 1;
            sa_severity := "warning"; sa_timestamp := Time.seconds 2000 |}).
Proof.
  apply (stalled_excludes_recent (Time.seconds 2000) None
           [in_transit "a" (Time.seconds 1000);
            in_transit "b" (Time.seconds 1990)]
           (stalled_alert_of (Time.seconds 2000)
              (in_transit "a" (Time.seconds 1000)))).
  - apply (bool_decide_unpack _). vm_compute. exact I.
  - vm_compute. right. left.
  - vm_compute. left.
  - intros s' H. discriminate H.
Defined.

End AnomalyExtras.

(** ** GET /alerts: the order of the alerts *)

Module SortExtras.

Import Api ApiVocabulary Ordering.

Lemma key_lt_true k1 k2 :
  key_lt k1 k2 = true
  <-> fst k1 < fst k2 \/ (fst k1 = fst k2 /\ snd k1 < snd k2).
Proof. unfold key_lt. lia. Qed.

Lemma key_lt_false k1 k2 :
  key_lt k1 k2 = false
  <-> fst k2 < fst k1 \/ (fst k1 = fst k2 /\ snd k2 <= snd k1).
Proof. unfold key_lt. lia. Qed.

Section Sort.

Context {A : Type} (key : A -> Z * Z).

Lemma Forall_insert_sorted (P : A -> Prop) x l :
  Forall P (insert_sorted key x l) <-> P x /\ Forall P l.
Proof.
  induction l as [|y l IH]; cbn.
  - rewrite Forall_cons. tauto.
  - destruct (key_lt (key x) (key y)).
    + rewrite !Forall_cons. tauto.
    + rewrite !Forall_cons, IH. tauto.
Qed.

Lemma insert_sorted_sorted x l :
  sorted_by key l -> sorted_by key (insert_sorted key x l).
Proof.
  induction l as [|y l IH]; cbn; intros H.
  - split; [constructor|done].
  - destruct H as [Hy Hl]. destruct (key_lt (key x) (key y)) eqn:E; cbn.
    + split; [|done]. apply Forall_cons. split.
      * apply key_lt_true in E. apply key_lt_false. lia.
      * eapply Forall_impl; [exact Hy|]. cbn. intros z Hz.
        apply key_lt_true in E. apply key_lt_false in Hz.
        apply key_lt_false. lia.
    + split; [|by apply IH]. apply Forall_insert_sorted. done.
Qed.

Lemma insert_sorted_perm x l : insert_sorted key x l ≡ₚ x :: l.
Proof.
  induction l as [|y l IH]; cbn; [done|].
  destruct (key_lt (key x) (key y)); [done|].
  rewrite IH. apply Permutation_swap.
Qed.

Lemma sort_by_snoc l x :
  sort_by key (l ++ [x]) = insert_sorted key x (sort_by key l).
Proof. unfold sort_by. by rewrite fold_left_app. Qed.

Lemma sort_by_sorted l : sorted_by key (sort_by key l).
Proof.
  induction l as [|x l IH] using rev_ind; [done|].
  rewrite sort_by_snoc. by apply insert_sorted_sorted.
Qed.

Lemma sort_by_perm l : sort_by key l ≡ₚ l.
Proof.
  induction l as [|x l IH] using rev_ind; [done|].
  rewrite sort_by_snoc, insert_sorted_perm, IH.
  by rewrite Permutation_cons_append.
Qed.

Lemma filter_none (P : A -> Prop) `{forall x, Decision (P x)} l :
  Forall (fun a => ~ P a) l -> filter P l = [].
Proof.
  induction 1 as [|a l Ha Hl IH]; [done|].
  by rewrite filter_cons, decide_False.
Qed.

(** Elements with equal keys keep their order. *)
Lemma insert_sorted_stable k x l :
  sorted_by key l ->
  filter (fun a => key a = k) (insert_sorted key x l)
  = filter (fun a => key a = k) l ++ (if decide (key x = k) then [x] else []).
Proof.
  induction l as [|y l IH]; cbn [insert_sorted sorted_by]; intros H.
  - rewrite filter_cons, filter_nil. by destruct (decide (key x = k)).
  - destruct H as [Hy Hl]. destruct (key_lt (key x) (key y)) eqn:E.
    + rewrite filter_cons. destruct (decide (key x = k)) as [Hk|Hk].
      * rewrite (filter_none _ (y :: l)); [done|].
        apply key_lt_true in E. apply Forall_cons. split.
        -- intros Hyk. rewrite <- Hk in Hyk. rewrite Hyk in E. lia.
        -- eapply Forall_impl; [exact Hy|]. cbn. intros z Hz Hzk.
           apply key_lt_false in Hz. rewrite <- Hk in Hzk. rewrite Hzk in Hz.
           lia.
      * by rewrite app_nil_r.
    + rewrite !filter_cons, IH by done.
      by destruct (decide (key y = k)).
Qed.

Lemma sort_by_stable k l :
  filter (fun a => key a = k) (sort_by key l) = filter (fun a => key a = k) l.
Proof.
  induction l as [|x l IH] using rev_ind; [done|].
  rewrite sort_by_snoc, insert_sorted_stable by apply sort_by_sorted.
  rewrite IH, filter_app, filter_cons, filter_nil.
  by destruct (decide (key x = k)).
Qed.

Lemma sorted_by_lookup l i j a b :
  sorted_by key l -> (i < j)%nat ->
  l !! i = Some a -> l !! j = Some b ->
  key_lt (key b) (key a) = false.
Proof.
  revert i j. induction l as [|x l IH]; intros i j H Hij Hi Hj; [done|].
  destruct H as [Hx Hl]. destruct j as [|j]; [lia|]. cbn in Hj.
  destruct i as [|i]; cbn in Hi.
  - injection Hi as ->. rewrite Forall_forall in Hx. apply Hx.
    by eapply list_elem_of_lookup_2.
  - apply (IH i j); [done|lia|done|done].
Qed.

End Sort.

Import Database AlertDetector Anomalies.

Lemma severity_of_alert now route_id rows a :
  a ∈ get_all_alerts now route_id rows ->
  match a with
  | Bunching _ | SpeedAnomaly _ => severity_of a = "warning"%string
  | Stalled _ => severity_of a = "info"%string
  end.
Proof.
  intros Ha. apply AnomalyExtras.elem_of_get_all_alerts in Ha
    as [(r & _ & [(b & -> & Hb)|(s & -> & Hs)])|(s & -> & Hs)]; cbn.
  - unfold detect_bunching in Hb.
    by apply AlertProps.scan_pairs_elem in Hb as (? & ? & _ & _ & -> & _).
  - unfold detect_speed_anomalies in Hs.
    apply AnomalyExtras.elem_of_flat_map in Hs as (v & _ & Hs).
    unfold speed_alerts_of in Hs. destruct (speed v); [|by apply elem_of_nil in Hs].
    destruct (float_lt _ _); [|by apply elem_of_nil in Hs].
    by apply list_elem_of_singleton in Hs as ->.
  - by apply AnomalyExtras.stalled_alert_row in Hs as (? & _ & _ & _ & ->).
Qed.

(** X14: GET /alerts returns the alerts of [get_all_alerts], all of
    them and no other, with their number; they are ordered by severity
    rank and then timestamp, alerts with the same rank and timestamp
    keeping the order the detectors produced them in; every alert is a
    warning or an info (rank 0, error, does not occur), so all
    warnings come before all infos. *)
Theorem alerts_sorted_by_severity (now : Time.datetime)
    (route_id : option string) (rows : list Vehicle) :
  let found := get_all_alerts now route_id rows in
  let resp := get_alerts now route_id rows in
  alerts resp ≡ₚ found
  /\ alerts_count resp = length found
  /\ sorted_by sort_key (alerts resp)
  /\ (forall k, filter (fun a => sort_key a = k) (alerts resp)
                = filter (fun a => sort_key a = k) found)
  /\ (forall a, a ∈ alerts resp ->
        fst (sort_key a) = 1 \/ fst (sort_key a) = 2)
  /\ (forall i j a b,
        alerts resp !! i = Some a -> alerts resp !! j = Some b ->
        severity_of a = "warning"%string -> severity_of b = "info"%string ->
        (i < j)%nat).
Proof.
  intros found resp. subst resp. unfold get_alerts. cbn [alerts alerts_count].
  fold found.
  split; [apply sort_by_perm|]. split; [by rewrite sort_by_perm|].
  split; [apply sort_by_sorted|]. split; [intros k; apply sort_by_stable|].
  split.
  - intros a Ha. rewrite sort_by_perm in Ha.
    apply severity_of_alert in Ha. unfold sort_key. cbn [fst].
    destruct a; rewrite Ha; [left|left|right]; reflexivity.
  - intros i j a b Hi Hj Ha Hb.
    destruct (decide (i < j)%nat) as [|Hge]; [done|]. exfalso.
    destruct (decide (i = j)) as [->|Hne].
    { rewrite Hi in Hj. injection Hj as ->. rewrite Ha in Hb. discriminate. }
    pose proof (sorted_by_lookup sort_key _ j i b a
                  (sort_by_sorted sort_key found) ltac:(lia) Hj Hi) as H.
    unfold sort_key in H. rewrite Ha, Hb in H. discriminate H.
Qed.

Lemma alerts_sorted_by_severity_witness :
  sorted_by sort_key
    (alerts (get_alerts (Time.seconds 2000) None
               [AnomalyVocabulary.in_transit "a" (Time.seconds 1000);
                AnomalyVocabulary.in_transit "b" (Time.seconds 1990)])).
Proof.
  destruct (alerts_sorted_by_severity (Time.seconds 2000) None
              [AnomalyVocabulary.in_transit "a" (Time.seconds 1000);
               AnomalyVocabulary.in_transit "b" (Time.seconds 1990)])
    as (_ & _ & H & _).
  exact H.
Defined.

End SortExtras.

(** ** GET /vehicles and GET /health *)

Module ApiExtras.

Import Database MBTAClient Collector Api ApiVocabulary Ordering.

(** *** Descending order *)

Section Desc.

Context {A : Type} (key : A -> Z).

Lemma insert_by_desc_perm x l : insert_by_desc key x l ≡ₚ x :: l.
Proof.
  induction l as [|y l IH]; cbn; [done|].
  destruct (key y <? key x); [done|].
  rewrite IH. apply Permutation_swap.
Qed.

Lemma order_by_desc_snoc l x :
  order_by_desc key (l ++ [x]) = insert_by_desc key x (order_by_desc key l).
Proof. unfold order_by_desc. by rewrite fold_left_app. Qed.

Lemma order_by_desc_perm l : order_by_desc key l ≡ₚ l.
Proof.
  induction l as [|x l IH] using rev_ind; [done|].
  rewrite order_by_desc_snoc, insert_by_desc_perm, IH.
  by rewrite Permutation_cons_append.
Qed.

Lemma insert_by_desc_descending x l :
  descending key l -> descending key (insert_by_desc key x l).
Proof.
  induction l as [|y l IH]; cbn; intros H.
  - split; [constructor|done].
  - destruct H as [Hy Hl]. destruct (key y <? key x) eqn:E; cbn.
    + split; [|done]. apply Forall_cons. split; [lia|].
      eapply Forall_impl; [exact Hy|]. cbn. intros z Hz. lia.
    + split; [|by apply IH].
      rewrite insert_by_desc_perm. apply Forall_cons. split; [lia|done].
Qed.

Lemma order_by_desc_descending l : descending key (order_by_desc key l).
Proof.
  induction l as [|x l IH] using rev_ind; [done|].
  rewrite order_by_desc_snoc. by apply insert_by_desc_descending.
Qed.

(** The first row of the descending order has the largest key. *)
Lemma head_order_by_desc l :
  match head (order_by_desc key l) with
  | Some v => v ∈ l /\ forall v', v' ∈ l -> key v' <= key v
  | None => l = []
  end.
Proof.
  pose proof (order_by_desc_perm l) as Hp.
  pose proof (order_by_desc_descending l) as Hd.
  destruct (order_by_desc key l) as [|v rest]; cbn.
  - by apply Permutation_nil_l in Hp.
  - destruct Hd as [Hv _]. split.
    + rewrite <- Hp. left.
    + intros v' Hv'. rewrite <- Hp in Hv'.
      apply elem_of_cons in Hv' as [->|Hv']; [lia|].
      rewrite Forall_forall in Hv. by apply Hv.
Qed.

End Desc.

(** X15: GET /vehicles serves exactly the rows updated within the last
    2 minutes (of the given route, when a non-empty route filter is
    given), most recently updated first. *)
Theorem vehicles_served_are_fresh (now : Time.datetime)
    (route_id : option string) (rows : list Vehicle) :
  (forall v, v ∈ get_vehicles now route_id rows <->
     v ∈ rows /\ now - Time.minutes 2 <= last_updated v
     /\ match route_id with
        | Some r => str_truthy r = true -> Database.route_id v = Some r
        | None => True
        end)
  /\ descending last_updated (get_vehicles now route_id rows).
Proof.
  unfold get_vehicles. split; [|apply order_by_desc_descending].
  intros v. rewrite order_by_desc_perm, list_elem_of_filter.
  destruct route_id as [r|]; [destruct (str_truthy r)|].
  - rewrite list_elem_of_filter. split; [intros (? & ? & ?)|intros (? & ? & H)];
      repeat split; try done. by apply H.
  - split; [intros (? & ?)|intros (? & ? & _)]; done.
  - split; [intros (? & ?)|intros (? & ? & _)]; done.
Qed.

Lemma vehicles_served_are_fresh_witness :
  AnomalyVocabulary.in_transit "a" (Time.seconds 1000)
  ∈ get_vehicles (Time.seconds 1010) (Some "Red"%string)
      [AnomalyVocabulary.in_transit "a" (Time.seconds 1000)].
Proof.
  destruct (vehicles_served_are_fresh (Time.seconds 1010) (Some "Red"%string)
              [AnomalyVocabulary.in_transit "a" (Time.seconds 1000)])
    as [H _].
  apply H. split; [left|]. split; [vm_compute; discriminate|].
  intros _. reflexivity.
Defined.

(** X16: after a cycle that commits, every vehicle it listed is served
    by GET /vehicles (without a route filter) for as long as the
    collection time is within the last 2 minutes, as one row carrying
    the snapshot's values. *)
Theorem collected_vehicle_is_served (d : database) (c : cycle)
    (s : vehicle_data) (now : Time.datetime) :
  unique_vehicle_ids (vehicles d) ->
  (forall op, cy_fault c op = false) ->
  NoDup (map vd_vehicle_id (parsed (cy_net c))) ->
  s ∈ parsed (cy_net c) ->
  now - Time.minutes 2 <= cy_time c ->
  rows_of (vd_vehicle_id s)
    (get_vehicles now None (vehicles (run_cycle d c)))
  = [new_vehicle s (cy_time c)].
Proof.
  intros U F Hnd Hs Hfresh.
  rewrite (CollectorProps.run_cycle_commits d c U F Hnd).
  unfold staged_writes. cbn [vehicles].
  pose proof (ok_rows _ _ _ _
                (CollectorProps.stage_all_ok (cy_time c) (vehicles d) U _ Hnd)
                s Hs) as Hrow.
  unfold all_rows in Hrow.
  set (rows' := objects _ ++ vehicles_to_insert _) in *.
  apply Permutation_singleton_r.
  unfold get_vehicles, rows_of in *.
  rewrite order_by_desc_perm.
  rewrite list_filter_filter.
  rewrite (list_filter_iff _
             (fun v => (now - Time.minutes 2 <= last_updated v)
                       /\ vehicle_id v = vd_vehicle_id s)) by (intros; tauto).
  rewrite <- list_filter_filter, Hrow.
  rewrite filter_cons, filter_nil. cbn. by rewrite decide_True.
Qed.

Lemma collected_vehicle_is_served_witness :
  rows_of "y1"
    (get_vehicles 70000000 None
       (vehicles (run_cycle Database.empty
                    (Samples.cycle_at Samples.no_fault [Samples.y1] 10))))
  = [new_vehicle Samples.y1_snapshot 10].
Proof.
  apply (collected_vehicle_is_served Database.empty
           (Samples.cycle_at Samples.no_fault [Samples.y1] 10)
           Samples.y1_snapshot 70000000).
  - apply NoDup_nil_2.
  - reflexivity.
  - vm_compute. apply NoDup_singleton.
  - vm_compute. left.
  - vm_compute. discriminate.
Defined.

(** X17: the handler of GET /health returns the database as
    disconnected, with the code 503, as soon as one of its storage
    operations fails (the query for the first event runs only when
    the store has a vehicle); otherwise it returns healthy (and no
    code of its own) exactly when the store has no vehicle at all or
    some vehicle was updated less than 2 minutes ago, and unhealthy
    with the code 503 when the most recent update is 2 minutes old or
    more. *)
Theorem health_reflects_last_update (fault : health_op -> bool)
    (now : Time.datetime) (d : database) :
  (fault Ping = true \/ fault LastVehicle = true \/ fault CountVehicles = true
   \/ (fault FirstEvent = true /\ vehicles d <> []) ->
   health_check fault now d = disconnected)
  /\ ((forall op, fault op = false) ->
      let h := health_check fault now d in
      database_state h = "connected"%string
      /\ vehicles_tracked h = length (vehicles d)
      /\ (status h = "healthy"%string <->
          vehicles d = []
          \/ exists v, v ∈ vehicles d
                       /\ now - last_updated v < Time.minutes 2)
      /\ (http_status h = 200 <-> status h = "healthy"%string)
      /\ (http_status h = 503 <-> status h = "unhealthy"%string)).
Proof.
  unfold health_check. split.
  - intros [-> |[-> |[-> |[F Hne]]]];
      [done|by destruct (fault Ping)
      |by destruct (fault Ping), (fault LastVehicle)|].
    destruct (fault Ping); [done|]. destruct (fault LastVehicle); [done|].
    destruct (fault CountVehicles); [done|]. unfold last_vehicle.
    pose proof (head_order_by_desc last_updated (vehicles d)) as Hh.
    destruct (head (order_by_desc last_updated (vehicles d))) as [v|]; cbn;
      [by rewrite F|done].
  - intros F. rewrite !F. unfold last_vehicle.
    pose proof (head_order_by_desc last_updated (vehicles d)) as Hh.
    destruct (head (order_by_desc last_updated (vehicles d))) as [v|]; cbn.
    + destruct Hh as [Hv Hmax].
      destruct (now - last_updated v <? Time.minutes 2) eqn:E; cbn.
      * split; [done|]. split; [done|]. split; [|done].
        split; [|done]. intros _. right. exists v. split; [done|lia].
      * split; [done|]. split; [done|]. split; [|done].
        split; [done|]. intros [Hnil|(v' & Hv' & Hrec)]; exfalso.
        -- rewrite Hnil in Hv. by apply elem_of_nil in Hv.
        -- specialize (Hmax v' Hv'). lia.
    + rewrite Hh. cbn. split; [done|]. split; [done|]. split; [|done].
      split; [|done]. intros _. by left.
Qed.

Lemma health_reflects_last_update_witness :
  health_check (fun op => match op with Ping => true | _ => false end) 0
    Database.empty = disconnected.
Proof.
  destruct (health_reflects_last_update
              (fun op => match op with Ping => true | _ => false end) 0
              Database.empty) as [H _].
  apply H. by left.
Defined.

(** X18: right after a cycle that commits at least one vehicle, and for
    the next 2 minutes, GET /health reports healthy. *)
Theorem healthy_after_collection (d : database) (c : cycle)
    (s : vehicle_data) (now : Time.datetime) :
  unique_vehicle_ids (vehicles d) ->
  (forall op, cy_fault c op = false) ->
  NoDup (map vd_vehicle_id (parsed (cy_net c))) ->
  s ∈ parsed (cy_net c) ->
  now - cy_time c < Time.minutes 2 ->
  status (health_check (fun _ => false) now (run_cycle d c))
  = "healthy"%string.
Proof.
  intros U F Hnd Hs Hfresh.
  assert (Hrow : new_vehicle s (cy_time c) ∈ vehicles (run_cycle d c)).
  { rewrite (CollectorProps.run_cycle_commits d c U F Hnd).
    unfold staged_writes. cbn [vehicles].
    pose proof (ok_rows _ _ _ _
                  (CollectorProps.stage_all_ok (cy_time c) (vehicles d) U _ Hnd)
                  s Hs) as Hrow.
    unfold all_rows, rows_of in Hrow.
    assert (new_vehicle s (cy_time c)
            ∈ filter (fun v => vehicle_id v = vd_vehicle_id s)
                (objects (stage_all (cy_time c) (vehicles d) (parsed (cy_net c)))
                 ++ vehicles_to_insert
                      (stage_all (cy_time c) (vehicles d) (parsed (cy_net c)))))
      as H by (rewrite Hrow; left).
    by apply list_elem_of_filter in H as [_ H]. }
  unfold health_check, last_vehicle. cbn [negb].
  pose proof (head_order_by_desc last_updated (vehicles (run_cycle d c))) as Hh.
  destruct (head (order_by_desc last_updated (vehicles (run_cycle d c))))
    as [v|]; cbn.
  - destruct Hh as [_ Hmax]. specialize (Hmax _ Hrow). cbn in Hmax.
    by assert ((now - last_updated v <? Time.minutes 2) = true) as -> by lia.
  - done.
Qed.

Lemma healthy_after_collection_witness :
  status (health_check (fun _ => false) 70000000
            (run_cycle Database.empty
               (Samples.cycle_at Samples.no_fault [Samples.y1] 10)))
  = "healthy"%string.
Proof.
  apply (healthy_after_collection Database.empty
           (Samples.cycle_at Samples.no_fault [Samples.y1] 10)
           Samples.y1_snapshot 70000000).
  - apply NoDup_nil_2.
  - reflexivity.
  - vm_compute. apply NoDup_singleton.
  - vm_compute. left.
  - reflexivity.
Defined.

End ApiExtras.

(** ** Delay recomputation and delay history *)

Module DelayExtras.

Import Database DelayCalculator DelayHistory DelayVocabulary DelayProps Ordering
  OrderProps.

Lemma filter_alter_elsewhere {A} (P : A -> Prop) `{!forall x, Decision (P x)}
    (f : A -> A) (i : nat) (l : list A) :
  (forall x, l !! i = Some x -> ~ P x /\ ~ P (f x)) ->
  filter P (alter f i l) = filter P l.
Proof.
  revert i. induction l as [|x l IH]; intros [|i] Hi;
    cbn [alter list_alter]; try done.
  - destruct (Hi x eq_refl) as [H1 H2]. rewrite !filter_cons.
    by rewrite !decide_False.
  - rewrite !filter_cons, IH; [done|]. intros y Hy. by apply (Hi y).
Qed.

Lemma alter_fixed {A} (f : A -> A) (i : nat) (l : list A) x :
  l !! i = Some x -> f x = x -> alter f i l = l.
Proof.
  revert i. induction l as [|y l IH]; intros [|i] Hi E;
    cbn [alter list_alter] in *; try done.
  - cbn in Hi. injection Hi as ->. by rewrite E.
  - f_equal. by apply IH.
Qed.

Section Elsewhere.

Variables (r : string) (name : option string) (now : Time.datetime) (hw : Z).
Variable rows0 : list RouteDelay.
Variable P : RouteDelay -> Prop.
Context `{!forall x, Decision (P x)}.
Hypothesis P_other : forall x, P x -> rd_route_id x <> r.

Lemma step_elsewhere working item :
  agrees rows0 working ->
  filter P (hour_update r name now hw rows0 working item) = filter P working.
Proof.
  intros Hag. unfold hour_update.
  destruct (hour_delays hw (snd item)) as [|d ds]; [done|].
  destruct (find_index (matches r (fst item)) rows0) as [i|] eqn:F.
  - apply find_index_Some in F as (x0 & Hx0 & Hp0 & _).
    destruct (Hag i x0 Hx0) as (x & Hx & Hm).
    assert (Hr : rd_route_id x = r).
    { rewrite <- Hm in Hp0. by apply matches_true in Hp0 as [? _]. }
    apply filter_alter_elsewhere. intros y Hy.
    rewrite Hx in Hy. injection Hy as <-.
    split; intros HP; by apply P_other in HP.
  - rewrite filter_app, filter_cons, filter_nil.
    rewrite decide_False; [by rewrite app_nil_r|].
    intros HP. by apply P_other in HP.
Qed.

Lemma fold_elsewhere items working :
  agrees rows0 working ->
  filter P (fold_left (hour_update r name now hw rows0) items working)
  = filter P working.
Proof.
  revert working. induction items as [|item items IH]; intros working Hag;
    [done|].
  cbn [fold_left]. rewrite IH by (by apply step_agrees).
  by apply step_elsewhere.
Qed.

End Elsewhere.

Section Growth.

Variables (r : string) (name : option string) (now : Time.datetime) (hw : Z).
Variable rows0 : list RouteDelay.

Lemma fold_length items working :
  (length working
   <= length (fold_left (hour_update r name now hw rows0) items working))%nat.
Proof.
  revert working. induction items as [|item items IH]; intros working;
    [done|].
  cbn [fold_left]. etrans; [|apply IH]. unfold hour_update.
  destruct (hour_delays hw (snd item)); [done|].
  destruct (find_index _ rows0).
  - by rewrite length_alter.
  - rewrite length_app. lia.
Qed.

End Growth.

(** X19: whatever storage operation fails, a recomputation for a route
    leaves the vehicles and the telemetry events as they are, keeps
    the delay rows of every other route as they are and in order, and
    never removes a delay row. *)
Theorem recomputation_is_local (fault : db_op -> bool) (now : Time.datetime)
    (route_id : string) (hours_back : Z) (d : database) :
  let d' := db (snd (calculate_route_delays fault now route_id hours_back
                       (open_session d []))) in
  vehicles d' = vehicles d
  /\ telemetry_events d' = telemetry_events d
  /\ (forall other, other <> route_id ->
        rows_of_route other (route_delays d')
        = rows_of_route other (route_delays d))
  /\ (length (route_delays d) <= length (route_delays d'))%nat.
Proof.
  pose proof (calculate_run fault now route_id hours_back d) as H.
  cbn zeta in H.
  destruct (calculate_route_delays _ _ _ _ _) as [[e|[]] w]; cbn [fst snd].
  - destruct H as (-> & _). done.
  - destruct H as (_ & _ & Hv & He & _ & c & _ & Hrd). rewrite Hrd.
    split; [done|]. split; [done|]. split.
    + intros other Hne. unfold rows_of_route.
      apply fold_elsewhere; [congruence|apply agrees_refl].
    + apply fold_length.
Qed.

Lemma recomputation_is_local_witness :
  rows_of_route "Blue"
    (route_delays
       (db (snd (calculate_route_delays Samples.no_fault (Time.minutes 30)
                   "Red" 24 (open_session with_delay_rows [])))))
  = rows_of_route "Blue" (route_delays with_delay_rows).
Proof.
  destruct (recomputation_is_local Samples.no_fault (Time.minutes 30) "Red" 24
              with_delay_rows) as (_ & _ & H & _).
  by apply H.
Defined.

(** X20: a recomputation keeps the delay table free of duplicate keys:
    when no two rows share route and hour before the call, none do
    after it, whatever storage operation fails (the table itself has
    no such constraint). *)
Theorem recomputation_keeps_keys_unique (fault : db_op -> bool)
    (now : Time.datetime) (route_id : string) (hours_back : Z)
    (d : database) :
  keys_unique (route_delays d) ->
  keys_unique
    (route_delays
       (db (snd (calculate_route_delays fault now route_id hours_back
                   (open_session d []))))).
Proof.
  intros U.
  pose proof (calculate_run fault now route_id hours_back d) as H.
  cbn zeta in H.
  destruct (calculate_route_delays _ _ _ _ _) as [[e|[]] w]; cbn [fst snd].
  - destruct H as (-> & _). done.
  - destruct H as (_ & _ & _ & _ & _ & c & _ & Hrd).
    rewrite Hrd, group_events_grouped.
    intros r h. destruct (decide (r = route_id)) as [->|Hne].
    + pose proof (fold_grouped_hour route_id
                    (head (select_events route_id c (telemetry_events d))
                     ≫= ev_route_id)
                    now (scheduled_headway_of route_id) (route_delays d)
                    (select_events route_id c (telemetry_events d)) h) as Hh.
      cbn zeta in Hh. specialize (U route_id h).
      destruct (hour_samples _ _ _).
      * by rewrite Hh.
      * destruct Hh as (row & _ & _ & _ & _ & _ & _ & ->). lia.
    + unfold rows_for. rewrite fold_elsewhere.
      * apply U.
      * intros x [? _]%matches_true. congruence.
      * apply agrees_refl.
Qed.

Lemma recomputation_keeps_keys_unique_witness :
  keys_unique
    (route_delays
       (db (snd (calculate_route_delays Samples.no_fault (Time.minutes 30)
                   "Red" 24 (open_session Samples.nine_minutes_apart []))))).
Proof.
  apply (recomputation_keeps_keys_unique Samples.no_fault (Time.minutes 30)
           "Red" 24 Samples.nine_minutes_apart).
  intros r h. cbn. lia.
Defined.

(** Running the update loop again on its own result changes nothing. *)
Lemma fold_fixed r name now hw rows0 events :
  let rows1 := fold_left (hour_update r name now hw rows0) (grouped events)
                 rows0 in
  fold_left (hour_update r name now hw rows1) (grouped events) rows1 = rows1.
Proof.
  intros rows1.
  assert (G : forall items, (forall item, item ∈ items -> item ∈ grouped events) ->
                fold_left (hour_update r name now hw rows1) items rows1 = rows1).
  { induction items as [|item items IH]; intros Hsub; [done|].
    cbn [fold_left].
    assert (hour_update r name now hw rows1 rows1 item = rows1) as ->.
    { unfold hour_update.
      destruct (hour_delays hw (snd item)) as [|s ss] eqn:Hds; [done|].
      destruct item as [h vs]. cbn [fst snd] in *.
      destruct (fold_same r name now hw rows0 (grouped events) h vs s ss)
        as (row & Hst & Hr & Hh & Ha & Hn & Ht & _).
      - rewrite grouped_keys. apply DictProps.NoDup_first_occurrences.
      - apply Hsub. left.
      - done.
      - fold rows1 in Hst. unfold stored in Hst.
        destruct (find_index (matches r h) rows1) as [i|]; [|done].
        apply (alter_fixed _ _ _ row Hst).
        destruct row. cbn in *. by subst. }
    apply IH. intros it Hit. apply Hsub. by right. }
  by apply G.
Qed.

(** X21: recomputing a route's delays a second time at the same instant
    changes nothing: each row the first run wrote is found again and
    overwritten with the same values, and no row is added. *)
Theorem recomputation_is_idempotent (fault : db_op -> bool)
    (now : Time.datetime) (route_id : string) (hours_back : Z)
    (d : database) :
  (forall op, fault op = false) ->
  let d1 := db (snd (calculate_route_delays fault now route_id hours_back
                       (open_session d []))) in
  db (snd (calculate_route_delays fault now route_id hours_back
             (open_session d1 [])))
  = d1.
Proof.
  intros Hok.
  pose proof (calculate_run fault now route_id hours_back d) as H.
  cbn zeta in H.
  destruct (calculate_route_delays _ _ _ _ (open_session d []))
    as [[e|[]] w] eqn:E1; cbn [fst snd].
  { destruct H as (Hdb & _). by rewrite Hdb, E1. }
  destruct H as (_ & _ & Hv & He & _ & c & Hc & Hrd).
  pose proof (calculate_run fault now route_id hours_back (db w)) as H2.
  cbn zeta in H2.
  destruct (calculate_route_delays _ _ _ _ (open_session (db w) []))
    as [[e|[]] w2]; cbn [fst snd].
  { by destruct H2 as (-> & _). }
  destruct H2 as (_ & _ & Hv2 & He2 & _ & c2 & Hc2 & Hrd2).
  rewrite Hc in Hc2. injection Hc2 as <-.
  rewrite He, group_events_grouped in Hrd2.
  rewrite group_events_grouped in Hrd.
  rewrite Hrd in Hrd2.
  rewrite fold_fixed in Hrd2. rewrite <- Hrd in Hrd2.
  destruct (db w2), (db w). cbn in *. congruence.
Qed.

Lemma recomputation_is_idempotent_witness :
  let d1 := db (snd (calculate_route_delays Samples.no_fault (Time.minutes 30)
                       "Red" 24 (open_session Samples.nine_minutes_apart []))) in
  db (snd (calculate_route_delays Samples.no_fault (Time.minutes 30) "Red" 24
             (open_session d1 [])))
  = d1.
Proof.
  apply (recomputation_is_idempotent Samples.no_fault (Time.minutes 30) "Red"
           24 Samples.nine_minutes_apart).
  reflexivity.
Defined.


(** *** The history *)

Lemma ascending_fmap {A B} (f : A -> B) (key : B -> Z) (l : list A) :
  ascending (fun x => key (f x)) l -> ascending key (map f l).
Proof.
  induction l as [|x l IH]; cbn; [done|]. intros [Hx Hl].
  split; [|by apply IH]. by apply Forall_fmap.
Qed.

Lemma length_filter_fmap {A B} (f : A -> B) (P : B -> Prop)
    `{!forall y, Decision (P y)} (l : list A) :
  length (filter P (map f l)) = length (filter (fun x => P (f x)) l).
Proof.
  induction l as [|x l IH]; cbn [map]; [done|]. rewrite !filter_cons.
  destruct (decide (P (f x))); cbn; by rewrite IH.
Qed.


Lemma history_rows_record now route_id hours_back rows rec :
  (exists row, row ∈ rows /\ rd_route_id row = route_id
               /\ now - Time.hours hours_back <= rd_calculated_at row
               /\ rec = record_of row) ->
  rec ∈ get_delay_history now route_id hours_back rows.
Proof.
  intros (row & Hrow & Hr & Ht & ->).
  unfold get_delay_history, history_rows. apply list_elem_of_fmap.
  exists row. split; [done|].
  rewrite order_by_perm, list_elem_of_filter. done.
Qed.

(** X22: the delay history of a route lists exactly the route's rows
    calculated within the window, one record per row, by increasing
    hour of day. *)
Theorem history_sorted_by_hour (now : Time.datetime) (route_id : string)
    (hours_back : Z) (rows : list RouteDelay) :
  let history := get_delay_history now route_id hours_back rows in
  ascending hour_of_day history
  /\ (forall rec, rec ∈ history <->
        exists row, row ∈ rows /\ rd_route_id row = route_id
                    /\ now - Time.hours hours_back <= rd_calculated_at row
                    /\ rec = record_of row).
Proof.
  unfold get_delay_history, history_rows. split.
  - apply ascending_fmap. apply (order_by_ascending rd_hour_of_day).
  - intros rec. rewrite list_elem_of_fmap. split.
    + intros (row & -> & Hrow). exists row.
      rewrite order_by_perm, list_elem_of_filter in Hrow.
      destruct Hrow as [[? ?] ?]. done.
    + intros (row & Hrow & Hr & Ht & ->). exists row. split; [done|].
      rewrite order_by_perm, list_elem_of_filter. done.
Qed.

Lemma history_sorted_by_hour_witness :
  exists row,
    row ∈ route_delays with_delay_rows /\ rd_route_id row = "Red"%string
    /\ 0 - Time.hours 24 <= rd_calculated_at row
    /\ {| hour_of_day := 0; avg_delay_minutes := 0; sample_count := 2;
          calculated_at := 0 |} = record_of row.
Proof.
  destruct (history_sorted_by_hour 0 "Red" 24 (route_delays with_delay_rows))
    as [_ H].
  apply H. vm_compute. left.
Defined.

(** X23: on a delay table without duplicate keys, the history of a
    route has at most one record per hour of day. *)
Theorem history_one_record_per_hour (now : Time.datetime) (route_id : string)
    (hours_back : Z) (rows : list RouteDelay) (hour : Z) :
  keys_unique rows ->
  (length (filter (fun rec => hour_of_day rec = hour)
             (get_delay_history now route_id hours_back rows)) <= 1)%nat.
Proof.
  intros U. unfold get_delay_history, history_rows.
  rewrite length_filter_fmap. cbn [record_of hour_of_day].
  rewrite order_by_perm, list_filter_filter.
  etrans; [|apply (U route_id hour)]. clear U. unfold rows_for.
  apply submseteq_length, sublist_submseteq.
  induction rows as [|x rows IH]; [done|]. rewrite !filter_cons.
  destruct (decide (rd_hour_of_day x = hour
                    /\ rd_route_id x = route_id
                       /\ now - Time.hours hours_back <= rd_calculated_at x))
    as [(Hh & Hr & _)|_].
  - rewrite decide_True by (by apply matches_true). by apply sublist_skip.
  - destruct (decide (matches route_id hour x = true));
      [by apply sublist_cons|done].
Qed.

Lemma history_one_record_per_hour_witness :
  (length (filter (fun rec => hour_of_day rec = 0%Z)
             (get_delay_history 0%Z "Red" 24%Z (route_delays with_delay_rows)))
   <= 1)%nat.
Proof.
  apply (history_one_record_per_hour 0 "Red" 24
           (route_delays with_delay_rows) 0).
  intros r h. unfold rows_for, with_delay_rows. cbn [route_delays].
  rewrite !filter_cons, filter_nil.
  destruct (decide _) as [[E1 _]%matches_true|_];
    destruct (decide _) as [[E2 _]%matches_true|_]; cbn; try lia.
  cbn in E1, E2. congruence.
Defined.

(** X24: the clock reading and the start of the window being
    date-times, the window not reaching into the future and no
    storage operation failing, after a recomputation every hour of
    day with at least one delay sample has a record in the route's
    history carrying the average of the samples (their sum over their
    number), their number and the time of the calculation; the
    samples are those of the route's events since the start of the
    window, in time order. *)
Theorem recomputed_hour_in_history (fault : db_op -> bool)
    (now : Time.datetime) (route_id : string) (hours_back : Z)
    (d : database) (hour : Z) (events : list TelemetryEvent) :
  (forall op, fault op = false) ->
  0 <= hours_back ->
  Time.MIN <= now <= Time.MAX ->
  Time.MIN <= now - Time.hours hours_back ->
  in_key_order ev_timestamp events
    (filter (fun e => ev_route_id e = Some route_id
                      /\ now - Time.hours hours_back <= ev_timestamp e)
       (telemetry_events d)) ->
  let samples := hour_samples (scheduled_headway_of route_id) hour events in
  samples <> [] ->
  let d' := db (snd (calculate_route_delays fault now route_id hours_back
                       (open_session d []))) in
  exists rec,
    rec ∈ get_delay_history now route_id hours_back (route_delays d')
    /\ hour_of_day rec = hour
    /\ (avg_delay_minutes rec
        == fold_right Qplus 0 samples
           / inject_Z (Z.of_nat (length samples)))%Q
    /\ sample_count rec = length samples
    /\ calculated_at rec = now.
Proof.
  intros Hok Hhb Hnow Hmin Hsel samples Hne.
  assert (Hcut : Time.MIN <= now - Time.hours hours_back <= Time.MAX)
    by (unfold Time.hours in *; lia).
  apply in_key_order_order_by in Hsel.
  fold (select_events route_id (now - Time.hours hours_back)
          (telemetry_events d)) in Hsel.
  pose proof (calculate_run fault now route_id hours_back d) as H.
  destruct (calculate_route_delays _ _ _ _ _) as [[e|[]] w]; cbn [fst snd].
  { destruct H as (_ & _ & _ & [(_ & _ & Hc)|(op & _ & F & _)]).
    - by rewrite (cutoff_in_range now hours_back Hnow Hcut) in Hc.
    - by rewrite Hok in F. }
  destruct H as (_ & _ & _ & _ & _ & c & Hc & Hrd).
  rewrite (cutoff_in_range now hours_back Hnow Hcut) in Hc.
  injection Hc as <-. rewrite <- Hsel in Hrd.
  rewrite Hrd, group_events_grouped.
  pose proof (fold_grouped_hour route_id (head events ≫= ev_route_id) now
                (scheduled_headway_of route_id) (route_delays d) events hour)
    as Hh.
  cbn zeta in Hh. fold samples in Hh.
  destruct samples as [|s ss] eqn:Hs; [done|].
  destruct Hh as (row & Hst & Hr & Hhr & Ha & Hn & Ht & _).
  exists (record_of row). split; [|split; [done|split; [|done]]].
  - apply history_rows_record. exists row. repeat split; try done.
    + unfold stored in Hst. destruct (find_index _ _); [|done].
      by eapply list_elem_of_lookup_2.
    + rewrite Ht. unfold Time.hours. lia.
  - cbn. rewrite Ha. apply average_sum.
Qed.

Lemma recomputed_hour_in_history_witness :
  exists rec,
    rec ∈ get_delay_history (Time.minutes 30) "Red" 24
            (route_delays
               (db (snd (calculate_route_delays Samples.no_fault
                           (Time.minutes 30) "Red" 24
                           (open_session Samples.nine_minutes_apart [])))))
    /\ hour_of_day rec = 0 /\ sample_count rec = 1%nat.
Proof.
  destruct (recomputed_hour_in_history Samples.no_fault (Time.minutes 30) "Red"
              24 Samples.nine_minutes_apart 0
              (telemetry_events Samples.nine_minutes_apart))
    as (rec & H1 & H2 & _ & H3 & _).
  - reflexivity.
  - lia.
  - vm_compute. split; discriminate.
  - vm_compute. discriminate.
  - split.
    + cbn [ascending telemetry_events Samples.nine_minutes_apart].
      split; [|split; [constructor|exact I]].
      apply Forall_singleton. vm_compute. discriminate.
    + intros k.
      assert (filter (fun e => ev_route_id e = Some "Red"%string
                               /\ Time.minutes 30 - Time.hours 24
                                  <= ev_timestamp e)
                (telemetry_events Samples.nine_minutes_apart)
              = telemetry_events Samples.nine_minutes_apart) as ->
        by (vm_compute; reflexivity).
      reflexivity.
  - vm_compute. discriminate.
  - exists rec. split; [exact H1|]. split; [exact H2|].
    rewrite H3. vm_compute. reflexivity.
Defined.

(** *** GET /routes/{route_id}/delays *)





End DelayExtras.

(** ** Headway analysis *)

Module HeadwayExtras.

Import Database HeadwayAnalyzer HeadwayVocabulary Ordering.

Lemma get_set_ne {K V} `{EqDecision K} (d : PyDict.dict K V) k k' v :
  k <> k' -> PyDict.get k (PyDict.set k' v d) = PyDict.get k d.
Proof.
  intros Hne. induction d as [|[k0 v0] d IH]; cbn.
  - by rewrite decide_False.
  - destruct (decide (k' = k0)) as [->|Hk]; cbn.
    + by rewrite !decide_False.
    + destruct (decide (k = k0)); [done|apply IH].
Qed.

Lemma mem_get {K V} `{EqDecision K} (d : PyDict.dict K V) k :
  PyDict.mem k d = true -> exists v, PyDict.get k d = Some v.
Proof. unfold PyDict.mem. destruct (PyDict.get k d); [eauto|done]. Qed.

Lemma adjacent_gaps_cons r a b rest :
  adjacent_gaps r (a :: b :: rest)
  = if bool_decide (ev_route_id a = r /\ ev_route_id b = r
                    /\ ev_vehicle_id a = ev_vehicle_id b)
    then gap_minutes a b :: adjacent_gaps r (b :: rest)
    else adjacent_gaps r (b :: rest).
Proof. reflexivity. Qed.

Ltac occurs_later r b rest :=
  destruct (decide (r ∈ map ev_route_id rest));
  [ rewrite (bool_decide_true (r ∈ map ev_route_id rest)) by done;
    rewrite (bool_decide_true (r ∈ map ev_route_id (b :: rest)))
      by (cbn; by right)
  | rewrite (bool_decide_false (r ∈ map ev_route_id rest)) by done;
    rewrite (bool_decide_false (r ∈ map ev_route_id (b :: rest)))
      by (cbn; intros [?|?]%elem_of_cons; congruence) ].

(** The walk from the state an event leaves behind. *)
Lemma walk_from w a events :
  current_route w = ev_route_id a ->
  current_vehicle w = Some (ev_vehicle_id a) ->
  last_timestamp w = Some (ev_timestamp a) ->
  PyDict.mem (ev_route_id a) (headways_by_route w) = true ->
  exists w',
    walk_events w events = Some w'
    /\ forall r,
         PyDict.get r (headways_by_route w')
         = match PyDict.get r (headways_by_route w) with
           | Some hs => Some (hs ++ adjacent_gaps r (a :: events))
           | None =>
               if bool_decide (r ∈ map ev_route_id events)
               then Some (adjacent_gaps r (a :: events))
               else None
           end.
Proof.
  revert w a. induction events as [|b rest IH]; intros w a Hr Hv Ht Hm.
  { exists w. split; [done|]. intros r. cbn.
    destruct (PyDict.get r _); [by rewrite app_nil_r|].
    by rewrite bool_decide_false by apply not_elem_of_nil. }
  destruct w as [d cr cv lt]. cbn in Hr, Hv, Ht, Hm. subst cr cv lt.
  cbn [walk_events]. unfold step.
  cbn [current_route current_vehicle last_timestamp headways_by_route].
  destruct (decide (ev_route_id b = ev_route_id a)) as [Er|Nr].
  - rewrite (bool_decide_false (ev_route_id b ≠ ev_route_id a))
      by (intros X; by apply X).
    cbn [current_route current_vehicle last_timestamp headways_by_route].
    destruct (decide (ev_vehicle_id b = ev_vehicle_id a)) as [Ev|Nv].
    + rewrite (bool_decide_false (Some (ev_vehicle_id b) ≠ Some (ev_vehicle_id a)))
        by (intros X; apply X; by rewrite Ev).
      destruct (mem_get _ _ Hm) as [hs0 Hg]. rewrite Hg.
      match goal with
      | |- context [walk_events ?w0 rest] =>
          destruct (IH w0 b) as (w' & -> & Hw')
      end; [cbn; try done..|].
      { by rewrite Ev. }
      { unfold PyDict.mem. by rewrite Er, DictProps.get_set. }
      exists w'. split; [done|]. intros r. rewrite Hw'. cbn [headways_by_route].
      rewrite (adjacent_gaps_cons r a b rest).
      destruct (decide (r = ev_route_id a)) as [->|Hne].
      * rewrite DictProps.get_set, Hg.
        rewrite (bool_decide_true (_ /\ _)) by (by rewrite Er, Ev).
        by rewrite <- app_assoc.
      * rewrite get_set_ne by done.
        rewrite (bool_decide_false (_ /\ _)) by (intros (? & _); congruence).
        destruct (PyDict.get r d); [done|].
        by occurs_later r b rest.
    + rewrite (bool_decide_true (Some (ev_vehicle_id b) ≠ Some (ev_vehicle_id a)))
        by congruence.
      match goal with
      | |- context [walk_events ?w0 rest] =>
          destruct (IH w0 b) as (w' & -> & Hw')
      end; [cbn; try done..|].
      { by rewrite Er. }
      exists w'. split; [done|]. intros r. rewrite Hw'. cbn [headways_by_route].
      rewrite (adjacent_gaps_cons r a b rest).
      rewrite (bool_decide_false (_ /\ _)) by (intros (_ & _ & ?); congruence).
      destruct (PyDict.get r d) eqn:Hg; [done|].
      assert (r <> ev_route_id a) as Hne.
      { intros ->. unfold PyDict.mem in Hm. by rewrite Hg in Hm. }
      by occurs_later r b rest.
  - rewrite (bool_decide_true (ev_route_id b ≠ ev_route_id a)) by done.
    cbn [current_route current_vehicle last_timestamp headways_by_route].
    rewrite (bool_decide_true (Some (ev_vehicle_id b) ≠ None)) by done.
    match goal with
    | |- context [walk_events ?w0 rest] =>
        destruct (IH w0 b) as (w' & -> & Hw')
    end; [cbn; try done..|].
    { unfold PyDict.mem.
      destruct (PyDict.get (ev_route_id b) d) eqn:Hg; cbn.
      - by rewrite Hg.
      - by rewrite DictProps.get_set. }
    exists w'. split; [done|]. intros r. rewrite Hw'. cbn [headways_by_route].
    rewrite (adjacent_gaps_cons r a b rest).
    rewrite (bool_decide_false (_ /\ _)) by (intros (? & ? & _); congruence).
    unfold PyDict.mem.
    destruct (PyDict.get (ev_route_id b) d) eqn:Hb.
    + destruct (PyDict.get r d) eqn:Hg; [done|].
      assert (r <> ev_route_id b) as Hne by congruence.
      by occurs_later r b rest.
    + destruct (decide (r = ev_route_id b)) as [->|Hne].
      * rewrite DictProps.get_set, Hb.
        by rewrite (bool_decide_true (_ ∈ _)) by (cbn; left).
      * rewrite get_set_ne by done.
        destruct (PyDict.get r d) eqn:Hg; [done|].
        by occurs_later r b rest.
Qed.

(** X26: on a stream whose first event has a route, the walk returns
    and, per route of the stream, emits exactly the gaps between
    neighbours of the stream that are events of one vehicle on that
    route; a route that does not occur gets no entry. *)
Theorem headways_between_stream_neighbours (e : TelemetryEvent)
    (events : list TelemetryEvent) :
  ev_route_id e <> None ->
  exists d,
    emitted_headways (e :: events) = Some d
    /\ forall r,
         PyDict.get r d
         = if bool_decide (r ∈ map ev_route_id (e :: events))
           then Some (adjacent_gaps r (e :: events))
           else None.
Proof.
  intros Hr. unfold emitted_headways. cbn [walk_events]. unfold step.
  cbn [walk_init current_route current_vehicle last_timestamp headways_by_route].
  rewrite (bool_decide_true (ev_route_id e ≠ None)) by done.
  cbn [current_route current_vehicle last_timestamp headways_by_route
       PyDict.mem PyDict.get PyDict.set].
  rewrite (bool_decide_true (Some (ev_vehicle_id e) ≠ None)) by done.
  match goal with
  | |- context [walk_events ?w0 events] =>
      destruct (walk_from w0 e events) as (w' & -> & Hw')
  end; [cbn; try done..|].
  { unfold PyDict.mem. cbn. by rewrite decide_True. }
  exists (headways_by_route w'). split; [done|]. intros r. rewrite Hw'.
  cbn [headways_by_route PyDict.get].
  destruct (decide (r = ev_route_id e)) as [->|Hne].
  - by rewrite (bool_decide_true (_ ∈ _)) by (cbn; left).
  - by occurs_later r e events.
Qed.

Lemma headways_between_stream_neighbours_witness :
  exists d,
    emitted_headways Samples.interleaved_events = Some d
    /\ PyDict.get (Some "Red"%string) d = Some [].
Proof.
  destruct (headways_between_stream_neighbours
              (Samples.red_event "a" (Time.minutes 0))
              [Samples.red_event "b" (Time.minutes 1);
               Samples.red_event "a" (Time.minutes 3)])
    as (d & H1 & H2); [discriminate|].
  exists d. split; [exact H1|]. rewrite H2. reflexivity.
Defined.

(** A stream that starts with two events of one vehicle that has no
    route makes the walk raise (the [KeyError] of appending under a
    route that was never entered). *)
Lemma walk_unrouted_pair (e1 e2 : TelemetryEvent)
    (rest : list TelemetryEvent) :
  ev_route_id e1 = None -> ev_route_id e2 = None ->
  ev_vehicle_id e1 = ev_vehicle_id e2 ->
  emitted_headways (e1 :: e2 :: rest) = None.
Proof.
  intros H1 H2 Hv. unfold emitted_headways. cbn [walk_events]. unfold step.
  cbn [walk_init current_route current_vehicle last_timestamp headways_by_route].
  rewrite H1, H2, Hv.
  rewrite (bool_decide_false (None ≠ None)) by (intros X; by apply X).
  cbn [walk_init current_route current_vehicle last_timestamp headways_by_route].
  rewrite (bool_decide_true (Some (ev_vehicle_id e2) ≠ None)) by done.
  cbn [current_route current_vehicle last_timestamp headways_by_route].
  rewrite (bool_decide_false (None ≠ None)) by (intros X; by apply X).
  rewrite (bool_decide_false (Some (ev_vehicle_id e2) ≠ Some (ev_vehicle_id e2)))
    by (intros X; by apply X).
  done.
Qed.

(** *** The order of the selected events *)

Lemma insert_event_perm x l : insert_event x l ≡ₚ x :: l.
Proof.
  induction l as [|y l IH]; cbn; [done|].
  destruct (bool_decide (ev_route_id x = ev_route_id y)),
    (ev_timestamp x <? ev_timestamp y),
    (route_le (ev_route_id x) (ev_route_id y)); try done;
    rewrite IH; apply Permutation_swap.
Qed.

Lemma insert_event_unrouted x n m :
  ev_route_id x = None ->
  Forall (fun e => ev_route_id e = None) n ->
  Forall (fun e => ev_route_id e <> None) m ->
  exists n', insert_event x (n ++ m) = n' ++ m /\ n' ≡ₚ x :: n.
Proof.
  intros Hx Hn Hm. induction n as [|y n IH]; cbn.
  - exists [x]. split; [|done]. destruct m as [|y m]; [done|]. cbn.
    apply Forall_cons in Hm as [Hy _]. rewrite Hx.
    rewrite bool_decide_false by congruence. done.
  - apply Forall_cons in Hn as [Hy Hn]. rewrite Hx, Hy.
    rewrite bool_decide_true by done.
    destruct (ev_timestamp x <? ev_timestamp y).
    + by exists (x :: y :: n).
    + destruct (IH Hn) as (n' & -> & Hp). exists (y :: n'). split; [done|].
      rewrite Hp. apply Permutation_swap.
Qed.

Lemma insert_event_routed x n m :
  ev_route_id x <> None ->
  Forall (fun e => ev_route_id e = None) n ->
  exists m', insert_event x (n ++ m) = n ++ m' /\ m' ≡ₚ x :: m.
Proof.
  intros Hx Hn. induction n as [|y n IH]; cbn.
  - exists (insert_event x m). split; [done|apply insert_event_perm].
  - apply Forall_cons in Hn as [Hy Hn]. rewrite Hy.
    rewrite bool_decide_false by done.
    destruct (ev_route_id x) as [rx|]; [|done]. cbn.
    destruct (IH Hn) as (m' & -> & Hp). by exists m'.
Qed.

(** [ORDER BY route_id, timestamp] puts the events without a route
    first. *)
Lemma unrouted_first l :
  exists n m,
    fold_left (fun acc e => insert_event e acc) l [] = n ++ m
    /\ n ≡ₚ filter (fun e => ev_route_id e = None) l
    /\ Forall (fun e => ev_route_id e <> None) m.
Proof.
  induction l as [|x l IH] using rev_ind.
  { exists [], []. by repeat split. }
  destruct IH as (n & m & E & Hn & Hm). rewrite fold_left_app. cbn. rewrite E.
  assert (Forall (fun e => ev_route_id e = None) n) as Hnull.
  { rewrite Hn. apply Forall_forall. by intros e [? _]%list_elem_of_filter. }
  rewrite filter_app, filter_cons, filter_nil.
  destruct (decide (ev_route_id x = None)) as [Hx|Hx].
  - destruct (insert_event_unrouted x n m Hx Hnull Hm) as (n' & -> & Hp).
    exists n', m. repeat split; [|done].
    by rewrite Hp, Hn, Permutation_cons_append.
  - destruct (insert_event_routed x n m Hx Hnull) as (m' & -> & Hp).
    exists n, m'. repeat split.
    + by rewrite app_nil_r.
    + rewrite Hp. by apply Forall_cons.
Qed.

(** X27: the headway analysis without a route filter raises (the
    [KeyError] of appending under a route that was never entered)
    whenever the last hour holds at least two events without a route
    and all of these are events of one vehicle (the store ordering
    the events without a route first, as SQLite does). *)
Theorem unrouted_vehicle_breaks_analysis (now : Time.datetime)
    (rows : list TelemetryEvent) :
  let unrouted :=
    filter (fun e => ev_route_id e = None)
      (filter (fun e => now - Time.hours 1 <= ev_timestamp e) rows) in
  (2 <= length unrouted)%nat ->
  (forall e e', e ∈ unrouted -> e' ∈ unrouted ->
                ev_vehicle_id e = ev_vehicle_id e') ->
  get_headway_analysis now None rows = None.
Proof.
  intros unrouted Hlen Hsame. unfold get_headway_analysis, select_events.
  destruct (unrouted_first
              (filter (fun e => now - Time.hours 1 <= ev_timestamp e) rows))
    as (n & m & -> & Hn & _).
  fold unrouted in Hn. rewrite <- Hn in Hlen.
  destruct n as [|e1 [|e2 n]]; cbn in Hlen; [lia..|].
  assert (e1 ∈ unrouted) as H1 by (rewrite <- Hn; left).
  assert (e2 ∈ unrouted) as H2 by (rewrite <- Hn; right; left).
  cbn [app]. rewrite walk_unrouted_pair; [done| | |by apply Hsame].
  - by apply list_elem_of_filter in H1 as [? _].
  - by apply list_elem_of_filter in H2 as [? _].
Qed.

Lemma unrouted_vehicle_breaks_analysis_witness :
  get_headway_analysis (Time.minutes 10) None
    [unrouted_event "a" (Time.minutes 0); Samples.red_event "b" (Time.minutes 1);
     unrouted_event "a" (Time.minutes 3)]
  = None.
Proof.
  apply (unrouted_vehicle_breaks_analysis (Time.minutes 10)
           [unrouted_event "a" (Time.minutes 0);
            Samples.red_event "b" (Time.minutes 1);
            unrouted_event "a" (Time.minutes 3)]).
  - vm_compute. lia.
  - intros e e' He He'. vm_compute in He, He'.
    apply elem_of_cons in He as [->|He], He' as [->|He']; try done.
    + apply elem_of_cons in He' as [->|He']; [done|]. by apply elem_of_nil in He'.
    + apply elem_of_cons in He as [->|He]; [done|]. by apply elem_of_nil in He.
    + apply elem_of_cons in He as [->|He]; [|by apply elem_of_nil in He].
      apply elem_of_cons in He' as [->|He']; [done|]. by apply elem_of_nil in He'.
Defined.


(** *** The analysis of one route *)

Lemma insert_event_same_route r x l :
  ev_route_id x = Some r ->
  Forall (fun e => ev_route_id e = Some r) l ->
  insert_event x l = insert_by ev_timestamp x l.
Proof.
  intros Hx Hl. induction l as [|y l IH]; [done|]. cbn.
  apply Forall_cons in Hl as [Hy Hl]. rewrite Hx, Hy.
  rewrite bool_decide_true by done. by rewrite IH.
Qed.

Lemma sort_same_route r l :
  Forall (fun e => ev_route_id e = Some r) l ->
  fold_left (fun acc e => insert_event e acc) l [] = order_by ev_timestamp l.
Proof.
  induction l as [|x l IH] using rev_ind; intros Hl; [done|].
  apply Forall_app in Hl as [Hl Hx]. rewrite Forall_singleton in Hx.
  rewrite fold_left_app, OrderProps.order_by_snoc. cbn. rewrite IH by done.
  apply (insert_event_same_route r); [done|].
  by rewrite OrderProps.order_by_perm.
Qed.

Lemma walk_single_route r hs a events w :
  headways_by_route w = [(Some r, hs)] ->
  current_route w = Some r ->
  current_vehicle w = Some (ev_vehicle_id a) ->
  last_timestamp w = Some (ev_timestamp a) ->
  ev_route_id a = Some r ->
  Forall (fun e => ev_route_id e = Some r) events ->
  headways_by_route <$> walk_events w events
  = Some [(Some r, hs ++ adjacent_gaps (Some r) (a :: events))].
Proof.
  revert hs a w. induction events as [|b rest IH];
    intros hs a w Hd Hr Hv Ht Ha Hall.
  { cbn. by rewrite Hd, app_nil_r. }
  apply Forall_cons in Hall as [Hb Hall].
  destruct w as [d cr cv lt]. cbn in Hd, Hr, Hv, Ht. subst d cr cv lt.
  cbn [walk_events]. unfold step.
  cbn [current_route current_vehicle last_timestamp headways_by_route].
  rewrite Hb. rewrite (bool_decide_false (Some r ≠ Some r))
    by (intros X; by apply X).
  cbn [current_route current_vehicle last_timestamp headways_by_route].
  rewrite (adjacent_gaps_cons (Some r) a b rest).
  destruct (decide (ev_vehicle_id b = ev_vehicle_id a)) as [Ev|Nv].
  - rewrite (bool_decide_false (Some (ev_vehicle_id b) ≠ Some (ev_vehicle_id a)))
      by (intros X; apply X; by rewrite Ev).
    cbn [PyDict.get PyDict.set]. rewrite !decide_True by done.
    rewrite (bool_decide_true (_ /\ _)) by (by rewrite Ha, Hb, Ev).
    erewrite (IH (hs ++ [gap_minutes a b]) b);
      [by rewrite <- app_assoc|cbn; rewrite ?Ev; done..].
  - rewrite (bool_decide_true (Some (ev_vehicle_id b) ≠ Some (ev_vehicle_id a)))
      by congruence.
    rewrite (bool_decide_false (_ /\ _)) by (intros (_ & _ & ?); congruence).
    erewrite (IH hs b); [done|cbn; done..].
Qed.

Lemma emitted_single_route r events :
  Forall (fun e => ev_route_id e = Some r) events ->
  emitted_headways events
  = Some match events with
         | [] => []
         | _ => [(Some r, adjacent_gaps (Some r) events)]
         end.
Proof.
  intros Hall. destruct events as [|e events]; [done|].
  apply Forall_cons in Hall as [He Hall].
  unfold emitted_headways. cbn [walk_events]. unfold step.
  cbn [walk_init current_route current_vehicle last_timestamp headways_by_route].
  rewrite He. rewrite (bool_decide_true (Some r ≠ None)) by done.
  cbn [current_route current_vehicle last_timestamp headways_by_route
       PyDict.mem PyDict.get PyDict.set].
  rewrite (bool_decide_true (Some (ev_vehicle_id e) ≠ None)) by done.
  erewrite (walk_single_route r [] e); [done|cbn; done..].
Qed.

Lemma gap_nonneg a b :
  ev_timestamp a <= ev_timestamp b -> (0 <= gap_minutes a b)%Q.
Proof.
  intros H. unfold gap_minutes, Time.total_seconds.
  apply Qle_shift_div_l; [done|]. unfold Qle. cbn. lia.
Qed.

Lemma adjacent_gaps_nonneg r l h :
  ascending ev_timestamp l -> h ∈ adjacent_gaps r l -> (0 <= h)%Q.
Proof.
  induction l as [|a [|b l] IH]; intros Hasc Hh.
  - by apply elem_of_nil in Hh.
  - by apply elem_of_nil in Hh.
  - rewrite adjacent_gaps_cons in Hh. destruct Hasc as [Ha Hasc].
    apply Forall_cons in Ha as [Hab _].
    destruct (bool_decide _).
    + apply elem_of_cons in Hh as [->|Hh]; [by apply gap_nonneg|by apply IH].
    + by apply IH.
Qed.

(** X28: with a route filter, the headway analysis returns; its events
    are the route's events of the last hour by time, and it has one
    entry at most, for the route itself, over the gaps between
    neighbours in time that are events of one vehicle. No such gap is
    negative. *)
Theorem filtered_headways_by_time (now : Time.datetime) (r : string)
    (rows : list TelemetryEvent) :
  str_truthy r = true ->
  let stream :=
    order_by ev_timestamp
      (filter (fun e => now - Time.hours 1 <= ev_timestamp e)
         (filter (fun e => ev_route_id e = Some r) rows)) in
  let gaps := adjacent_gaps (Some r) stream in
  get_headway_analysis now (Some r) rows
  = Some match stats_of gaps with
         | Some st => [(Some r, st)]
         | None => []
         end
  /\ forall h, h ∈ gaps -> (0 <= h)%Q.
Proof.
  intros Hr stream gaps. split.
  - assert (Hall : Forall (fun e => ev_route_id e = Some r)
                     (filter (fun e => now - Time.hours 1 <= ev_timestamp e)
                        (filter (fun e => ev_route_id e = Some r) rows))).
    { apply Forall_forall. intros e [_ He]%list_elem_of_filter.
      by apply list_elem_of_filter in He as [? _]. }
    unfold get_headway_analysis, select_events. rewrite Hr.
    rewrite (sort_same_route r) by done. fold stream.
    rewrite (emitted_single_route r)
      by (unfold stream; by rewrite OrderProps.order_by_perm).
    fold gaps. destruct stream as [|e stream'] eqn:Es; [done|].
    clearbody gaps. cbn -[stats_of]. by destruct (stats_of gaps).
  - intros h. apply adjacent_gaps_nonneg. apply OrderProps.order_by_ascending.
Qed.

Lemma filtered_headways_by_time_witness :
  get_headway_analysis (Time.minutes 10) (Some "Red"%string)
    Samples.interleaved_events
  = Some [].
Proof.
  destruct (filtered_headways_by_time (Time.minutes 10) "Red"
              Samples.interleaved_events eq_refl) as [H _].
  exact H.
Defined.

(** *** The statistics *)

Lemma py_min_le x xs :
  (py_min x xs <= x)%Q /\ forall h, h ∈ xs -> (py_min x xs <= h)%Q.
Proof.
  unfold py_min. revert x. induction xs as [|y xs IH]; intros x; cbn.
  { split; [apply Qle_refl|]. intros h Hh. by apply elem_of_nil in Hh. }
  destruct (IH (if float_lt y x then y else x)) as [H1 H2].
  assert ((if float_lt y x then y else x) <= x
          /\ (if float_lt y x then y else x) <= y)%Q as [Hx Hy].
  { destruct (float_lt y x) eqn:E.
    - apply AnomalyExtras.float_lt_Qlt in E. split; [by apply Qlt_le_weak|apply Qle_refl].
    - split; [apply Qle_refl|]. apply Qnot_lt_le. intros Hlt.
      apply AnomalyExtras.float_lt_Qlt in Hlt. congruence. }
  split; [by eapply Qle_trans|].
  intros h [->|Hh]%elem_of_cons; [by eapply Qle_trans|by apply H2].
Qed.

Lemma py_max_ge x xs :
  (x <= py_max x xs)%Q /\ forall h, h ∈ xs -> (h <= py_max x xs)%Q.
Proof.
  unfold py_max. revert x. induction xs as [|y xs IH]; intros x; cbn.
  { split; [apply Qle_refl|]. intros h Hh. by apply elem_of_nil in Hh. }
  destruct (IH (if float_lt x y then y else x)) as [H1 H2].
  assert (x <= (if float_lt x y then y else x)
          /\ y <= (if float_lt x y then y else x))%Q as [Hx Hy].
  { destruct (float_lt x y) eqn:E.
    - apply AnomalyExtras.float_lt_Qlt in E. split; [by apply Qlt_le_weak|apply Qle_refl].
    - split; [apply Qle_refl|]. apply Qnot_lt_le. intros Hlt.
      apply AnomalyExtras.float_lt_Qlt in Hlt. congruence. }
  split; [by eapply Qle_trans|].
  intros h [->|Hh]%elem_of_cons; [by eapply Qle_trans|by apply H2].
Qed.

Lemma py_min_elem x xs : py_min x xs ∈ x :: xs.
Proof.
  unfold py_min. revert x. induction xs as [|y xs IH]; intros x; cbn; [left|].
  specialize (IH (if float_lt y x then y else x)).
  apply elem_of_cons in IH as [->|IH].
  - destruct (float_lt y x); [right; left|left].
  - right. by right.
Qed.

Lemma py_max_elem x xs : py_max x xs ∈ x :: xs.
Proof.
  unfold py_max. revert x. induction xs as [|y xs IH]; intros x; cbn; [left|].
  specialize (IH (if float_lt x y then y else x)).
  apply elem_of_cons in IH as [->|IH].
  - destruct (float_lt x y); [right; left|left].
  - right. by right.
Qed.

(** X29: whenever the headway analysis returns, every route it lists
    has at least one headway; the count is the number of all the
    route's headways although 100 at most are listed, and the minimum
    and the maximum reported are headways of the route that bound
    every headway of the route. *)
Theorem analysis_lists_routes_with_headways (now : Time.datetime)
    (route_id : option string) (rows : list TelemetryEvent)
    (analysis : PyDict.dict (option string) route_stats)
    (r : option string) (st : route_stats) :
  get_headway_analysis now route_id rows = Some analysis ->
  (r, st) ∈ analysis ->
  exists by_route hs,
    emitted_headways (select_events now route_id rows) = Some by_route
    /\ (r, hs) ∈ by_route
    /\ count st = length hs /\ (1 <= count st)%nat
    /\ headways st = take 100 hs
    /\ length (headways st) = Nat.min 100 (count st)
    /\ min_minutes st ∈ hs /\ max_minutes st ∈ hs
    /\ forall h, h ∈ hs -> (min_minutes st <= h <= max_minutes st)%Q.
Proof.
  unfold get_headway_analysis. intros Ha Hin.
  destruct (emitted_headways _) as [by_route|]; [|done].
  injection Ha as <-. apply list_elem_of_omap in Hin as ([k hs] & Hkv & Hst).
  cbn [fst snd] in Hst. destruct hs as [|h0 hs]; [done|].
  cbn [stats_of fmap option_fmap option_map] in Hst.
  injection Hst as <- <-. exists by_route, (h0 :: hs).
  cbn [count headways min_minutes max_minutes].
  split; [done|]. split; [done|]. split; [done|]. split; [cbn; lia|].
  split; [done|]. split; [cbn [length]; rewrite ?length_take; lia|].
  split; [apply py_min_elem|]. split; [apply py_max_elem|].
  intros h [->|Hh]%elem_of_cons; split.
  - apply (proj1 (py_min_le h0 hs)).
  - apply (proj1 (py_max_ge h0 hs)).
  - by apply (proj2 (py_min_le h0 hs)).
  - by apply (proj2 (py_max_ge h0 hs)).
Qed.

Lemma analysis_lists_routes_with_headways_witness :
  exists by_route hs,
    emitted_headways
      (select_events (Time.minutes 30) None Samples.one_vehicle_events)
    = Some by_route
    /\ (Some "Red"%string, hs) ∈ by_route
    /\ length hs = 3%nat.
Proof.
  destruct (analysis_lists_routes_with_headways (Time.minutes 30) None
              Samples.one_vehicle_events
              (default [] (get_headway_analysis (Time.minutes 30) None
                             Samples.one_vehicle_events))
              (Some "Red"%string)
              (default {| count := 0; avg_minutes := 0; min_minutes := 0;
                          max_minutes := 0; headways := [] |}
                 (snd <$> head (default []
                                  (get_headway_analysis (Time.minutes 30) None
                                     Samples.one_vehicle_events)))))
    as (by_route & hs & H1 & H2 & H3 & _).
  - vm_compute. reflexivity.
  - vm_compute. left.
  - exists by_route, hs. split; [exact H1|]. split; [exact H2|].
    rewrite <- H3. vm_compute. reflexivity.
Defined.

End HeadwayExtras.

(** ** The collector and the detectors together *)

Module PipelineExtras.

Import Database MBTAClient Collector AlertDetector Anomalies.

(** The rows after a cycle that commits: a listed vehicle has the row
    of its snapshot, any other row is a row of before. *)
Lemma committed_rows (d : database) (c : cycle) (v : Vehicle) :
  unique_vehicle_ids (vehicles d) ->
  (forall op, cy_fault c op = false) ->
  NoDup (map vd_vehicle_id (parsed (cy_net c))) ->
  v ∈ vehicles (run_cycle d c) ->
  (exists s, s ∈ parsed (cy_net c) /\ v = new_vehicle s (cy_time c))
  \/ (v ∈ vehicles d /\ vehicle_id v ∉ map vd_vehicle_id (parsed (cy_net c))).
Proof.
  intros U F Hnd Hv.
  rewrite (CollectorProps.run_cycle_commits d c U F Hnd) in Hv.
  unfold staged_writes in Hv. cbn [vehicles] in Hv.
  fold (all_rows (stage_all (cy_time c) (vehicles d) (parsed (cy_net c))))
    in Hv.
  assert (Hk : v ∈ rows_of (vehicle_id v)
                 (all_rows (stage_all (cy_time c) (vehicles d)
                              (parsed (cy_net c)))))
    by (by apply list_elem_of_filter).
  destruct (decide (vehicle_id v ∈ map vd_vehicle_id (parsed (cy_net c))))
    as [Hin|Hnin].
  - left. apply list_elem_of_fmap in Hin as (s & Hid & Hs). exists s.
    split; [done|]. rewrite Hid in Hk.
    rewrite (ok_rows _ _ _ _
               (CollectorProps.stage_all_ok (cy_time c) (vehicles d) U _ Hnd)
               s Hs) in Hk.
    by apply list_elem_of_singleton in Hk.
  - right. split; [|done]. unfold stage_all in Hk.
    rewrite CollectorExtras.fold_stage_absent in Hk; [|done|done].
    unfold all_rows in Hk. cbn in Hk. rewrite app_nil_r in Hk.
    by apply list_elem_of_filter in Hk as [_ Hk].
Qed.

(** X30: the collector stamps every vehicle of a cycle with one
    collection time, and the bunching detector compares update times:
    right after a cycle that commits and lists every vehicle of a
    route that the store shows as updated in the last 5 minutes, the
    route has no bunching alert; and while the collection is less
    than 10 minutes old no vehicle the cycle listed is reported as
    stalled. *)
Theorem fresh_fleet_raises_no_alert (d : database) (c : cycle)
    (now : Time.datetime) (route_id : string) :
  unique_vehicle_ids (vehicles d) ->
  (forall op, cy_fault c op = false) ->
  NoDup (map vd_vehicle_id (parsed (cy_net c))) ->
  ((forall v, v ∈ vehicles d -> Database.route_id v = Some route_id ->
              now - Time.minutes 5 <= last_updated v ->
              vehicle_id v ∈ map vd_vehicle_id (parsed (cy_net c))) ->
   detect_bunching now route_id (vehicles (run_cycle d c)) = [])
  /\ (now - Time.minutes 10 <= cy_time c ->
      forall s a, s ∈ parsed (cy_net c) ->
        a ∈ detect_stalled_vehicles now (vehicles (run_cycle d c)) ->
        sl_vehicle_id a <> vd_vehicle_id s).
Proof.
  intros U F Hnd. split.
  - intros Hall. apply elem_of_nil_inv. intros a Ha.
    apply AlertProps.scan_pairs_elem in Ha
      as (v1 & v2 & H1 & H2 & _ & _ & Hb).
    assert (Htime : forall v,
              v ∈ recent_positioned now route_id (vehicles (run_cycle d c)) ->
              last_updated v = cy_time c).
    { intros v (Hv & Hr & Hc & _)%AlertProps.elem_of_recent_positioned.
      destruct (committed_rows d c v U F Hnd Hv) as [(s & _ & ->)|[Hd Hnin]];
        [done|].
      destruct Hnin. by apply Hall. }
    rewrite AlertProps.bunched_in_range in Hb. unfold in_bunching_range in Hb.
    cbn [fst snd] in Hb. rewrite (Htime v1 H1), (Htime v2 H2) in Hb.
    rewrite Z.sub_diag in Hb. discriminate Hb.
  - intros Hfresh s a Hs Ha E.
    apply AnomalyExtras.stalled_alert_row in Ha as (v & Hv & Hold & _ & ->).
    cbn in E.
    destruct (committed_rows d c v U F Hnd Hv) as [(s' & _ & ->)|[_ Hnin]].
    + cbn in Hold. lia.
    + apply Hnin. rewrite E. apply list_elem_of_fmap. by exists s.
Qed.

Lemma fresh_fleet_raises_no_alert_witness :
  detect_bunching 70000000 "Red"
    (vehicles (run_cycle Database.empty
                 (Samples.cycle_at Samples.no_fault
                    [Samples.y1; Samples.red_vehicle "y2" (Qmake 423 10)
                                   (Qmake (-711) 10)] 10)))
  = [].
Proof.
  destruct (fresh_fleet_raises_no_alert Database.empty
              (Samples.cycle_at Samples.no_fault
                 [Samples.y1; Samples.red_vehicle "y2" (Qmake 423 10)
                                (Qmake (-711) 10)] 10)
              70000000 "Red") as [H _].
  - apply NoDup_nil_2.
  - reflexivity.
  - apply (bool_decide_unpack _). vm_compute. exact I.
  - apply H. intros v Hv. by apply elem_of_nil in Hv.
Defined.

End PipelineExtras.
